(** * address-sorter: the ROE rule engine of [address_sorter.py]

    A shallow embedding of [AddressSorter] (file [src/address_sorter.py]):
    the unit-format classifier, the per-community rule engine
    [process_roe_subname], the aggregation in [process_roe_deduplication]
    and the presentation pass [add_spacing_to_roe].

    Modelling conventions.
    - A pandas cell is an [option string]: [None] is NaN ([pd.isna]), and
      [Some s] carries [str(value)].  Python strings are modelled by Rocq
      byte strings; [strip], [upper] and [isdigit] are the ASCII
      restrictions of the Python methods.
    - A data frame is its list of column names and its list of rows, in
      frame order; a row carries its index label ([idx]).
    - Python lists that are extended in loops are lists threaded through
      [fold_left].
    - The float tests [a / b > 0.8] and [a / b >= 0.8] are modelled by the
      exact comparisons [4 * b < 5 * a] and [4 * b <= 5 * a]; the two agree
      for every pair of counts below 2^50, since the double nearest to
      [a / b] then lies on the same side of the double [0.8] as the exact
      quotient lies of 4/5. *)

From Stdlib Require Import List Arith Bool Lia String Ascii Permutation.
From Stdlib Require Import DecimalString Sorted.
From Stdlib Require OrderedTypeEx.
Import ListNotations.
Local Open Scope string_scope.
Local Open Scope list_scope.
Local Open Scope nat_scope.

(** Python's [len] on a list. *)
Abbreviation len := List.length.

(* ================================================================= *)
(** ** Python string methods *)

Module PyStr.

(** [str.isspace] on one ASCII character: TAB, LF, VT, FF, CR,
    FS, GS, RS, US and the space. *)
Definition is_space (c : ascii) : bool :=
  let n := nat_of_ascii c in
  ((9 <=? n) && (n <=? 13)) || ((28 <=? n) && (n <=? 32)).

Definition is_digit (c : ascii) : bool :=
  let n := nat_of_ascii c in (48 <=? n) && (n <=? 57).

Definition upper_char (c : ascii) : ascii :=
  let n := nat_of_ascii c in
  if (97 <=? n) && (n <=? 122) then ascii_of_nat (n - 32) else c.

Fixpoint upper (s : string) : string :=
  match s with
  | EmptyString => EmptyString
  | String c t => String (upper_char c) (upper t)
  end.

Fixpoint lstrip (s : string) : string :=
  match s with
  | EmptyString => EmptyString
  | String c t => if is_space c then lstrip t else s
  end.

(** [rstrip] drops the trailing run of whitespace: a character survives
    when it is not whitespace or something survives after it. *)
Fixpoint rstrip (s : string) : string :=
  match s with
  | EmptyString => EmptyString
  | String c t =>
      match rstrip t with
      | EmptyString => if is_space c then EmptyString else String c EmptyString
      | t' => String c t'
      end
  end.

Definition strip (s : string) : string := rstrip (lstrip s).

Definition startswith (p s : string) : bool := String.prefix p s.

(** [sub in s] *)
Fixpoint contains (sub s : string) : bool :=
  String.prefix sub s ||
  match s with
  | EmptyString => false
  | String _ t => contains sub t
  end.

Fixpoint all_digits (s : string) : bool :=
  match s with
  | EmptyString => true
  | String c t => is_digit c && all_digits t
  end.

(** [str.isdigit], and equally [re.match(r'^\d+$', s)] on a string
    without a trailing newline. *)
Definition isdigit (s : string) : bool :=
  match s with
  | EmptyString => false
  | _ => all_digits s
  end.

(** [str(n)] for a non-negative integer. *)
Definition of_nat (n : nat) : string := NilEmpty.string_of_uint (Nat.to_uint n).

End PyStr.

(* ================================================================= *)
(** ** Data model *)

(** One row of the frame built by [load_data].  [idx] is the pandas index
    label.  The required columns are [ID], [Street Address],
    [Unit Number], [Building Type] and [Subname]; a cell of an optional
    column that the frame does not have reads as [None]. *)
Record Row : Type := mkRow {
  idx : nat;
  ID : string;
  street_address : option string;
  unit_number : option string;
  building_type : string;
  subname : string;
  zip : option string;
  plus4_code : option string;
  street_name : option string
}.

Record DataFrame : Type := mkDF {
  columns : list string;
  rows : list Row
}.

Definition has_column (c : string) (df : DataFrame) : bool :=
  existsb (String.eqb c) (columns df).

Definition index (rs : list Row) : list nat := map idx rs.

Definition mem (i : nat) (l : list nat) : bool := existsb (Nat.eqb i) l.

Definition isna {A} (v : option A) : bool :=
  match v with None => true | Some _ => false end.

Definition notna {A} (v : option A) : bool := negb (isna v).

(** [df.drop(labels)]: every row carrying one of the labels goes. *)
Definition drop (labels : list nat) (rs : list Row) : list Row :=
  filter (fun r => negb (mem (idx r) labels)) rs.

(** [df.loc[labels]]: for each label in turn, the rows carrying it.
    (pandas raises [KeyError] on a label the frame lacks; the labels
    passed below always come from the frame, see [decisions_partition].) *)
Definition loc (labels : list nat) (rs : list Row) : list Row :=
  flat_map (fun i => filter (fun r => idx r =? i) rs) labels.

(* ================================================================= *)
(** ** Format classifier *)

Inductive FormatTag : Type :=
| no_unit | unit_format | apt_format | number_only
| ste_format | building_format | hash_b_format | hash_format | other_format.

Definition format_name (t : FormatTag) : string :=
  match t with
  | no_unit => "no_unit" | unit_format => "unit_format"
  | apt_format => "apt_format" | number_only => "number_only"
  | ste_format => "ste_format" | building_format => "building_format"
  | hash_b_format => "hash_b_format" | hash_format => "hash_format"
  | other_format => "other_format"
  end.

Definition tag_eqb (a b : FormatTag) : bool :=
  match a, b with
  | no_unit, no_unit | unit_format, unit_format | apt_format, apt_format
  | number_only, number_only | ste_format, ste_format
  | building_format, building_format | hash_b_format, hash_b_format
  | hash_format, hash_format | other_format, other_format => true
  | _, _ => false
  end.

(** The chain of tests of [get_unit_format_type] on the trimmed,
    upper-cased text. *)
Definition format_of_text (unit_str : string) : FormatTag :=
  if PyStr.startswith "UNIT" unit_str then unit_format
  else if PyStr.startswith "APT" unit_str then apt_format
  else if PyStr.isdigit unit_str then number_only
  else if PyStr.startswith "STE" unit_str then ste_format
  else if PyStr.contains "BLDG" unit_str || PyStr.contains "BUILDING" unit_str
       then building_format
  else if PyStr.startswith "#" unit_str && PyStr.contains "B-" unit_str
       then hash_b_format
  else if PyStr.startswith "#" unit_str then hash_format
  else other_format.

Definition get_unit_format_type (unit_value : option string) : FormatTag :=
  match unit_value with
  | None => no_unit
  | Some v => format_of_text (PyStr.upper (PyStr.strip v))
  end.

Inductive Anomaly : Type := office_indicator | suite_indicator.

Definition detect_unit_anomalies (unit_value : option string) : option Anomaly :=
  match unit_value with
  | None => None
  | Some v =>
      let unit_str := PyStr.strip (PyStr.upper v) in
      if existsb (fun keyword => PyStr.contains keyword unit_str)
           ["OFC"; "OFFICE"; "CLUBHOUSE"; "LEASING"; "CLUB"]
      then Some office_indicator
      else if PyStr.contains "STE" unit_str || PyStr.contains "SUITE" unit_str
      then Some suite_indicator
      else None
  end.

Example classify_probe :
  map get_unit_format_type
      [Some "Unit 6"; Some " apt 6 "; Some "6"; Some "# B-1234"; Some ""; None]
  = [unit_format; apt_format; number_only; hash_b_format; other_format; no_unit].
Proof. reflexivity. Qed.

(* ================================================================= *)
(** ** Flag entries *)

(** The reason of a flag entry; [reason_text] is the f-string the source
    builds for it. *)
Inductive Reason : Type :=
| Oversize (n : nat)
| MduAnomalous (row_format majority : FormatTag)
| MduMinority (row_format majority : FormatTag)
| MinorityFormat (row_format majority : FormatTag)
| OneOffNoUnit (with_unit_count : nat)
| OneOffWithUnit (no_unit_count : nat).

Definition reason_text (r : Reason) : string :=
  match r with
  | Oversize n =>
      "Community has " ++ PyStr.of_nat n ++ " addresses (>800 threshold)"
  | MduAnomalous f m =>
      "MDU anomalous format: " ++ format_name f ++
      " (standard is " ++ format_name m ++ ")"
  | MduMinority f m =>
      "MDU minority format: " ++ format_name f ++
      " (majority is " ++ format_name m ++ ")"
  | MinorityFormat f m =>
      "Minority unit format (" ++ format_name f ++
      ") vs majority (" ++ format_name m ++ ")"
  | OneOffNoUnit n =>
      "One-off: Single address without unit among " ++ PyStr.of_nat n ++
      " with units"
  | OneOffWithUnit n =>
      "One-off: Single address with unit among " ++ PyStr.of_nat n ++
      " without units"
  end.

(** [{'index': idx, 'reason': ..., **row.to_dict()}] *)
Record FlagEntry : Type := mkFlag {
  flag_index : nat;
  reason : Reason;
  flag_row : Row
}.

Definition is_mdu_format_reason (r : Reason) : bool :=
  match r with
  | MduAnomalous _ _ | MduMinority _ _ => true
  | _ => false
  end.

Definition is_minority_reason (r : Reason) : bool :=
  match r with
  | MinorityFormat _ _ => true
  | _ => false
  end.

(* ================================================================= *)
(** ** [collections.Counter] over format tags

    An association list in insertion order, as a Python dict keeps it. *)

Definition Counter := list (FormatTag * nat).

Fixpoint counter_add (t : FormatTag) (c : Counter) : Counter :=
  match c with
  | [] => [(t, 1)]
  | (k, n) :: c' =>
      if tag_eqb k t then (k, S n) :: c' else (k, n) :: counter_add t c'
  end.

Definition counter_of (l : list FormatTag) : Counter :=
  fold_left (fun c t => counter_add t c) l [].

(** [max(d, key=d.get)] and [most_common(1)]: the first entry, in
    insertion order, whose count is maximal. *)
Fixpoint first_max (c : Counter) : option (FormatTag * nat) :=
  match c with
  | [] => None
  | (k, n) :: c' =>
      match first_max c' with
      | None => Some (k, n)
      | Some (k', n') => if n' <=? n then Some (k, n) else Some (k', n')
      end
  end.

Definition standard_formats : list FormatTag :=
  [unit_format; apt_format; number_only].

Definition anomalous_formats : list FormatTag :=
  [ste_format; building_format; hash_b_format; hash_format; other_format].

Definition tag_in (t : FormatTag) (l : list FormatTag) : bool :=
  existsb (tag_eqb t) l.

(* ================================================================= *)
(** ** [groupby('Street Address')]

    pandas drops the rows whose key is NaN and yields the groups in
    ascending key order, each group in frame order. *)

Fixpoint insert_by {A} (leb : A -> A -> bool) (k : A) (l : list A) : list A :=
  match l with
  | [] => [k]
  | x :: t => if leb k x then k :: l else x :: insert_by leb k t
  end.

(** A stable sort: of two entries that [leb] ranks equal, the one that
    came first stays first. *)
Definition sort_by {A} (leb : A -> A -> bool) (l : list A) : list A :=
  fold_right (insert_by leb) [] l.

Definition sort_keys (l : list string) : list string :=
  sort_by String.leb l.

Definition street_keys (rs : list Row) : list string :=
  flat_map (fun r => match street_address r with
                     | Some s => [s]
                     | None => []
                     end) rs.

Definition on_street (k : string) (r : Row) : bool :=
  match street_address r with
  | Some s => String.eqb s k
  | None => false
  end.

Definition groupby_street (rs : list Row) : list (string * list Row) :=
  map (fun k => (k, filter (on_street k) rs))
      (sort_keys (nodup string_dec (street_keys rs))).

(** [Series.nunique()]: the number of distinct non-NaN values. *)
Definition nunique_streets (rs : list Row) : nat :=
  len (nodup string_dec (street_keys rs)).

(* ================================================================= *)
(** ** The per-community rule engine, stage by stage *)

Definition MDU : string := "Residential - MDU".

Definition has_unit (r : Row) : bool := notna (unit_number r).
Definition lacks_unit (r : Row) : bool := isna (unit_number r).

(** Lines 160-166: the labels of the rows whose unit is an anomaly. *)
Definition anomaly_indices (rs : list Row) : list nat :=
  index (filter (fun r => notna (detect_unit_anomalies (unit_number r))) rs).

(** Line 187: the test on one row whose [Plus 4 Code] is [plus4]. *)
Definition plus4_is_anomaly (plus4 : string) (zip_code : option string) : bool :=
  let plus4_str := PyStr.strip plus4 in
  let zip_str := match zip_code with
                 | Some z => PyStr.strip z
                 | None => ""
                 end in
  ((String.length plus4_str =? 5) && PyStr.isdigit plus4_str)
  || String.eqb plus4_str zip_str.

Definition plus4_row_anomaly (r : Row) : bool :=
  match plus4_code r with
  | Some plus4 => plus4_is_anomaly plus4 (zip r)
  | None => false
  end.

(** Lines 177-188. *)
Definition plus4_anomaly_indices
    (cols : list string) (building_type : string) (rs : list Row) : list nat :=
  let roe_types := ["HOA"; MDU; "SFA"] in
  if existsb (String.eqb building_type) roe_types
     && existsb (String.eqb "Plus 4 Code") cols
  then index (filter plus4_row_anomaly rs)
  else [].

(** Lines 198-204. *)
Definition oversize_flags (rs : list Row) : list FlagEntry :=
  if 800 <? len rs
  then map (fun r => mkFlag (idx r) (Oversize (len rs)) r) rs
  else [].

(** Lines 211-218. *)
Definition is_condo_style (rs : list Row) : bool :=
  let unique_streets := nunique_streets rs in
  let total_addresses := len rs in
  let with_units := len (filter has_unit rs) in
  (unique_streets <=? 3)
  && (4 * total_addresses <? 5 * with_units)
  && (50 <? total_addresses).

Definition all_formats (rs : list Row) : list FormatTag :=
  map (fun r => get_unit_format_type (unit_number r)) rs.

(** Lines 233-260.  The source appends to [non_majority_format_indices]
    and to [flagged] in the same branch of the same loop, so the first
    list is the list of the [flag_index] fields of the entries returned
    here (see [non_majority_format_indices]). *)
Definition mdu_format_flags (is_mdu : bool) (rs : list Row) : list FlagEntry :=
  let format_counts := counter_of (all_formats rs) in
  if is_mdu && (1 <? len format_counts) then
    let standard_format_counts :=
      filter (fun e => tag_in (fst e) standard_formats) format_counts in
    match first_max standard_format_counts with
    | None => []
    | Some (majority_standard_format, _) =>
        flat_map
          (fun r =>
             let row_format := get_unit_format_type (unit_number r) in
             if negb (tag_eqb row_format majority_standard_format)
                && negb (tag_eqb row_format no_unit)
             then
               [mkFlag (idx r)
                  (if tag_in row_format anomalous_formats
                   then MduAnomalous row_format majority_standard_format
                   else MduMinority row_format majority_standard_format)
                  r]
             else [])
          rs
    end
  else [].

Definition non_majority_format_indices (is_mdu : bool) (rs : list Row) : list nat :=
  map flag_index (mdu_format_flags is_mdu rs).

(** Lines 271-326: the body of the loop over the street groups.
    [subname_rows] is the frame the groups were cut from. *)
Definition dedup_street (mdu_rules : bool) (subname_rows : list Row)
    (st : list nat * list nat) (group : list Row) : list nat * list nat :=
  let '(keep_addresses, remove_addresses) := st in
  let no_unit_indices := index (filter lacks_unit group) in
  let with_unit_indices := index (filter has_unit group) in
  if mdu_rules then
    if (0 <? len no_unit_indices) && (0 <? len with_unit_indices) then
      (keep_addresses ++ with_unit_indices, remove_addresses ++ no_unit_indices)
    else if (0 <? len with_unit_indices) && (len no_unit_indices =? 0) then
      (keep_addresses ++ with_unit_indices, remove_addresses)
    else if (0 <? len no_unit_indices) && (len with_unit_indices =? 0) then
      let total_with_units := len (filter has_unit subname_rows) in
      let total_in_subname := len subname_rows in
      (* percent_with_units >= 0.8, the quotient being 0 on an empty frame *)
      if (0 <? total_in_subname) && (4 * total_in_subname <=? 5 * total_with_units)
      then (keep_addresses, remove_addresses ++ no_unit_indices)
      else (keep_addresses ++ no_unit_indices, remove_addresses)
    else (keep_addresses, remove_addresses)
  else
    if (0 <? len no_unit_indices) && (0 <? len with_unit_indices) then
      (keep_addresses ++ no_unit_indices, remove_addresses ++ with_unit_indices)
    else if (0 <? len no_unit_indices) && (len with_unit_indices =? 0) then
      (keep_addresses ++ no_unit_indices, remove_addresses)
    else if (len no_unit_indices =? 0) && (0 <? len with_unit_indices) then
      (keep_addresses ++ with_unit_indices, remove_addresses)
    else (keep_addresses, remove_addresses).

(** Lines 269-326: stage 6, the loop over [groupby('Street Address')]. *)
Definition street_dedup (mdu_rules : bool) (subname_rows : list Row)
    (st : list nat * list nat) : list nat * list nat :=
  fold_left (fun st g => dedup_street mdu_rules subname_rows st (snd g))
            (groupby_street subname_rows) st.

(** Lines 330-345.  [formats] is [all_formats] of the frame before the
    non-majority rows were dropped and [format_counts] its counter; the
    loop runs over the frame after the drop. *)
Definition minority_format_flags (is_mdu : bool)
    (formats : list FormatTag) (format_counts : Counter)
    (rs : list Row) (keep_addresses remove_addresses : list nat) : list FlagEntry :=
  if negb is_mdu && (1 <? len format_counts) then
    let total := len formats in
    match first_max format_counts with
    | None => []
    | Some (majority_format, majority_count) =>
        if 4 * total <? 5 * majority_count then
          flat_map
            (fun r =>
               if negb (mem (idx r) keep_addresses)
                  && negb (mem (idx r) remove_addresses)
               then
                 let row_format := get_unit_format_type (unit_number r) in
                 if negb (tag_eqb row_format majority_format)
                    && negb (tag_eqb row_format no_unit)
                 then [mkFlag (idx r) (MinorityFormat row_format majority_format) r]
                 else []
               else [])
            rs
        else []
    end
  else [].

(** [list.remove(x)]: the first occurrence goes. *)
Fixpoint remove_first (i : nat) (l : list nat) : list nat :=
  match l with
  | [] => []
  | x :: t => if x =? i then t else x :: remove_first i t
  end.

(** Lines 356-364 and 367-375: what both one-off branches do with the
    lone row. *)
Definition force_remove (r : Row) (why : Reason)
    (st : list nat * list nat * list FlagEntry) : list nat * list nat * list FlagEntry :=
  let '(keep_addresses, remove_addresses, flagged) := st in
  let single_idx := idx r in
  (if mem single_idx keep_addresses
   then remove_first single_idx keep_addresses
   else keep_addresses,
   remove_addresses ++ [single_idx],
   flagged ++ [mkFlag single_idx why r]).

(** Lines 348-375. *)
Definition one_off (rs : list Row)
    (st : list nat * list nat * list FlagEntry) : list nat * list nat * list FlagEntry :=
  let total_in_subname := len rs in
  let no_unit_count := len (filter lacks_unit rs) in
  let with_unit_count := total_in_subname - no_unit_count in
  if 10 <? total_in_subname then
    if (no_unit_count =? 1) && (10 <? with_unit_count) then
      match filter lacks_unit rs with
      | r :: _ => force_remove r (OneOffNoUnit with_unit_count) st
      | [] => st
      end
    else if (with_unit_count =? 1) && (10 <? no_unit_count) then
      match filter has_unit rs with
      | r :: _ => force_remove r (OneOffWithUnit no_unit_count) st
      | [] => st
      end
    else st
  else st.

(** Lines 154-377. *)
Definition process_roe_subname (subname_df : DataFrame)
    (subname building_type : string) : list nat * list nat * list FlagEntry :=
  let keep_addresses : list nat := [] in
  let remove_addresses := anomaly_indices (rows subname_df) in
  let df1 := drop (anomaly_indices (rows subname_df)) (rows subname_df) in
  if len df1 =? 0 then (keep_addresses, remove_addresses, []) else
  let plus4 := plus4_anomaly_indices (columns subname_df) building_type df1 in
  let df2 := drop plus4 df1 in
  let remove_addresses := remove_addresses ++ plus4 in
  if len df2 =? 0 then (keep_addresses, remove_addresses, []) else
  let flagged := oversize_flags df2 in
  let is_mdu := String.eqb building_type MDU in
  let condo := is_condo_style df2 in
  let formats := all_formats df2 in
  let format_counts := counter_of formats in
  let flagged := flagged ++ mdu_format_flags is_mdu df2 in
  let df3 := drop (non_majority_format_indices is_mdu df2) df2 in
  if len df3 =? 0 then (keep_addresses, remove_addresses, flagged) else
  let '(keep_addresses, remove_addresses) :=
    street_dedup (is_mdu || condo) df3 (keep_addresses, remove_addresses) in
  let flagged :=
    flagged ++ minority_format_flags is_mdu formats format_counts df3
                 keep_addresses remove_addresses in
  one_off df3 (keep_addresses, remove_addresses, flagged).

(* ================================================================= *)
(** ** Aggregation *)

(** A row of the ROE tab after [add_spacing_to_roe]: a blank row, or a
    record with its [Unit Count] cell. *)
Inductive RoeRow : Type :=
| Spacer
| Entry (unit_count : option nat) (r : Row).

Record Tabs : Type := mkTabs {
  All : list Row;
  Public : list Row;
  Commercial : list Row;
  Competitive : list Row;
  Other : list Row;
  ROE : list RoeRow;
  Remove : list Row;
  Flagged : list FlagEntry
}.

Definition of_type (t : string) (rs : list Row) : list Row :=
  filter (fun r => String.eqb (building_type r) t) rs.

Definition roe_types : list string := [MDU; "SFA"; "HOA"; "Mobile"].

(** Lines 84-94: the frame [initial_sort] returns. *)
Definition roe_candidates (rs : list Row) : list Row :=
  filter (fun r => existsb (String.eqb (building_type r)) roe_types) rs.

(** Comparison of two cells for [sort_values]: NaN goes last. *)
Definition cell_leb (a b : option string) : bool :=
  match a, b with
  | Some x, Some y => String.leb x y
  | Some _, None => true
  | None, Some _ => false
  | None, None => true
  end.

Definition cell_eqb (a b : option string) : bool :=
  match a, b with
  | Some x, Some y => String.eqb x y
  | None, None => true
  | _, _ => false
  end.

(** [sort_values] on a list of columns: lexicographic on the cells.
    The model sorts stably; pandas does so for several columns, and for
    one column its default sort leaves the order of equal keys open.
    Nothing proved below depends on the order of rows with equal keys. *)
Fixpoint cells_leb (a b : list (option string)) : bool :=
  match a, b with
  | x :: a', y :: b' => if cell_eqb x y then cells_leb a' b' else cell_leb x y
  | _, _ => true
  end.

Definition sort_values (key : Row -> list (option string)) (rs : list Row) : list Row :=
  sort_by (fun a b => cells_leb (key a) (key b)) rs.

(** [groupby(['Subname', 'Building Type'])]: ascending on the pair. *)
Definition community_leb (a b : string * string) : bool :=
  if String.eqb (fst a) (fst b) then String.leb (snd a) (snd b)
  else String.leb (fst a) (fst b).

Definition community_key (r : Row) : string * string :=
  (subname r, building_type r).

Definition community_eq_dec (a b : string * string) : {a = b} + {a <> b}.
Proof. decide equality; apply string_dec. Defined.

Definition in_community (k : string * string) (r : Row) : bool :=
  String.eqb (subname r) (fst k) && String.eqb (building_type r) (snd k).

Definition groupby_community (rs : list Row) : list ((string * string) * list Row) :=
  map (fun k => (k, filter (in_community k) rs))
      (sort_by community_leb (nodup community_eq_dec (map community_key rs))).

(** Lines 392-398. *)
Definition order_community (cols : list string) (subname : string)
    (rs : list Row) : list Row :=
  if String.eqb subname "No Subname" then
    if existsb (String.eqb "Street Name") cols
    then sort_values (fun r => [street_name r]) rs
    else sort_values (fun r => [street_address r]) rs
  else rs.

(** Lines 383-408: the loop over the communities; the state is
    [(keep_indices, remove_indices, self.flagged_addresses)]. *)
Definition dedup_community (cols : list string)
    (st : list nat * list nat * list FlagEntry)
    (g : (string * string) * list Row) : list nat * list nat * list FlagEntry :=
  let '(keep_indices, remove_indices, flagged_addresses) := st in
  let '((subname, building_type), subname_rows) := g in
  let subname_df := mkDF cols (order_community cols subname subname_rows) in
  let '(keep, remove, flagged) :=
    process_roe_subname subname_df subname building_type in
  (keep_indices ++ keep, remove_indices ++ remove, flagged_addresses ++ flagged).

Definition roe_decisions (cols : list string) (candidates : list Row)
    : list nat * list nat * list FlagEntry :=
  fold_left (dedup_community cols) (groupby_community candidates) ([], [], []).

(** Lines 415-419. *)
Definition sort_roe (cols : list string) (rs : list Row) : list Row :=
  if existsb (String.eqb "Street Name") cols
  then sort_values (fun r => [Some (subname r); street_name r; street_address r]) rs
  else sort_values (fun r => [Some (subname r); street_address r]) rs.

(** [Series.value_counts().to_dict()] on the [Subname] column, read as a
    lookup: a name is a key when it occurs. *)
Definition subname_counts (rs : list Row) (s : string) : option nat :=
  let n := len (filter (fun r => String.eqb (subname r) s) rs) in
  if 0 <? n then Some n else None.

(** Lines 444-463: the loop body; the state is
    [(rows_with_spacing, prev_subname, first_in_community)]. *)
Definition spacing_step (counts : string -> option nat)
    (st : list RoeRow * option string * bool) (row : Row)
    : list RoeRow * option string * bool :=
  let '(rows_with_spacing, prev_subname, first_in_community) := st in
  let current_subname := subname row in
  let '(rows_with_spacing, first_in_community) :=
    match prev_subname with
    | Some p =>
        if negb (String.eqb current_subname p)
        then (rows_with_spacing ++ [Spacer], true)
        else (rows_with_spacing, first_in_community)
    | None => (rows_with_spacing, first_in_community)
    end in
  match (if first_in_community then counts current_subname else None) with
  | Some n =>
      (rows_with_spacing ++ [Entry (Some n) row], Some current_subname, false)
  | None =>
      (rows_with_spacing ++ [Entry None row], Some current_subname,
       first_in_community)
  end.

(** Lines 427-466.  On an empty tab the source returns at once. *)
Definition add_spacing_to_roe (roe : list Row) : list RoeRow :=
  match roe with
  | [] => []
  | _ =>
      let counts := subname_counts roe in
      fst (fst (fold_left (spacing_step counts) roe ([], None, true)))
  end.

(** [initial_sort] followed by [process_roe_deduplication]. *)
Definition process (df : DataFrame) : Tabs :=
  let candidates := roe_candidates (rows df) in
  let '(keep_indices, remove_indices, flagged_addresses) :=
    roe_decisions (columns df) candidates in
  {| All := rows df;
     Public := of_type "Residential" (rows df);
     Commercial := of_type "Commercial" (rows df);
     Competitive := of_type "Competitive" (rows df);
     Other := of_type "Other" (rows df);
     ROE := add_spacing_to_roe (sort_roe (columns df) (loc keep_indices candidates));
     Remove := loc remove_indices candidates;
     Flagged := flagged_addresses |}.

(** The records of a spaced ROE tab. *)
Definition roe_records (l : list RoeRow) : list Row :=
  flat_map (fun e => match e with Spacer => [] | Entry _ r => [r] end) l.

(* ================================================================= *)
(** ** Sample communities *)

Definition base_columns : list string :=
  ["ID"; "Street Address"; "Unit Number"; "Building Type"; "Subname"].

Definition sample_row (i : nat) (street : string) (unit_value : option string)
    (btype sub : string) : Row :=
  mkRow i (PyStr.of_nat i) (Some street) unit_value btype sub None None None.

(** [n] rows [UNIT first], [UNIT first+1], ... on one street. *)
Fixpoint unit_rows (n first : nat) (street btype sub : string) : list Row :=
  match n with
  | O => []
  | S n' =>
      sample_row first street (Some ("UNIT " ++ PyStr.of_nat first)%string) btype sub
      :: unit_rows n' (S first) street btype sub
  end.

(** Eleven units at 1 MAIN ST and the bare address 2 MAIN ST. *)
Definition lone_office : DataFrame :=
  mkDF base_columns
       (unit_rows 11 0 "1 MAIN ST" MDU "Oak Court"
        ++ [sample_row 11 "2 MAIN ST" None MDU "Oak Court"]).

(** [n] houses without unit, each on a street of its own. *)
Fixpoint bare_houses (n first : nat) (btype sub : string) : list Row :=
  match n with
  | O => []
  | S n' =>
      sample_row first (PyStr.of_nat first ++ " OAK LN")%string None btype sub
      :: bare_houses n' (S first) btype sub
  end.

Definition is_spacer_row (e : RoeRow) : bool :=
  match e with
  | Spacer => true
  | Entry _ _ => false
  end.

(** A leasing office is the only row. *)
Definition office_only : DataFrame :=
  mkDF base_columns [sample_row 0 "1 MAIN ST" (Some "OFC") MDU "Oak Court"].

(** Sixty units and one [APT] row at one address, declared SFA. *)
Definition condo_sfa : DataFrame :=
  mkDF base_columns
       (unit_rows 60 0 "9 ELM CT" "SFA" "Elm Court"
        ++ [sample_row 60 "9 ELM CT" (Some "APT 61") "SFA" "Elm Court"]).

(** Two houses, each listed bare and with a unit. *)
Definition sfa_pairs : DataFrame :=
  mkDF base_columns
       [sample_row 0 "5 PINE RD" None "SFA" "Pine Row";
        sample_row 1 "5 PINE RD" (Some "UNIT A") "SFA" "Pine Row";
        sample_row 2 "7 PINE RD" (Some "UNIT B") "SFA" "Pine Row";
        sample_row 3 "7 PINE RD" None "SFA" "Pine Row"].

Definition postal_columns : list string :=
  base_columns ++ ["Zip"; "Plus 4 Code"].

Definition postal_row (i : nat) (zip_code plus4 : option string) : Row :=
  mkRow i (PyStr.of_nat i) (Some "5 PINE RD") None "SFA" "Pine Row"
        zip_code plus4 None.

(** Two [UNIT] rows and one [APT] row of one building. *)
Definition mixed_formats : DataFrame :=
  mkDF base_columns
       [sample_row 0 "1 MAIN ST" (Some "UNIT 1") MDU "Oak Court";
        sample_row 1 "1 MAIN ST" (Some "UNIT 2") MDU "Oak Court";
        sample_row 2 "1 MAIN ST" (Some "APT 3") MDU "Oak Court"].

(* ================================================================= *)
(** * Properties *)

(** ** Strings *)

Module PyStrFacts.
Import PyStr.

Lemma is_space_upper_char c : is_space (upper_char c) = is_space c.
Proof. destruct c as [[] [] [] [] [] [] [] []]; reflexivity. Qed.

Lemma upper_char_idem c : upper_char (upper_char c) = upper_char c.
Proof. destruct c as [[] [] [] [] [] [] [] []]; reflexivity. Qed.

Lemma upper_idem s : upper (upper s) = upper s.
Proof.
  induction s as [|c t IH]; simpl; [reflexivity|].
  now rewrite upper_char_idem, IH.
Qed.

Lemma lstrip_upper s : lstrip (upper s) = upper (lstrip s).
Proof.
  induction s as [|c t IH]; simpl; [reflexivity|].
  rewrite is_space_upper_char. now destruct (is_space c).
Qed.

Lemma rstrip_upper s : rstrip (upper s) = upper (rstrip s).
Proof.
  induction s as [|c t IH]; simpl; [reflexivity|].
  rewrite IH, is_space_upper_char.
  destruct (rstrip t); simpl; [now destruct (is_space c)|reflexivity].
Qed.

Lemma strip_upper s : strip (upper s) = upper (strip s).
Proof. unfold strip. now rewrite lstrip_upper, rstrip_upper. Qed.

Lemma rstrip_idem s : rstrip (rstrip s) = rstrip s.
Proof.
  induction s as [|c t IH]; simpl; [reflexivity|].
  destruct (rstrip t) as [|c' t'] eqn:E.
  - destruct (is_space c) eqn:Ec; simpl; [reflexivity|now rewrite Ec].
  - change (rstrip (String c (String c' t')))
      with (match rstrip (String c' t') with
            | EmptyString => if is_space c then EmptyString else String c EmptyString
            | t'' => String c t''
            end).
    now rewrite IH.
Qed.

(** A string that does not start with whitespace. *)
Definition tight (s : string) : bool :=
  match s with
  | EmptyString => true
  | String c _ => negb (is_space c)
  end.

Lemma tight_lstrip s : tight (lstrip s) = true.
Proof.
  induction s as [|c t IH]; simpl; [reflexivity|].
  destruct (is_space c) eqn:E; [exact IH|simpl; now rewrite E].
Qed.

Lemma lstrip_tight s : tight s = true -> lstrip s = s.
Proof.
  destruct s as [|c t]; simpl; [reflexivity|].
  now destruct (is_space c).
Qed.

Lemma tight_rstrip s : tight s = true -> tight (rstrip s) = true.
Proof.
  destruct s as [|c t]; simpl; [reflexivity|].
  intros H. destruct (rstrip t); [|exact H].
  destruct (is_space c) eqn:E; simpl; [reflexivity|now rewrite E].
Qed.

Lemma strip_idem s : strip (strip s) = strip s.
Proof.
  unfold strip.
  rewrite (lstrip_tight (rstrip (lstrip s))).
  - apply rstrip_idem.
  - apply tight_rstrip, tight_lstrip.
Qed.

End PyStrFacts.

(** ** The format classifier *)

(** The classifier reads its argument only through the trimmed,
    upper-cased text: case and surrounding whitespace do not matter. *)
Lemma format_ignores_case v :
  get_unit_format_type (Some (PyStr.upper v)) = get_unit_format_type (Some v).
Proof.
  simpl. now rewrite PyStrFacts.strip_upper, PyStrFacts.upper_idem.
Qed.

Lemma format_ignores_padding v :
  get_unit_format_type (Some (PyStr.strip v)) = get_unit_format_type (Some v).
Proof. simpl. now rewrite PyStrFacts.strip_idem. Qed.

(** The tests fire in the order of the source: a test decides the tag
    exactly when every earlier test has failed. *)
Lemma format_rule_order u :
  (PyStr.startswith "UNIT" u = true -> format_of_text u = unit_format) /\
  (PyStr.startswith "UNIT" u = false ->
     (PyStr.startswith "APT" u = true -> format_of_text u = apt_format) /\
  (PyStr.startswith "APT" u = false ->
     (PyStr.isdigit u = true -> format_of_text u = number_only) /\
  (PyStr.isdigit u = false ->
     (PyStr.startswith "STE" u = true -> format_of_text u = ste_format) /\
  (PyStr.startswith "STE" u = false ->
     (PyStr.contains "BLDG" u || PyStr.contains "BUILDING" u = true ->
        format_of_text u = building_format) /\
  (PyStr.contains "BLDG" u || PyStr.contains "BUILDING" u = false ->
     (PyStr.startswith "#" u && PyStr.contains "B-" u = true ->
        format_of_text u = hash_b_format) /\
  (PyStr.startswith "#" u && PyStr.contains "B-" u = false ->
     (PyStr.startswith "#" u = true -> format_of_text u = hash_format) /\
     (PyStr.startswith "#" u = false -> format_of_text u = other_format))))))).
Proof.
  unfold format_of_text.
  repeat match goal with
         | |- _ /\ _ => split
         | |- _ = _ -> _ => let H := fresh in intros H; rewrite ?H
         end; reflexivity.
Qed.

(** C3.  [get_unit_format_type] is a function from an optional unit text
    to the nine tags (total and deterministic as every Rocq function); it
    maps "Unit 6", "APT 6", "6", "STE 100", "BLDG J", "# B-1234", "# 6"
    and a missing value to unit_format, apt_format, number_only,
    ste_format, building_format, hash_b_format, hash_format and no_unit;
    it depends on a present value only through its trimmed, upper-cased
    text, on which the tests fire in the order of the source. *)
Theorem classify_unit_total_and_examples :
  (forall v, In (get_unit_format_type v)
                [no_unit; unit_format; apt_format; number_only; ste_format;
                 building_format; hash_b_format; hash_format; other_format]) /\
  get_unit_format_type (Some "Unit 6") = unit_format /\
  get_unit_format_type (Some "APT 6") = apt_format /\
  get_unit_format_type (Some "6") = number_only /\
  get_unit_format_type (Some "STE 100") = ste_format /\
  get_unit_format_type (Some "BLDG J") = building_format /\
  get_unit_format_type (Some "# B-1234") = hash_b_format /\
  get_unit_format_type (Some "# 6") = hash_format /\
  get_unit_format_type None = no_unit /\
  (forall v, get_unit_format_type (Some (PyStr.upper v))
             = get_unit_format_type (Some v)) /\
  (forall v, get_unit_format_type (Some (PyStr.strip v))
             = get_unit_format_type (Some v)) /\
  (forall v, get_unit_format_type (Some v)
             = format_of_text (PyStr.upper (PyStr.strip v))) /\
  (forall u,
     format_of_text u =
       if PyStr.startswith "UNIT" u then unit_format
       else if PyStr.startswith "APT" u then apt_format
       else if PyStr.isdigit u then number_only
       else if PyStr.startswith "STE" u then ste_format
       else if PyStr.contains "BLDG" u || PyStr.contains "BUILDING" u
            then building_format
       else if PyStr.startswith "#" u && PyStr.contains "B-" u
            then hash_b_format
       else if PyStr.startswith "#" u then hash_format
       else other_format).
Proof.
  split.
  { intros v. destruct (get_unit_format_type v); simpl; tauto. }
  repeat split; try reflexivity.
  - apply format_ignores_case.
  - apply format_ignores_padding.
Qed.

(** ** Lists, labels and frames *)

Lemma mem_In i l : mem i l = true <-> In i l.
Proof.
  unfold mem. rewrite existsb_exists. split.
  - intros (x & Hx & E). apply Nat.eqb_eq in E. now subst.
  - intros H. exists i. split; [exact H|apply Nat.eqb_refl].
Qed.

Lemma mem_notin i l : mem i l = false <-> ~ In i l.
Proof.
  rewrite <- mem_In. destruct (mem i l); split; congruence.
Qed.

Lemma in_index r rs : In r rs -> In (idx r) (index rs).
Proof. apply in_map. Qed.

Lemma index_filter_incl f rs i : In i (index (filter f rs)) -> In i (index rs).
Proof.
  unfold index. rewrite !in_map_iff.
  intros (r & E & H). apply filter_In in H. exists r. tauto.
Qed.

Lemma NoDup_index_filter f rs : NoDup (index rs) -> NoDup (index (filter f rs)).
Proof.
  induction rs as [|a rs IH]; simpl; intros H; [constructor|].
  inversion H as [|? ? Hn Hr]; subst.
  destruct (f a); simpl; [constructor|]; auto.
  intros Hin. apply Hn. eapply index_filter_incl, Hin.
Qed.

(** With unique labels a label names one row. *)
Lemma index_inj rs r1 r2 :
  NoDup (index rs) -> In r1 rs -> In r2 rs -> idx r1 = idx r2 -> r1 = r2.
Proof.
  induction rs as [|a rs IH]; simpl; intros H H1 H2 E; [contradiction|].
  inversion H as [|? ? Hn Hr]; subst.
  destruct H1 as [<-|H1], H2 as [<-|H2]; auto.
  - exfalso. apply Hn. rewrite E. now apply in_index.
  - exfalso. apply Hn. rewrite <- E. now apply in_index.
Qed.

Lemma drop_In r ls rs : In r (drop ls rs) <-> In r rs /\ ~ In (idx r) ls.
Proof.
  unfold drop. rewrite filter_In, negb_true_iff, mem_notin. tauto.
Qed.

Lemma index_drop_In i ls rs :
  In i (index (drop ls rs)) <-> In i (index rs) /\ ~ In i ls.
Proof.
  unfold index. rewrite !in_map_iff. split.
  - intros (r & E & H). apply drop_In in H. subst. split; [|tauto].
    exists r. tauto.
  - intros ((r & E & H) & Hn). subst. exists r. split; [reflexivity|].
    apply drop_In. tauto.
Qed.

Lemma insert_by_perm {A} (leb : A -> A -> bool) k l :
  Permutation (insert_by leb k l) (k :: l).
Proof.
  induction l as [|x t IH]; simpl; [reflexivity|].
  destruct (leb k x); [reflexivity|].
  rewrite IH. apply perm_swap.
Qed.

Lemma sort_by_perm {A} (leb : A -> A -> bool) l : Permutation (sort_by leb l) l.
Proof.
  induction l as [|x t IH]; simpl; [constructor|].
  rewrite insert_by_perm. now constructor.
Qed.

Lemma sort_by_In {A} (leb : A -> A -> bool) l x : In x (sort_by leb l) <-> In x l.
Proof.
  split; apply Permutation_in; [|symmetry]; apply sort_by_perm.
Qed.

Lemma NoDup_flat_map {A B} (f : A -> list B) l :
  NoDup l ->
  (forall a, In a l -> NoDup (f a)) ->
  (forall a b x, In a l -> In b l -> In x (f a) -> In x (f b) -> a = b) ->
  NoDup (flat_map f l).
Proof.
  induction l as [|a l IH]; simpl; intros Hl Hf Hd; [constructor|].
  inversion Hl as [|? ? Hn Hr]; subst.
  apply NoDup_app.
  - apply Hf. now left.
  - apply IH; auto. intros; eapply Hd; eauto.
  - intros x Hx Hx'. apply in_flat_map in Hx' as (b & Hb & Hxb).
    assert (a = b) by (eapply Hd; eauto). subst. contradiction.
Qed.

Lemma flat_map_map {A B C} (g : A -> B) (f : B -> list C) l :
  flat_map f (map g l) = flat_map (fun a => f (g a)) l.
Proof.
  induction l as [|a l IH]; simpl; [reflexivity|]. now rewrite IH.
Qed.

Lemma flat_map_ext_in {A B} (f g : A -> list B) l :
  (forall a, In a l -> f a = g a) -> flat_map f l = flat_map g l.
Proof.
  induction l as [|a l IH]; simpl; intros H; [reflexivity|].
  rewrite (H a) by now left. rewrite IH; [reflexivity|].
  intros; apply H; now right.
Qed.

Lemma length_zero_nil {A} (l : list A) : (len l =? 0) = true -> l = [].
Proof. destruct l; simpl; [reflexivity|discriminate]. Qed.

Lemma has_lacks r : has_unit r = negb (lacks_unit r).
Proof. reflexivity. Qed.

(** ** Stage 6: street-level deduplication *)

(** What one street group adds to the two lists. *)
Definition contribution (mdu_rules : bool) (rs group : list Row) : list nat * list nat :=
  dedup_street mdu_rules rs ([], []) group.

Lemma dedup_street_app mdu rs k r g :
  dedup_street mdu rs (k, r) g =
  (k ++ fst (contribution mdu rs g), r ++ snd (contribution mdu rs g)).
Proof.
  unfold contribution, dedup_street.
  repeat match goal with
         | |- context [if ?b then _ else _] => destruct b
         end; simpl; now rewrite ?app_nil_r.
Qed.

Lemma fold_dedup_street mdu rs (gs : list (string * list Row)) k r :
  fold_left (fun st g => dedup_street mdu rs st (snd g)) gs (k, r) =
  (k ++ flat_map (fun g => fst (contribution mdu rs (snd g))) gs,
   r ++ flat_map (fun g => snd (contribution mdu rs (snd g))) gs).
Proof.
  revert k r. induction gs as [|g gs IH]; intros k r; cbn [fold_left flat_map].
  - now rewrite !app_nil_r.
  - rewrite dedup_street_app, IH, <- !app_assoc. reflexivity.
Qed.

Definition street_list (rs : list Row) : list string :=
  sort_keys (nodup string_dec (street_keys rs)).

Definition street_group (rs : list Row) (k : string) : list Row :=
  filter (on_street k) rs.

Lemma street_dedup_eq mdu rs k r :
  street_dedup mdu rs (k, r) =
  (k ++ flat_map (fun s => fst (contribution mdu rs (street_group rs s)))
                 (street_list rs),
   r ++ flat_map (fun s => snd (contribution mdu rs (street_group rs s)))
                 (street_list rs)).
Proof.
  unfold street_dedup, groupby_street. rewrite fold_dedup_street.
  now rewrite !flat_map_map.
Qed.

(** The shapes a contribution can take: [W] are the labels with a unit,
    [N] those without. *)
Lemma contribution_cases mdu rs g :
  let N := index (filter lacks_unit g) in
  let W := index (filter has_unit g) in
  let c := contribution mdu rs g in
  c = (W, N) \/ c = (N, W) \/
  (c = ([], N) /\ W = []) \/ (c = (N, []) /\ W = []) \/ (c = (W, []) /\ N = []).
Proof.
  unfold contribution, dedup_street; simpl.
  destruct (index (filter lacks_unit g)) as [|n N];
    destruct (index (filter has_unit g)) as [|w W];
    destruct mdu; simpl; auto;
    repeat match goal with
           | |- context [if ?b then _ else _] => destruct b
           end; auto 10.
Qed.

Lemma unit_partition g i :
  In i (index g) <->
  In i (index (filter lacks_unit g)) \/ In i (index (filter has_unit g)).
Proof.
  unfold index. rewrite !in_map_iff. split.
  - intros (r & E & H). destruct (lacks_unit r) eqn:L.
    + left. exists r. split; [exact E|]. apply filter_In. tauto.
    + right. exists r. split; [exact E|]. apply filter_In.
      rewrite has_lacks, L. tauto.
  - intros [(r & E & H)|(r & E & H)]; apply filter_In in H; exists r; tauto.
Qed.

Lemma unit_split_disjoint g i :
  NoDup (index g) ->
  In i (index (filter lacks_unit g)) -> In i (index (filter has_unit g)) -> False.
Proof.
  unfold index. rewrite !in_map_iff.
  intros H (r1 & E1 & H1) (r2 & E2 & H2).
  apply filter_In in H1 as [I1 L1], H2 as [I2 L2].
  assert (r1 = r2) by (eapply index_inj; eauto; congruence). subst.
  rewrite has_lacks, L1 in L2. discriminate.
Qed.

Lemma contribution_covers mdu rs g i :
  In i (index g) <->
  In i (fst (contribution mdu rs g)) \/ In i (snd (contribution mdu rs g)).
Proof.
  rewrite unit_partition.
  destruct (contribution_cases mdu rs g)
    as [E|[E|[[E W]|[[E W]|[E N]]]]]; rewrite E; simpl;
    rewrite ?W, ?N; simpl; tauto.
Qed.

Lemma contribution_disjoint mdu rs g i :
  NoDup (index g) ->
  In i (fst (contribution mdu rs g)) -> In i (snd (contribution mdu rs g)) -> False.
Proof.
  intros H.
  destruct (contribution_cases mdu rs g)
    as [E|[E|[[E W]|[[E W]|[E N]]]]]; rewrite E; simpl; try tauto;
    intros; eapply unit_split_disjoint; eauto.
Qed.

Lemma contribution_NoDup mdu rs g :
  NoDup (index g) ->
  NoDup (fst (contribution mdu rs g)) /\ NoDup (snd (contribution mdu rs g)).
Proof.
  intros H.
  pose proof (NoDup_index_filter lacks_unit g H).
  pose proof (NoDup_index_filter has_unit g H).
  destruct (contribution_cases mdu rs g)
    as [E|[E|[[E W]|[[E W]|[E N]]]]]; rewrite E; simpl;
    split; auto; constructor.
Qed.

Lemma street_keys_In rs s :
  In s (street_keys rs) <-> exists r, In r rs /\ street_address r = Some s.
Proof.
  unfold street_keys. rewrite in_flat_map. split.
  - intros (r & H & Hs). exists r. split; [exact H|].
    destruct (street_address r); simpl in Hs; [|contradiction].
    destruct Hs as [->|[]]. reflexivity.
  - intros (r & H & E). exists r. split; [exact H|]. rewrite E. now left.
Qed.

Lemma street_list_In rs s :
  In s (street_list rs) <-> exists r, In r rs /\ street_address r = Some s.
Proof.
  unfold street_list, sort_keys.
  now rewrite sort_by_In, nodup_In, street_keys_In.
Qed.

Lemma street_list_NoDup rs : NoDup (street_list rs).
Proof.
  unfold street_list, sort_keys.
  eapply Permutation_NoDup; [symmetry; apply sort_by_perm|apply NoDup_nodup].
Qed.

Lemma street_group_In rs s r :
  In r (street_group rs s) <-> In r rs /\ street_address r = Some s.
Proof.
  unfold street_group, on_street. rewrite filter_In.
  destruct (street_address r) as [a|].
  - rewrite String.eqb_eq. split; intros [? ?]; split; congruence.
  - split; intros [? ?]; discriminate.
Qed.

(** The keep and remove labels that stage 6 adds for a frame. *)
Definition stage6_keep (mdu_rules : bool) (rs : list Row) : list nat :=
  flat_map (fun s => fst (contribution mdu_rules rs (street_group rs s)))
           (street_list rs).

Definition stage6_remove (mdu_rules : bool) (rs : list Row) : list nat :=
  flat_map (fun s => snd (contribution mdu_rules rs (street_group rs s)))
           (street_list rs).

Lemma street_dedup_stage6 mdu rs k r :
  street_dedup mdu rs (k, r) = (k ++ stage6_keep mdu rs, r ++ stage6_remove mdu rs).
Proof. apply street_dedup_eq. Qed.

Lemma stage6_in_group mdu rs i :
  In i (stage6_keep mdu rs) \/ In i (stage6_remove mdu rs) <->
  exists s, In s (street_list rs) /\ In i (index (street_group rs s)).
Proof.
  unfold stage6_keep, stage6_remove. rewrite !in_flat_map. split.
  - intros [(s & Hs & H)|(s & Hs & H)]; exists s; split; auto;
      apply (contribution_covers mdu rs); tauto.
  - intros (s & Hs & H). apply (contribution_covers mdu rs) in H.
    destruct H; [left|right]; exists s; tauto.
Qed.

Lemma stage6_known mdu rs i :
  In i (stage6_keep mdu rs) \/ In i (stage6_remove mdu rs) -> In i (index rs).
Proof.
  rewrite stage6_in_group. intros (s & _ & H).
  eapply index_filter_incl, H.
Qed.

(** Every row with a street address is decided by stage 6. *)
Lemma stage6_covers mdu rs r :
  In r rs -> street_address r <> None ->
  In (idx r) (stage6_keep mdu rs) \/ In (idx r) (stage6_remove mdu rs).
Proof.
  intros H Hs. destruct (street_address r) as [s|] eqn:E; [|congruence].
  apply stage6_in_group. exists s. split.
  - apply street_list_In. eauto.
  - apply in_index, street_group_In. tauto.
Qed.

Lemma group_of_label rs s1 s2 i :
  NoDup (index rs) ->
  In i (index (street_group rs s1)) -> In i (index (street_group rs s2)) ->
  s1 = s2.
Proof.
  unfold index. rewrite !in_map_iff.
  intros H (r1 & E1 & H1) (r2 & E2 & H2).
  apply street_group_In in H1 as [I1 S1], H2 as [I2 S2].
  assert (r1 = r2) by (eapply index_inj; eauto; congruence). subst.
  congruence.
Qed.

Lemma stage6_disjoint mdu rs i :
  NoDup (index rs) ->
  In i (stage6_keep mdu rs) -> In i (stage6_remove mdu rs) -> False.
Proof.
  unfold stage6_keep, stage6_remove. rewrite !in_flat_map.
  intros H (s1 & _ & H1) (s2 & _ & H2).
  assert (s1 = s2).
  { eapply group_of_label; eauto;
      apply (contribution_covers mdu rs); eauto. }
  subst. eapply (contribution_disjoint mdu rs (street_group rs s2)); eauto.
  apply NoDup_index_filter, H.
Qed.

Lemma stage6_keep_NoDup mdu rs : NoDup (index rs) -> NoDup (stage6_keep mdu rs).
Proof.
  intros H. apply NoDup_flat_map.
  - apply street_list_NoDup.
  - intros s _. apply contribution_NoDup, NoDup_index_filter, H.
  - intros s1 s2 i _ _ H1 H2.
    eapply group_of_label; eauto; apply (contribution_covers mdu rs); eauto.
Qed.

(** ** Stage 8: the one-off override *)

Lemma remove_first_incl i l x : In x (remove_first i l) -> In x l.
Proof.
  induction l as [|a l IH]; simpl; [tauto|].
  destruct (a =? i); simpl; tauto.
Qed.

Lemma remove_first_other i l x : In x l -> x <> i -> In x (remove_first i l).
Proof.
  induction l as [|a l IH]; simpl; [tauto|].
  destruct (a =? i) eqn:E; simpl.
  - apply Nat.eqb_eq in E. intros [->|H] Hn; [congruence|exact H].
  - intros [->|H] Hn; auto.
Qed.

Lemma remove_first_NoDup i l :
  NoDup l -> NoDup (remove_first i l) /\ ~ In i (remove_first i l).
Proof.
  induction l as [|a l IH]; simpl; intros H; [split; [constructor|tauto]|].
  inversion H as [|? ? Hn Hr]; subst.
  destruct (a =? i) eqn:E.
  - apply Nat.eqb_eq in E. subst. tauto.
  - apply Nat.eqb_neq in E. destruct (IH Hr) as [N1 N2]. split.
    + constructor; [|exact N1]. intros Hin. apply Hn.
      eapply remove_first_incl, Hin.
    + simpl. intros [?|?]; [congruence|tauto].
Qed.

(** The override either leaves the state or forces one row of the frame
    into the remove list. *)
Lemma one_off_cases rs st :
  one_off rs st = st \/
  exists r why,
    In r rs /\ is_mdu_format_reason why = false /\
    is_minority_reason why = false /\ one_off rs st = force_remove r why st.
Proof.
  unfold one_off.
  destruct (10 <? len rs); [|now left].
  destruct ((len (filter lacks_unit rs) =? 1)
            && (10 <? len rs - len (filter lacks_unit rs))).
  - destruct (filter lacks_unit rs) as [|r l] eqn:E; [now left|].
    assert (In r (filter lacks_unit rs)) by (rewrite E; now left).
    apply filter_In in H.
    right. exists r. eexists. split; [tauto|].
    refine (conj _ (conj _ eq_refl)); reflexivity.
  - destruct ((len rs - len (filter lacks_unit rs) =? 1)
              && (10 <? len (filter lacks_unit rs))); [|now left].
    destruct (filter has_unit rs) as [|r l] eqn:E; [now left|].
    assert (In r (filter has_unit rs)) by (rewrite E; now left).
    apply filter_In in H.
    right. exists r. eexists. split; [tauto|].
    refine (conj _ (conj _ eq_refl)); reflexivity.
Qed.

(** A pair of label lists that decides a set of labels: no label is kept
    twice, none is both kept and removed. *)
Definition clean (keep remove : list nat) : Prop :=
  NoDup keep /\ forall i, In i keep -> In i remove -> False.

Lemma one_off_clean rs keep remove flagged :
  clean keep remove ->
  let '(keep', remove', _) := one_off rs (keep, remove, flagged) in
  clean keep' remove' /\
  (forall i, In i keep' -> In i keep) /\
  (forall i, In i remove' -> In i remove \/ In i (index rs)) /\
  (forall i, In i keep \/ In i remove -> In i keep' \/ In i remove').
Proof.
  intros [Hk Hd].
  destruct (one_off_cases rs (keep, remove, flagged))
    as [E|(r & why & Hr & _ & _ & E)]; rewrite E.
  - repeat split; auto.
  - unfold force_remove.
    destruct (remove_first_NoDup (idx r) keep Hk) as [N1 N2].
    destruct (mem (idx r) keep) eqn:M.
    + repeat split; auto.
      * intros i Hi Hi'. apply in_app_or in Hi' as [Hi'|[<-|[]]]; [|tauto].
        eapply Hd; eauto. eapply remove_first_incl, Hi.
      * apply remove_first_incl.
      * intros i Hi. apply in_app_or in Hi as [Hi|[<-|[]]]; [tauto|].
        right. now apply in_index.
      * intros i [Hi|Hi].
        -- destruct (Nat.eq_dec i (idx r)) as [->|Hn].
           ++ right. apply in_or_app. right. now left.
           ++ left. now apply remove_first_other.
        -- right. apply in_or_app. tauto.
    + apply mem_notin in M. repeat split; auto.
      * intros i Hi Hi'. apply in_app_or in Hi' as [Hi'|[<-|[]]]; [|tauto].
        eapply Hd; eauto.
      * intros i Hi. apply in_app_or in Hi as [Hi|[<-|[]]]; [tauto|].
        right. now apply in_index.
      * intros i [Hi|Hi]; [tauto|]. right. apply in_or_app. tauto.
Qed.

(** ** The frames of [process_roe_subname]

    The successive values of the variable [subname_df]. *)

Definition survivors1 (df : DataFrame) : list Row :=
  drop (anomaly_indices (rows df)) (rows df).

Definition survivors2 (df : DataFrame) (building_type : string) : list Row :=
  drop (plus4_anomaly_indices (columns df) building_type (survivors1 df))
       (survivors1 df).

Definition survivors3 (df : DataFrame) (building_type : string) : list Row :=
  drop (non_majority_format_indices (String.eqb building_type MDU)
          (survivors2 df building_type))
       (survivors2 df building_type).

(** The remove list when stage 6 starts. *)
Definition early_removals (df : DataFrame) (building_type : string) : list nat :=
  anomaly_indices (rows df)
  ++ plus4_anomaly_indices (columns df) building_type (survivors1 df).

Lemma process_roe_subname_unfold df s bt :
  process_roe_subname df s bt =
  if len (survivors1 df) =? 0 then ([], anomaly_indices (rows df), []) else
  if len (survivors2 df bt) =? 0 then ([], early_removals df bt, []) else
  let is_mdu := String.eqb bt MDU in
  let df2 := survivors2 df bt in
  let df3 := survivors3 df bt in
  let flagged := oversize_flags df2 ++ mdu_format_flags is_mdu df2 in
  if len df3 =? 0 then ([], early_removals df bt, flagged) else
  let mdu_rules := is_mdu || is_condo_style df2 in
  let keep := stage6_keep mdu_rules df3 in
  let remove := early_removals df bt ++ stage6_remove mdu_rules df3 in
  one_off df3
    (keep, remove,
     flagged ++ minority_format_flags is_mdu (all_formats df2)
                  (counter_of (all_formats df2)) df3 keep remove).
Proof.
  unfold process_roe_subname, survivors3, survivors2, survivors1, early_removals.
  cbv zeta.
  repeat match goal with
         | |- (if ?b then _ else _) = _ => destruct b; [reflexivity|]
         end.
  now rewrite street_dedup_stage6.
Qed.

Lemma survivors1_index df i :
  In i (index (survivors1 df)) <->
  In i (index (rows df)) /\ ~ In i (anomaly_indices (rows df)).
Proof. apply index_drop_In. Qed.

Lemma survivors2_index df bt i :
  In i (index (survivors2 df bt)) <->
  In i (index (survivors1 df)) /\
  ~ In i (plus4_anomaly_indices (columns df) bt (survivors1 df)).
Proof. apply index_drop_In. Qed.

Lemma survivors3_index df bt i :
  In i (index (survivors3 df bt)) <->
  In i (index (survivors2 df bt)) /\
  ~ In i (non_majority_format_indices (String.eqb bt MDU) (survivors2 df bt)).
Proof. apply index_drop_In. Qed.

Lemma survivors3_NoDup df bt :
  NoDup (index (rows df)) -> NoDup (index (survivors3 df bt)).
Proof.
  intros H. unfold survivors3, survivors2, survivors1, drop.
  now repeat apply NoDup_index_filter.
Qed.

Lemma anomaly_indices_known rs i : In i (anomaly_indices rs) -> In i (index rs).
Proof. apply index_filter_incl. Qed.

Lemma plus4_indices_known cols bt rs i :
  In i (plus4_anomaly_indices cols bt rs) -> In i (index rs).
Proof.
  unfold plus4_anomaly_indices.
  destruct (_ && _); [apply index_filter_incl|intros []].
Qed.

Lemma early_removals_known df bt i :
  In i (early_removals df bt) -> In i (index (rows df)).
Proof.
  unfold early_removals. intros H. apply in_app_or in H as [H|H].
  - eapply anomaly_indices_known, H.
  - apply plus4_indices_known in H. apply survivors1_index in H. tauto.
Qed.

Lemma early_removals_gone df bt i :
  In i (early_removals df bt) -> ~ In i (index (survivors2 df bt)).
Proof.
  unfold early_removals. intros H H2.
  apply survivors2_index in H2 as [H1 Hp].
  apply survivors1_index in H1 as [_ Ha].
  apply in_app_or in H. tauto.
Qed.

(** A row of the frame is an early removal or survives stage 2. *)
Lemma early_or_survivor df bt r :
  In r (rows df) ->
  In (idx r) (early_removals df bt) \/ In r (survivors2 df bt).
Proof.
  intros H. unfold early_removals.
  destruct (mem (idx r) (anomaly_indices (rows df))) eqn:A.
  { apply mem_In in A. left. apply in_or_app. tauto. }
  apply mem_notin in A.
  destruct (mem (idx r)
              (plus4_anomaly_indices (columns df) bt (survivors1 df))) eqn:P.
  { apply mem_In in P. left. apply in_or_app. tauto. }
  apply mem_notin in P. right.
  apply drop_In. split; [|exact P].
  apply drop_In. tauto.
Qed.

(** ** Flag entries of the engine *)

Lemma mdu_format_flags_spec is_mdu rs e :
  In e (mdu_format_flags is_mdu rs) ->
  is_mdu = true /\ In (flag_row e) rs /\ flag_index e = idx (flag_row e) /\
  is_mdu_format_reason (reason e) = true /\
  is_minority_reason (reason e) = false.
Proof.
  unfold mdu_format_flags.
  destruct (is_mdu && _) eqn:C; [|intros []].
  apply andb_true_iff in C as [-> _].
  destruct (first_max _) as [[m n]|]; [|intros []].
  rewrite in_flat_map. intros (r & Hr & He). cbv zeta in He.
  destruct (negb (tag_eqb (get_unit_format_type (unit_number r)) m)
            && negb (tag_eqb (get_unit_format_type (unit_number r)) no_unit));
    [|destruct He].
  destruct He as [<-|[]]. cbn [flag_row flag_index reason].
  repeat split; auto; now destruct (tag_in _ _).
Qed.

Lemma oversize_flags_spec rs e :
  In e (oversize_flags rs) ->
  In (flag_index e) (index rs) /\ is_mdu_format_reason (reason e) = false
  /\ is_minority_reason (reason e) = false.
Proof.
  unfold oversize_flags. destruct (800 <? len rs); [|intros []].
  rewrite in_map_iff. intros (r & <- & Hr). simpl.
  repeat split. now apply in_index.
Qed.

Lemma minority_format_flags_spec is_mdu fs c rs keep remove e :
  In e (minority_format_flags is_mdu fs c rs keep remove) ->
  In (flag_row e) rs /\ flag_index e = idx (flag_row e) /\
  ~ In (flag_index e) keep /\ ~ In (flag_index e) remove /\
  is_mdu_format_reason (reason e) = false.
Proof.
  unfold minority_format_flags.
  destruct (negb is_mdu && _); [|intros []].
  destruct (first_max c) as [[m n]|]; [|intros []].
  destruct (_ <? _); [|intros []].
  rewrite in_flat_map. intros (r & Hr & He).
  destruct (negb (mem (idx r) keep) && negb (mem (idx r) remove)) eqn:M;
    [|destruct He].
  apply andb_true_iff in M as [Mk Mr].
  apply negb_true_iff in Mk, Mr. apply mem_notin in Mk, Mr.
  cbv zeta in He.
  destruct (negb (tag_eqb (get_unit_format_type (unit_number r)) m)
            && negb (tag_eqb (get_unit_format_type (unit_number r)) no_unit));
    [|destruct He].
  destruct He as [<-|[]]. simpl. tauto.
Qed.

Lemma one_off_flags rs keep remove flagged :
  let '(_, _, flagged') := one_off rs (keep, remove, flagged) in
  (forall e, In e flagged -> In e flagged') /\
  (forall e, In e flagged' ->
     In e flagged \/
     (In (flag_index e) (index rs) /\ is_mdu_format_reason (reason e) = false
      /\ is_minority_reason (reason e) = false)).
Proof.
  destruct (one_off_cases rs (keep, remove, flagged))
    as [E|(r & why & Hr & M1 & M2 & E)]; rewrite E.
  - split; intros; tauto.
  - unfold force_remove. split; intros e He.
    + apply in_or_app. tauto.
    + apply in_app_or in He as [He|[<-|[]]]; [tauto|]. right. simpl.
      repeat split; auto. now apply in_index.
Qed.

(** ** The decisions of one community *)

(** A label is excluded by format when some flag entry carries it with
    one of the two MDU format reasons. *)
Definition excluded_by_format (flagged : list FlagEntry) (i : nat) : Prop :=
  exists e, In e flagged /\ flag_index e = i /\
            is_mdu_format_reason (reason e) = true.

Lemma excluded_iff_non_majority is_mdu rs other i :
  (forall e, In e other -> is_mdu_format_reason (reason e) = false) ->
  excluded_by_format (other ++ mdu_format_flags is_mdu rs) i <->
  In i (non_majority_format_indices is_mdu rs).
Proof.
  intros Ho. unfold excluded_by_format, non_majority_format_indices.
  rewrite in_map_iff. split.
  - intros (e & He & Ei & Er). apply in_app_or in He as [He|He].
    + rewrite (Ho e He) in Er. discriminate.
    + eauto.
  - intros (e & Ei & He). exists e. repeat split; auto.
    + apply in_or_app. tauto.
    + now apply mdu_format_flags_spec in He.
Qed.

Lemma non_majority_spec is_mdu rs i :
  In i (non_majority_format_indices is_mdu rs) ->
  is_mdu = true /\ In i (index rs).
Proof.
  unfold non_majority_format_indices. rewrite in_map_iff.
  intros (e & <- & He). apply mdu_format_flags_spec in He as (M & Hr & -> & _).
  split; [exact M|now apply in_index].
Qed.

Lemma survivors2_known df bt i :
  In i (index (survivors2 df bt)) -> In i (index (rows df)).
Proof.
  intros H. apply survivors2_index in H as [H _].
  apply survivors1_index in H. tauto.
Qed.

Lemma engine_partition df s bt :
  NoDup (index (rows df)) ->
  let '(keep, remove, flagged) := process_roe_subname df s bt in
  clean keep remove /\
  (forall i, In i keep \/ In i remove -> In i (index (rows df))) /\
  (forall i, excluded_by_format flagged i ->
     bt = MDU /\ In i (index (rows df)) /\ ~ In i keep /\ ~ In i remove) /\
  (forall r, In r (rows df) -> street_address r <> None ->
     In (idx r) keep \/ In (idx r) remove \/
     excluded_by_format flagged (idx r)).
Proof.
  intros ND. rewrite process_roe_subname_unfold.
  assert (NoEx : forall i, ~ excluded_by_format [] i)
    by (intros i (e & [] & _)).
  destruct (len (survivors1 df) =? 0) eqn:E1.
  { apply length_zero_nil in E1. repeat split.
    - constructor.
    - intros i [].
    - intros i [[]|H]. eapply anomaly_indices_known, H.
    - now apply NoEx in H.
    - now apply NoEx in H.
    - now apply NoEx in H.
    - now apply NoEx in H.
    - intros r Hr _.
      destruct (mem (idx r) (anomaly_indices (rows df))) eqn:A.
      + apply mem_In in A. tauto.
      + apply mem_notin in A.
        assert (In r (survivors1 df)) by (apply drop_In; tauto).
        rewrite E1 in H. destruct H. }
  destruct (len (survivors2 df bt) =? 0) eqn:E2.
  { apply length_zero_nil in E2. repeat split.
    - constructor.
    - intros i [].
    - intros i [[]|H]. eapply early_removals_known, H.
    - now apply NoEx in H.
    - now apply NoEx in H.
    - now apply NoEx in H.
    - now apply NoEx in H.
    - intros r Hr _.
      destruct (early_or_survivor df bt r Hr) as [H|H]; [tauto|].
      rewrite E2 in H. destruct H. }
  cbv zeta.
  set (is_mdu := String.eqb bt MDU).
  set (df2 := survivors2 df bt).
  set (df3 := survivors3 df bt).
  set (early := early_removals df bt).
  set (flagged0 := oversize_flags df2 ++ mdu_format_flags is_mdu df2).
  assert (Ov : forall e, In e (oversize_flags df2) ->
                         is_mdu_format_reason (reason e) = false)
    by (intros e He; now apply oversize_flags_spec in He).
  assert (Ex0 : forall i, excluded_by_format flagged0 i <->
                          In i (non_majority_format_indices is_mdu df2))
    by (intros i; now apply excluded_iff_non_majority).
  assert (ExOut : forall i, In i (non_majority_format_indices is_mdu df2) ->
             bt = MDU /\ In i (index (rows df)) /\ ~ In i early
             /\ ~ In i (index df3)).
  { intros i Hi. pose proof (non_majority_spec _ _ _ Hi) as [M H2].
    repeat split.
    - now apply String.eqb_eq.
    - eapply survivors2_known, H2.
    - intros He. eapply early_removals_gone; eauto.
    - intros H3. apply survivors3_index in H3. tauto. }
  assert (Cov : forall r, In r (rows df) ->
             In (idx r) early \/
             In (idx r) (non_majority_format_indices is_mdu df2) \/
             In r df3).
  { intros r Hr. destruct (early_or_survivor df bt r Hr) as [H|H]; [tauto|].
    right.
    destruct (mem (idx r) (non_majority_format_indices is_mdu df2)) eqn:M.
    - apply mem_In in M. tauto.
    - apply mem_notin in M. right. apply drop_In. tauto. }
  destruct (len df3 =? 0) eqn:E3.
  { apply length_zero_nil in E3. repeat split.
    - constructor.
    - intros i [].
    - intros i [[]|H]. eapply early_removals_known, H.
    - apply Ex0, ExOut in H. tauto.
    - apply Ex0, ExOut in H. tauto.
    - tauto.
    - apply Ex0, ExOut in H. tauto.
    - intros r Hr _. destruct (Cov r Hr) as [H|[H|H]].
      + tauto.
      + right. right. now apply Ex0.
      + rewrite E3 in H. destruct H. }
  set (mdu_rules := is_mdu || is_condo_style df2).
  set (keep := stage6_keep mdu_rules df3).
  set (remove := early ++ stage6_remove mdu_rules df3).
  set (flagged1 := flagged0 ++ minority_format_flags is_mdu (all_formats df2)
                     (counter_of (all_formats df2)) df3 keep remove).
  pose proof (survivors3_NoDup df bt ND) as ND3. fold df3 in ND3.
  assert (K3 : forall i, In i keep -> In i (index df3))
    by (intros i H; apply (stage6_known mdu_rules); tauto).
  assert (R3 : forall i, In i remove -> In i early \/ In i (index df3)).
  { intros i H. apply in_app_or in H as [H|H]; [tauto|].
    right. apply (stage6_known mdu_rules). tauto. }
  assert (D3 : forall i, In i (index df3) -> In i (index (rows df)) /\ ~ In i early).
  { intros i H. apply survivors3_index in H as [H _]. split.
    - eapply survivors2_known, H.
    - intros He. eapply early_removals_gone; eauto. }
  assert (C6 : clean keep remove).
  { split; [now apply stage6_keep_NoDup|].
    intros i Hk Hr. apply in_app_or in Hr as [Hr|Hr].
    - apply K3, D3 in Hk. tauto.
    - eapply stage6_disjoint; eauto. }
  pose proof (one_off_clean df3 keep remove flagged1 C6) as OC.
  pose proof (one_off_flags df3 keep remove flagged1) as OF.
  destruct (one_off df3 (keep, remove, flagged1)) as [[keep' remove'] flagged'].
  destruct OC as (Cl & Kin & Rin & Pres). destruct OF as (Fin & Fout).
  assert (Ex1 : forall i, excluded_by_format flagged' i <->
                          In i (non_majority_format_indices is_mdu df2)).
  { intros i. rewrite <- Ex0. split.
    - intros (e & He & Ei & Er). exists e. repeat split; auto.
      apply Fout in He as [He|(_ & M & _)]; [|congruence].
      apply in_app_or in He as [He|He]; [exact He|].
      apply minority_format_flags_spec in He. destruct He as (_ & _ & _ & _ & M).
      congruence.
    - intros (e & He & Ei & Er). exists e. repeat split; auto.
      apply Fin. apply in_or_app. tauto. }
  split; [exact Cl|]. split; [|split].
  - intros i [H|H].
    + apply Kin, K3, D3 in H. tauto.
    + apply Rin in H as [H|H].
      * apply R3 in H as [H|H]; [eapply early_removals_known, H|].
        apply D3 in H. tauto.
      * apply D3 in H. tauto.
  - intros i H. apply Ex1, ExOut in H. destruct H as (B & I & NE & N3).
    split; [exact B|]. split; [exact I|]. split.
    + intros H. apply Kin, K3 in H. tauto.
    + intros H. apply Rin in H as [H|H]; [|tauto].
      apply R3 in H. tauto.
  - intros r Hr Hs. destruct (Cov r Hr) as [H|[H|H]].
    + destruct (Pres (idx r)) as [P|P]; [|tauto|tauto].
      right. apply in_or_app. tauto.
    + right. right. now apply Ex1.
    + destruct (stage6_covers mdu_rules df3 r H Hs) as [P|P].
      * destruct (Pres (idx r)); tauto.
      * destruct (Pres (idx r)) as [Q|Q]; [|tauto|tauto].
        right. apply in_or_app. tauto.
Qed.

(** Where a flag entry of the engine comes from. *)
Lemma engine_flags_origin df s bt :
  let '(_, _, flagged) := process_roe_subname df s bt in
  let is_mdu := String.eqb bt MDU in
  let df2 := survivors2 df bt in
  let df3 := survivors3 df bt in
  let mdu_rules := is_mdu || is_condo_style df2 in
  forall e, In e flagged ->
    In e (oversize_flags df2) \/
    In e (mdu_format_flags is_mdu df2) \/
    In e (minority_format_flags is_mdu (all_formats df2)
            (counter_of (all_formats df2)) df3
            (stage6_keep mdu_rules df3)
            (early_removals df bt ++ stage6_remove mdu_rules df3)) \/
    (In (flag_index e) (index df3) /\
     is_mdu_format_reason (reason e) = false /\
     is_minority_reason (reason e) = false).
Proof.
  rewrite process_roe_subname_unfold.
  destruct (len (survivors1 df) =? 0); [cbv beta iota zeta; intros e []|].
  destruct (len (survivors2 df bt) =? 0); [cbv beta iota zeta; intros e []|].
  cbv zeta.
  destruct (len (survivors3 df bt) =? 0).
  { cbv beta iota zeta. intros e He. apply in_app_or in He. tauto. }
  match goal with
  | |- context [one_off ?rs (?k, ?r, ?f)] =>
      pose proof (one_off_flags rs k r f) as OF;
      destruct (one_off rs (k, r, f)) as [[keep' remove'] flagged']
  end.
  destruct OF as [_ Fout]. cbv beta iota zeta. intros e He.
  apply Fout in He as [He|He]; [|tauto].
  apply in_app_or in He as [He|He]; [|tauto].
  apply in_app_or in He. tauto.
Qed.

Lemma survivors3_incl df bt i :
  In i (index (survivors3 df bt)) -> In i (index (survivors2 df bt)).
Proof. intros H. apply survivors3_index in H. tauto. Qed.

(** Every flag entry names a row that survived the two early stages. *)
Lemma engine_flags_survivors df s bt :
  let '(_, _, flagged) := process_roe_subname df s bt in
  forall e, In e flagged -> In (flag_index e) (index (survivors2 df bt)).
Proof.
  pose proof (engine_flags_origin df s bt) as O.
  destruct (process_roe_subname df s bt) as [[keep remove] flagged].
  intros e He. destruct (O e He) as [H|[H|[H|H]]].
  - now apply oversize_flags_spec in H.
  - apply mdu_format_flags_spec in H as (_ & Hr & -> & _). now apply in_index.
  - apply minority_format_flags_spec in H as (Hr & -> & _).
    apply survivors3_incl. now apply in_index.
  - apply survivors3_incl. tauto.
Qed.

(** The early removals stay in the remove list to the end. *)
Lemma early_removals_kept df s bt i :
  survivors1 df <> [] ->
  In i (early_removals df bt) ->
  In i (snd (fst (process_roe_subname df s bt))).
Proof.
  intros N1 H. rewrite process_roe_subname_unfold.
  destruct (survivors1 df) as [|a l] eqn:E1; [congruence|].
  cbn [length Nat.eqb].
  destruct (len (survivors2 df bt) =? 0); [exact H|].
  cbv zeta. destruct (len (survivors3 df bt) =? 0); [exact H|].
  match goal with
  | |- context [one_off ?rs (?k, ?r, ?f)] =>
      destruct (one_off_cases rs (k, r, f)) as [E|(x & why & _ & _ & _ & E)];
      rewrite E
  end; unfold force_remove; cbn [fst snd].
  - apply in_or_app. now left.
  - apply in_or_app. left. apply in_or_app. now left.
Qed.

(** ** C1: keep and remove *)

(** The claim as written fails: the third row of [mixed_formats], an
    [APT] unit among [UNIT] units of an MDU community, is flagged by the
    majority-format stage and lands in neither list. *)
Lemma keep_remove_not_exhaustive :
  ~ (forall df s bt,
       NoDup (index (rows df)) ->
       (forall r, In r (rows df) -> street_address r <> None) ->
       let '(keep, remove, _) := process_roe_subname df s bt in
       forall r, In r (rows df) -> In (idx r) keep \/ In (idx r) remove).
Proof.
  intros H.
  specialize (H mixed_formats "Oak Court" MDU).
  assert (ND : NoDup (index (rows mixed_formats))).
  { repeat constructor; simpl; intuition discriminate. }
  assert (St : forall r, In r (rows mixed_formats) -> street_address r <> None).
  { intros r [<-|[<-|[<-|[]]]]; discriminate. }
  specialize (H ND St). vm_compute in H.
  destruct (H (sample_row 2 "1 MAIN ST" (Some "APT 3") MDU "Oak Court"))
    as [[E|[E|[]]]|[]]; try discriminate.
  vm_compute. tauto.
Qed.

(** C1 (amended).  For a community whose rows carry distinct labels and
    all have a street address: no label is kept twice, no label is both
    kept and removed, both lists only hold labels of the community, and
    every row is kept, or removed, or was excluded by the MDU
    majority-format stage (it then carries an MDU format flag, the
    building type is Residential - MDU, and it is in neither list). *)
Theorem keep_remove_partition df s bt :
  NoDup (index (rows df)) ->
  (forall r, In r (rows df) -> street_address r <> None) ->
  let '(keep, remove, flagged) := process_roe_subname df s bt in
  NoDup keep /\
  (forall i, In i keep -> ~ In i remove) /\
  (forall i, In i keep \/ In i remove -> In i (index (rows df))) /\
  (forall r, In r (rows df) ->
     (In (idx r) keep \/ In (idx r) remove) /\
       ~ excluded_by_format flagged (idx r)
     \/
     excluded_by_format flagged (idx r) /\ bt = MDU /\
       ~ In (idx r) keep /\ ~ In (idx r) remove).
Proof.
  intros ND St. pose proof (engine_partition df s bt ND) as P.
  destruct (process_roe_subname df s bt) as [[keep remove] flagged].
  destruct P as ([Nk Dj] & Kn & Ex & Cov).
  split; [exact Nk|]. split; [exact Dj|]. split; [exact Kn|].
  intros r Hr. destruct (Cov r Hr (St r Hr)) as [H|[H|H]].
  - left. split; [tauto|]. intros X. apply Ex in X. tauto.
  - left. split; [tauto|]. intros X. apply Ex in X. tauto.
  - right. apply Ex in H as H'. tauto.
Qed.

Lemma keep_remove_partition_witness :
  NoDup (index (rows mixed_formats)) /\
  (forall r, In r (rows mixed_formats) -> street_address r <> None) /\
  let '(keep, remove, flagged) :=
    process_roe_subname mixed_formats "Oak Court" MDU in
  NoDup keep /\
  (forall i, In i keep -> ~ In i remove) /\
  (forall i, In i keep \/ In i remove -> In i (index (rows mixed_formats))) /\
  (forall r, In r (rows mixed_formats) ->
     (In (idx r) keep \/ In (idx r) remove) /\
       ~ excluded_by_format flagged (idx r)
     \/
     excluded_by_format flagged (idx r) /\ MDU = MDU /\
       ~ In (idx r) keep /\ ~ In (idx r) remove).
Proof.
  assert (ND : NoDup (index (rows mixed_formats))).
  { repeat constructor; simpl; intuition discriminate. }
  assert (St : forall r, In r (rows mixed_formats) -> street_address r <> None).
  { intros r [<-|[<-|[<-|[]]]]; discriminate. }
  split; [exact ND|]. split; [exact St|].
  exact (keep_remove_partition mixed_formats "Oak Court" MDU ND St).
Defined.

(** ** C4: the majority-format stage is gated on the declared type *)

Lemma drop_nil rs : drop [] rs = rs.
Proof.
  unfold drop. induction rs as [|a rs IH]; simpl; [reflexivity|].
  f_equal. exact IH.
Qed.

Lemma not_mdu bt : bt <> MDU -> String.eqb bt MDU = false.
Proof. apply String.eqb_neq. Qed.

Lemma mdu_format_flags_off rs : mdu_format_flags false rs = [].
Proof. reflexivity. Qed.

Lemma survivors3_not_mdu df bt : bt <> MDU -> survivors3 df bt = survivors2 df bt.
Proof.
  intros H. unfold survivors3, non_majority_format_indices.
  rewrite (not_mdu bt H), mdu_format_flags_off. apply drop_nil.
Qed.

Lemma condo_style_large rs : is_condo_style rs = true -> (len rs =? 0) = false.
Proof.
  unfold is_condo_style. intros H.
  apply andb_true_iff in H as [_ H]. apply Nat.ltb_lt in H.
  apply Nat.eqb_neq. lia.
Qed.

Lemma survivors2_of_none df bt : survivors1 df = [] -> survivors2 df bt = [].
Proof. unfold survivors2. now intros ->. Qed.

(** C4.  For a community whose declared building type is not
    Residential - MDU the majority-format stage does nothing: it flags no
    row and excludes none, so stage 6 receives every survivor of stage 2
    and no flag entry of the result carries an MDU format reason.  This
    holds in particular for a community detected as condo-style, on
    which stage 6 nevertheless runs with the MDU rules. *)
Theorem majority_exclusion_only_for_declared_mdu df s bt :
  bt <> MDU ->
  let df2 := survivors2 df bt in
  mdu_format_flags (String.eqb bt MDU) df2 = [] /\
  non_majority_format_indices (String.eqb bt MDU) df2 = [] /\
  survivors3 df bt = df2 /\
  (let '(_, _, flagged) := process_roe_subname df s bt in
   forall e, In e flagged -> is_mdu_format_reason (reason e) = false) /\
  (is_condo_style df2 = true ->
   process_roe_subname df s bt =
     let '(keep, remove) :=
       street_dedup true df2 ([], early_removals df bt) in
     one_off df2
       (keep, remove,
        oversize_flags df2 ++
        minority_format_flags false (all_formats df2)
          (counter_of (all_formats df2)) df2 keep remove)).
Proof.
  intros H. cbv zeta.
  pose proof (not_mdu bt H) as M.
  pose proof (survivors3_not_mdu df bt H) as E3.
  split; [now rewrite M|]. split.
  { unfold non_majority_format_indices. now rewrite M. }
  split; [exact E3|]. split.
  - pose proof (engine_flags_origin df s bt) as O.
    destruct (process_roe_subname df s bt) as [[keep remove] flagged].
    intros e He. destruct (O e He) as [X|[X|[X|X]]].
    + now apply oversize_flags_spec in X.
    + rewrite M in X. destruct X.
    + apply minority_format_flags_spec in X. tauto.
    + tauto.
  - intros C. rewrite process_roe_subname_unfold.
    pose proof (condo_style_large _ C) as L2.
    destruct (len (survivors1 df) =? 0) eqn:L1.
    { apply length_zero_nil in L1.
      rewrite (survivors2_of_none df bt L1) in L2. discriminate. }
    rewrite L2. cbv zeta. rewrite E3, L2, M, C, mdu_format_flags_off.
    rewrite street_dedup_stage6, app_nil_r. reflexivity.
Qed.

Lemma majority_exclusion_only_for_declared_mdu_witness :
  "SFA" <> MDU /\
  is_condo_style (survivors2 condo_sfa "SFA") = true /\
  (let '(_, _, flagged) := process_roe_subname condo_sfa "Elm Court" "SFA" in
   forall e, In e flagged -> is_mdu_format_reason (reason e) = false) /\
  survivors3 condo_sfa "SFA" = survivors2 condo_sfa "SFA".
Proof.
  assert (H : "SFA" <> MDU) by discriminate.
  pose proof (majority_exclusion_only_for_declared_mdu
                condo_sfa "Elm Court" "SFA" H) as T.
  cbv zeta in T. destruct T as (_ & _ & T3 & T4 & _).
  split; [exact H|]. split; [reflexivity|]. split; [exact T4|exact T3].
Defined.

(** ** C9: the non-MDU minority pass finds nothing to flag *)

Lemma minority_format_flags_none is_mdu fs c rs keep remove :
  (forall r, In r rs -> In (idx r) keep \/ In (idx r) remove) ->
  minority_format_flags is_mdu fs c rs keep remove = [].
Proof.
  intros H. unfold minority_format_flags.
  destruct (negb is_mdu && _); [|reflexivity].
  destruct (first_max c) as [[m n]|]; [|reflexivity].
  destruct (_ <? _); [|reflexivity].
  induction rs as [|a rs IH]; [reflexivity|].
  cbn [flat_map]. rewrite IH by (intros; apply H; now right).
  destruct (H a (or_introl eq_refl)) as [K|R].
  - apply mem_In in K. now rewrite K.
  - apply mem_In in R. rewrite R. now rewrite andb_false_r.
Qed.

(** C9.  In a community that is not declared Residential - MDU and whose
    rows all have a street address, the loop over the street groups puts
    every row it receives into the keep list or the remove list; the
    minority-format pass that follows therefore returns no entry, and no
    flag entry of the result carries its reason. *)
Theorem minority_pass_unreachable df s bt :
  bt <> MDU ->
  (forall r, In r (rows df) -> street_address r <> None) ->
  let df2 := survivors2 df bt in
  let df3 := survivors3 df bt in
  let '(keep, remove) :=
    street_dedup (String.eqb bt MDU || is_condo_style df2) df3
                 ([], early_removals df bt) in
  (forall r, In r df3 -> In (idx r) keep \/ In (idx r) remove) /\
  minority_format_flags (String.eqb bt MDU) (all_formats df2)
    (counter_of (all_formats df2)) df3 keep remove = [] /\
  (let '(_, _, flagged) := process_roe_subname df s bt in
   forall e, In e flagged -> is_minority_reason (reason e) = false).
Proof.
  intros H St. cbv zeta. rewrite street_dedup_stage6.
  set (mdu_rules := String.eqb bt MDU || is_condo_style (survivors2 df bt)).
  assert (Cov : forall r, In r (survivors3 df bt) ->
            In (idx r) ([] ++ stage6_keep mdu_rules (survivors3 df bt)) \/
            In (idx r) (early_removals df bt
                        ++ stage6_remove mdu_rules (survivors3 df bt))).
  { intros r Hr.
    assert (Hs : street_address r <> None).
    { apply St. unfold survivors3, survivors2, survivors1 in Hr.
      repeat (apply drop_In in Hr as [Hr _]). exact Hr. }
    destruct (stage6_covers mdu_rules _ r Hr Hs) as [X|X]; [now left|].
    right. apply in_or_app. now right. }
  split; [exact Cov|].
  pose proof (minority_format_flags_none (String.eqb bt MDU)
                (all_formats (survivors2 df bt))
                (counter_of (all_formats (survivors2 df bt)))
                _ _ _ Cov) as Mn.
  split; [exact Mn|].
  pose proof (engine_flags_origin df s bt) as O.
  destruct (process_roe_subname df s bt) as [[keep remove] flagged].
  intros e He. destruct (O e He) as [X|[X|[X|X]]].
  - now apply oversize_flags_spec in X.
  - apply mdu_format_flags_spec in X. tauto.
  - fold mdu_rules in X. cbn [app] in Mn. rewrite Mn in X. destruct X.
  - tauto.
Qed.

Lemma minority_pass_unreachable_witness :
  "SFA" <> MDU /\
  (forall r, In r (rows sfa_pairs) -> street_address r <> None) /\
  (let '(_, _, flagged) := process_roe_subname sfa_pairs "Pine Row" "SFA" in
   forall e, In e flagged -> is_minority_reason (reason e) = false).
Proof.
  assert (H : "SFA" <> MDU) by discriminate.
  assert (St : forall r, In r (rows sfa_pairs) -> street_address r <> None).
  { intros r [<-|[<-|[<-|[<-|[]]]]]; discriminate. }
  pose proof (minority_pass_unreachable sfa_pairs "Pine Row" "SFA" H St) as T.
  cbv zeta in T.
  destruct (street_dedup _ _ _) as [keep remove] in T.
  destruct T as (_ & _ & T).
  split; [exact H|]. split; [exact St|exact T].
Defined.

(** ** C5: stage 6 on an SFA community with paired listings *)

Lemma contribution_sfa_both rs g :
  filter lacks_unit g <> [] -> filter has_unit g <> [] ->
  contribution false rs g =
  (index (filter lacks_unit g), index (filter has_unit g)).
Proof.
  unfold contribution, dedup_street.
  destruct (filter lacks_unit g); [congruence|].
  destruct (filter has_unit g); [congruence|]. reflexivity.
Qed.

Lemma filter_nonempty {A} (f : A -> bool) l x :
  In x l -> f x = true -> filter f l <> [].
Proof.
  intros H Hf E. assert (In x (filter f l)) by (apply filter_In; tauto).
  rewrite E in H0. destruct H0.
Qed.

(** The labels of the rows of [rs] that satisfy [f] and have a street
    address are those of the street groups taken together. *)
Lemma index_by_street (f : Row -> bool) rs i :
  (forall r, In r rs -> street_address r <> None) ->
  (In i (flat_map (fun s => index (filter f (street_group rs s)))
                  (street_list rs)) <->
   In i (index (filter f rs))).
Proof.
  intros St. rewrite in_flat_map. unfold index. split.
  - intros (s & _ & H). apply in_map_iff in H as (r & E & H).
    apply filter_In in H as [H F]. apply street_group_In in H as [H _].
    apply in_map_iff. exists r. split; [exact E|]. apply filter_In. tauto.
  - intros H. apply in_map_iff in H as (r & E & H).
    apply filter_In in H as [H F].
    destruct (street_address r) as [s|] eqn:Es; [|now apply St in H].
    exists s. split; [apply street_list_In; eauto|].
    apply in_map_iff. exists r. split; [exact E|].
    apply filter_In. split; [|exact F]. apply street_group_In. tauto.
Qed.

(** C5.  In a community that is not declared Residential - MDU and is
    not condo-style, where every street address is listed both without
    and with a unit, the street loop adds to the keep list exactly the
    labels of the rows without a unit and to the remove list exactly the
    labels of the rows with a unit. *)
Theorem sfa_dedup_keeps_bare_addresses rs bt keep0 remove0 :
  bt <> MDU ->
  is_condo_style rs = false ->
  (forall r, In r rs -> street_address r <> None) ->
  (forall r, In r rs ->
     exists a b, In a rs /\ In b rs /\
       street_address a = street_address r /\
       street_address b = street_address r /\
       lacks_unit a = true /\ has_unit b = true) ->
  let '(keep, remove) :=
    street_dedup (String.eqb bt MDU || is_condo_style rs) rs (keep0, remove0) in
  (forall i, In i keep <->
             In i keep0 \/ In i (index (filter lacks_unit rs))) /\
  (forall i, In i remove <->
             In i remove0 \/ In i (index (filter has_unit rs))).
Proof.
  intros M C St Both. rewrite (not_mdu bt M), C. cbn [orb].
  rewrite street_dedup_stage6. unfold stage6_keep, stage6_remove.
  assert (E : forall s, In s (street_list rs) ->
            contribution false rs (street_group rs s) =
            (index (filter lacks_unit (street_group rs s)),
             index (filter has_unit (street_group rs s)))).
  { intros s Hs. apply street_list_In in Hs as (r & Hr & Es).
    destruct (Both r Hr) as (a & b & Ha & Hb & Sa & Sb & La & Ub).
    apply contribution_sfa_both.
    - apply (filter_nonempty _ _ a); [|exact La].
      apply street_group_In. split; [exact Ha|congruence].
    - apply (filter_nonempty _ _ b); [|exact Ub].
      apply street_group_In. split; [exact Hb|congruence]. }
  rewrite (flat_map_ext_in
             (fun s => fst (contribution false rs (street_group rs s)))
             (fun s => index (filter lacks_unit (street_group rs s))))
    by (intros s Hs; now rewrite E).
  rewrite (flat_map_ext_in
             (fun s => snd (contribution false rs (street_group rs s)))
             (fun s => index (filter has_unit (street_group rs s))))
    by (intros s Hs; now rewrite E).
  split; intros i; rewrite in_app_iff, index_by_street by exact St; tauto.
Qed.

Lemma sfa_dedup_keeps_bare_addresses_witness :
  (let '(keep, remove) :=
     street_dedup (String.eqb "SFA" MDU || is_condo_style (rows sfa_pairs))
                  (rows sfa_pairs) ([], []) in
   (forall i, In i keep <->
              In i [] \/ In i (index (filter lacks_unit (rows sfa_pairs)))) /\
   (forall i, In i remove <->
              In i [] \/ In i (index (filter has_unit (rows sfa_pairs))))) /\
  street_dedup false (rows sfa_pairs) ([], []) = ([0; 3], [1; 2]).
Proof.
  split; [|reflexivity].
  apply (sfa_dedup_keeps_bare_addresses (rows sfa_pairs) "SFA" [] []).
  - discriminate.
  - reflexivity.
  - intros r [<-|[<-|[<-|[<-|[]]]]]; discriminate.
  - intros r [<-|[<-|[<-|[<-|[]]]]].
    + exists (sample_row 0 "5 PINE RD" None "SFA" "Pine Row"),
             (sample_row 1 "5 PINE RD" (Some "UNIT A") "SFA" "Pine Row").
      simpl. tauto.
    + exists (sample_row 0 "5 PINE RD" None "SFA" "Pine Row"),
             (sample_row 1 "5 PINE RD" (Some "UNIT A") "SFA" "Pine Row").
      simpl. tauto.
    + exists (sample_row 3 "7 PINE RD" None "SFA" "Pine Row"),
             (sample_row 2 "7 PINE RD" (Some "UNIT B") "SFA" "Pine Row").
      simpl. tauto.
    + exists (sample_row 3 "7 PINE RD" None "SFA" "Pine Row"),
             (sample_row 2 "7 PINE RD" (Some "UNIT B") "SFA" "Pine Row").
      simpl. tauto.
Defined.

(** ** C7: a community emptied by the early stages *)

(** The claim as written fails for the remove list: the lone leasing
    office of [office_only] is excluded by stage 1 and returned in it. *)
Lemma emptied_community_still_removes :
  survivors2 office_only MDU = [] /\
  process_roe_subname office_only "Oak Court" MDU = ([], [0], []) /\
  ~ (forall df s bt,
       survivors2 df bt = [] -> process_roe_subname df s bt = ([], [], [])).
Proof.
  split; [vm_compute; reflexivity|]. split; [vm_compute; reflexivity|].
  intros H. specialize (H office_only "Oak Court" MDU eq_refl).
  vm_compute in H. discriminate.
Qed.

Lemma plus4_of_none cols bt : plus4_anomaly_indices cols bt [] = [].
Proof. unfold plus4_anomaly_indices. now destruct (_ && _). Qed.

(** C7 (amended).  When no row survives the two early stages the engine
    returns at once with an empty keep list and no flag entry; its remove
    list holds the labels excluded by those stages, and these are the
    labels of all rows of the community. *)
Theorem emptied_community_returns_early df s bt :
  survivors2 df bt = [] ->
  process_roe_subname df s bt = ([], early_removals df bt, []) /\
  (forall r, In r (rows df) -> In (idx r) (early_removals df bt)).
Proof.
  intros E2. split.
  - rewrite process_roe_subname_unfold.
    destruct (len (survivors1 df) =? 0) eqn:L1.
    + apply length_zero_nil in L1. unfold early_removals.
      now rewrite L1, plus4_of_none, app_nil_r.
    + now rewrite E2.
  - intros r Hr. destruct (early_or_survivor df bt r Hr) as [H|H]; [exact H|].
    rewrite E2 in H. destruct H.
Qed.

Lemma emptied_community_returns_early_witness :
  survivors2 office_only MDU = [] /\
  process_roe_subname office_only "Oak Court" MDU
  = ([], early_removals office_only MDU, []) /\
  (forall r, In r (rows office_only) ->
             In (idx r) (early_removals office_only MDU)).
Proof.
  split; [vm_compute; reflexivity|].
  apply (emptied_community_returns_early office_only "Oak Court" MDU).
  vm_compute; reflexivity.
Defined.

(** ** C10: the one-off override can list a label twice *)

(** C10.  The override appends the label of the lone row to the remove
    list whatever that list holds.  In [lone_office], an MDU community of
    eleven units at one address and one bare address of its own, stage 6
    removes the bare address (11 of 12 rows have a unit) and the override
    appends it again: label 11 occurs twice in the returned remove list
    and its row twice in the Remove tab. *)
Theorem one_off_duplicates_removal :
  (forall r why keep remove flagged,
     snd (fst (force_remove r why (keep, remove, flagged)))
     = remove ++ [idx r]) /\
  (let '(keep, remove, flagged) :=
     process_roe_subname lone_office "Oak Court" MDU in
   count_occ Nat.eq_dec remove 11 = 2 /\
   ~ In 11 keep /\
   map (fun e => (flag_index e, reason e)) flagged = [(11, OneOffNoUnit 11)]) /\
  count_occ Nat.eq_dec (index (Remove (process lone_office))) 11 = 2 /\
  len (filter lacks_unit (rows lone_office)) = 1 /\
  len (filter has_unit (rows lone_office)) = 11.
Proof.
  split; [reflexivity|].
  split; [|split; [|split]]; vm_compute; try reflexivity.
  repeat split. intuition discriminate.
Qed.

(** ** C6: the postal-extension stage *)

(** The rule in the words of the claim: the trimmed extension is a
    5-digit number or is the postal code of the row, verbatim. *)
Definition claimed_postal_anomaly
    (cols : list string) (bt : string) (r : Row) : Prop :=
  In bt ["HOA"; MDU; "SFA"] /\ In "Plus 4 Code" cols /\
  exists p, plus4_code r = Some p /\
    ((String.length (PyStr.strip p) = 5 /\ PyStr.isdigit (PyStr.strip p) = true)
     \/ zip r = Some (PyStr.strip p)).

(** The rule as the source applies it: the comparison is with the
    trimmed postal code. *)
Definition postal_anomaly
    (cols : list string) (bt : string) (r : Row) : Prop :=
  In bt ["HOA"; MDU; "SFA"] /\ In "Plus 4 Code" cols /\
  exists p, plus4_code r = Some p /\
    ((String.length (PyStr.strip p) = 5 /\ PyStr.isdigit (PyStr.strip p) = true)
     \/ exists z, zip r = Some z /\ PyStr.strip p = PyStr.strip z).

(** The claim as written fails on two rows of an SFA community: a blank
    extension on a row without postal code, and an extension equal to
    the postal code up to surrounding whitespace.  Both are removed. *)
Lemma postal_rule_not_verbatim :
  (In (idx (postal_row 0 None (Some " ")))
      (plus4_anomaly_indices postal_columns "SFA"
         [postal_row 0 None (Some " ")]) /\
   ~ claimed_postal_anomaly postal_columns "SFA"
       (postal_row 0 None (Some " "))) /\
  (In (idx (postal_row 1 (Some " 1234") (Some "1234")))
      (plus4_anomaly_indices postal_columns "SFA"
         [postal_row 1 (Some " 1234") (Some "1234")]) /\
   ~ claimed_postal_anomaly postal_columns "SFA"
       (postal_row 1 (Some " 1234") (Some "1234"))).
Proof.
  split; (split; [vm_compute; tauto|]);
    intros (_ & _ & p & Ep & [[L _]|Z]);
    simpl in Ep; injection Ep as <-; vm_compute in *; discriminate.
Qed.

Lemma existsb_eqb_In s l : existsb (String.eqb s) l = true <-> In s l.
Proof.
  rewrite existsb_exists. split.
  - intros (x & Hx & E). apply String.eqb_eq in E. now subst.
  - intros H. exists s. split; [exact H|apply String.eqb_refl].
Qed.

Lemma plus4_is_anomaly_spec p z :
  plus4_is_anomaly p z = true <->
  (String.length (PyStr.strip p) = 5 /\ PyStr.isdigit (PyStr.strip p) = true)
  \/ PyStr.strip p = match z with Some z' => PyStr.strip z' | None => "" end.
Proof.
  unfold plus4_is_anomaly.
  now rewrite orb_true_iff, andb_true_iff, Nat.eqb_eq, String.eqb_eq.
Qed.

Lemma plus4_indices_spec cols bt rs r :
  NoDup (index rs) -> In r rs ->
  (In (idx r) (plus4_anomaly_indices cols bt rs) <->
   In bt ["HOA"; MDU; "SFA"] /\ In "Plus 4 Code" cols /\
   plus4_row_anomaly r = true).
Proof.
  intros ND Hr. unfold plus4_anomaly_indices.
  destruct (existsb (String.eqb bt) ["HOA"; MDU; "SFA"]
            && existsb (String.eqb "Plus 4 Code") cols) eqn:G.
  - apply andb_true_iff in G as [G1 G2].
    apply existsb_eqb_In in G1, G2. unfold index. rewrite in_map_iff. split.
    + intros (r' & E & H). apply filter_In in H as [H F].
      assert (r' = r) by (eapply index_inj; eauto). subst. tauto.
    + intros (_ & _ & F). exists r. split; [reflexivity|].
      apply filter_In. tauto.
  - split; [intros []|]. intros (G1 & G2 & _).
    apply existsb_eqb_In in G1, G2. rewrite G1, G2 in G. discriminate.
Qed.

(** C6 (amended).  On a row that has a postal code or whose trimmed
    extension is not empty, the stage removes the row exactly when the
    building type is HOA, Residential - MDU or SFA, the frame has the
    extension column, the extension is present, and its trimmed text is
    a 5-digit number or equals the trimmed postal code.  A row removed
    by the stage is in the remove list of the result, not in the keep
    list, and no flag entry names it.  For any other building type the
    stage removes nothing. *)
Theorem postal_extension_rule df s bt r :
  NoDup (index (rows df)) ->
  In r (survivors1 df) ->
  (zip r <> None \/
   forall p, plus4_code r = Some p -> PyStr.strip p <> "") ->
  let removed_here :=
    In (idx r) (plus4_anomaly_indices (columns df) bt (survivors1 df)) in
  (removed_here <-> postal_anomaly (columns df) bt r) /\
  (removed_here ->
   let '(keep, remove, flagged) := process_roe_subname df s bt in
   In (idx r) remove /\ ~ In (idx r) keep /\
   forall e, In e flagged -> flag_index e <> idx r) /\
  (~ In bt ["HOA"; MDU; "SFA"] ->
   plus4_anomaly_indices (columns df) bt (survivors1 df) = []).
Proof.
  intros ND Hr Hz. cbv zeta.
  assert (ND1 : NoDup (index (survivors1 df)))
    by (apply NoDup_index_filter, ND).
  split; [|split].
  - rewrite (plus4_indices_spec _ _ _ _ ND1 Hr). unfold postal_anomaly.
    unfold plus4_row_anomaly.
    split; intros (G1 & G2 & H); (split; [exact G1|split; [exact G2|]]).
    + destruct (plus4_code r) as [p|] eqn:Ep; [|discriminate].
      exists p. split; [reflexivity|].
      apply plus4_is_anomaly_spec in H as [H|H]; [tauto|].
      destruct (zip r) as [z|]; [right; eauto|].
      destruct Hz as [Hz|Hz]; [congruence|]. now apply Hz in H.
    + destruct H as (p & -> & H). apply plus4_is_anomaly_spec.
      destruct H as [H|(z & -> & H)]; tauto.
  - intros Rm.
    assert (N1 : survivors1 df <> []) by (intros E; rewrite E in Hr; destruct Hr).
    assert (Er : In (idx r) (early_removals df bt))
      by (apply in_or_app; now right).
    pose proof (early_removals_kept df s bt (idx r) N1 Er) as Kp.
    pose proof (engine_partition df s bt ND) as P.
    pose proof (engine_flags_survivors df s bt) as F.
    destruct (process_roe_subname df s bt) as [[keep remove] flagged].
    cbn [fst snd] in Kp. destruct P as ([_ Dj] & _).
    split; [exact Kp|]. split; [intros K; eapply Dj; eauto|].
    intros e He E. apply F in He. rewrite E in He.
    eapply early_removals_gone; eauto.
  - intros G. unfold plus4_anomaly_indices.
    destruct (existsb (String.eqb bt) ["HOA"; MDU; "SFA"]) eqn:X;
      [|reflexivity].
    apply existsb_eqb_In in X. contradiction.
Qed.

(** A community with postal columns: a 5-digit extension, an extension
    that repeats the postal code, and a regular row. *)
Definition postal_samples : DataFrame :=
  mkDF postal_columns
       [postal_row 0 (Some "30301") (Some "12345");
        postal_row 1 (Some "30301") (Some "30301 ");
        postal_row 2 (Some "30301") (Some "1234")].

Lemma postal_extension_rule_witness :
  NoDup (index (rows postal_samples)) /\
  In (postal_row 0 (Some "30301") (Some "12345")) (survivors1 postal_samples) /\
  (In 0 (plus4_anomaly_indices postal_columns "SFA" (survivors1 postal_samples))
   <-> postal_anomaly postal_columns "SFA"
         (postal_row 0 (Some "30301") (Some "12345"))) /\
  process_roe_subname postal_samples "Pine Row" "SFA" = ([2], [0; 1], []).
Proof.
  assert (ND : NoDup (index (rows postal_samples))).
  { repeat constructor; simpl; intuition discriminate. }
  assert (Hr : In (postal_row 0 (Some "30301") (Some "12345"))
                  (survivors1 postal_samples)) by (vm_compute; tauto).
  assert (Hz : zip (postal_row 0 (Some "30301") (Some "12345")) <> None \/
               forall p, plus4_code (postal_row 0 (Some "30301") (Some "12345"))
                         = Some p -> PyStr.strip p <> "")
    by (left; discriminate).
  pose proof (postal_extension_rule postal_samples "Pine Row" "SFA" _ ND Hr Hz)
    as T.
  cbv zeta in T. destruct T as (T1 & _).
  split; [exact ND|]. split; [exact Hr|]. split; [exact T1|].
  vm_compute. reflexivity.
Defined.

(** ** C8: spacers and unit counts of the ROE tab *)

(** *** The order of strings *)

Lemma string_leb_iff a b :
  String.leb a b = true <-> a = b \/ OrderedTypeEx.String_as_OT.lt a b.
Proof.
  unfold String.leb.
  destruct (String.compare a b) eqn:C; split; try tauto; try discriminate.
  - intros _. left. now apply OrderedTypeEx.String_as_OT.cmp_eq.
  - intros _. right. now apply OrderedTypeEx.String_as_OT.cmp_lt.
  - intros [E|L].
    + apply OrderedTypeEx.String_as_OT.cmp_eq in E.
      unfold OrderedTypeEx.String_as_OT.cmp in E. congruence.
    + apply OrderedTypeEx.String_as_OT.cmp_lt in L.
      unfold OrderedTypeEx.String_as_OT.cmp in L. congruence.
Qed.

Lemma string_leb_refl a : String.leb a a = true.
Proof. apply string_leb_iff. now left. Qed.

Lemma string_leb_trans a b c :
  String.leb a b = true -> String.leb b c = true -> String.leb a c = true.
Proof.
  rewrite !string_leb_iff. intros [->|L1] [->|L2]; auto.
  right. eapply OrderedTypeEx.String_as_OT.lt_trans; eauto.
Qed.

(** *** The sort is sorted *)

Lemma insert_by_sorted {A} (leb : A -> A -> bool) (R : A -> A -> Prop) :
  (forall a b, leb a b = true -> R a b) ->
  (forall a b, leb a b = false -> R b a) ->
  (forall a b c, R a b -> R b c -> R a c) ->
  forall k l, StronglySorted R l -> StronglySorted R (insert_by leb k l).
Proof.
  intros Ht Hf Tr k l. induction 1 as [|x t St IH Fx]; simpl.
  - repeat constructor.
  - destruct (leb k x) eqn:E.
    + constructor; [now constructor|].
      constructor; [now apply Ht|].
      eapply Forall_impl; [|exact Fx]. intros y Hy. eapply Tr; eauto.
    + constructor; [exact IH|].
      apply Forall_forall. intros y Hy.
      apply (Permutation_in _ (insert_by_perm leb k t)) in Hy.
      destruct Hy as [<-|Hy]; [now apply Hf|].
      rewrite Forall_forall in Fx. now apply Fx.
Qed.

Lemma sort_by_sorted {A} (leb : A -> A -> bool) (R : A -> A -> Prop) :
  (forall a b, leb a b = true -> R a b) ->
  (forall a b, leb a b = false -> R b a) ->
  (forall a b c, R a b -> R b c -> R a c) ->
  forall l, StronglySorted R (sort_by leb l).
Proof.
  intros Ht Hf Tr l. induction l as [|x t IH]; simpl; [constructor|].
  now apply insert_by_sorted.
Qed.

(** Ascending community names. *)
Definition by_subname (a b : Row) : Prop :=
  String.leb (subname a) (subname b) = true.

Lemma sort_roe_sorted cols rs : StronglySorted by_subname (sort_roe cols rs).
Proof.
  unfold sort_roe, sort_values.
  destruct (existsb _ cols); apply sort_by_sorted; unfold by_subname;
    try (intros a b c; apply string_leb_trans);
    intros a b; cbn [cells_leb cell_eqb cell_leb];
    destruct (String.eqb_spec (subname a) (subname b)) as [->|N];
    intros H; try apply string_leb_refl; try exact H;
    destruct (String.leb_total (subname a) (subname b)); congruence.
Qed.

(** *** Runs of one community name *)

Definition block_name (b : list Row) : string :=
  match b with
  | r :: _ => subname r
  | [] => ""
  end.

(** The maximal runs of consecutive rows with one community name. *)
Fixpoint runs (rs : list Row) : list (list Row) :=
  match rs with
  | [] => []
  | r :: t =>
      match runs t with
      | b :: bs =>
          if String.eqb (subname r) (block_name b)
          then (r :: b) :: bs
          else [r] :: b :: bs
      | [] => [[r]]
      end
  end.

Definition uniform (b : list Row) : Prop :=
  b <> [] /\ forall r, In r b -> subname r = block_name b.

Lemma runs_concat rs : List.concat (runs rs) = rs.
Proof.
  induction rs as [|r t IH]; simpl; [reflexivity|].
  destruct (runs t) as [|b bs]; simpl in *; [now rewrite <- IH|].
  destruct (String.eqb _ _); simpl; now rewrite <- IH.
Qed.

Lemma runs_uniform rs : Forall uniform (runs rs).
Proof.
  induction rs as [|r t IH]; simpl; [constructor|].
  destruct (runs t) as [|b bs].
  - repeat constructor; [discriminate|]. intros x [<-|[]]. reflexivity.
  - inversion IH as [|? ? [Nb Ub] Hbs]; subst.
    destruct (String.eqb_spec (subname r) (block_name b)) as [E|N].
    + constructor; [|exact Hbs]. split; [discriminate|].
      intros x [<-|Hx]; [reflexivity|]. simpl. rewrite E. now apply Ub.
    + constructor; [|exact IH]. split; [discriminate|].
      intros x [<-|[]]. reflexivity.
Qed.

Lemma runs_head r t :
  exists b bs, runs (r :: t) = b :: bs /\ block_name b = subname r.
Proof.
  simpl. destruct (runs t) as [|b bs]; [eauto|].
  destruct (String.eqb _ _); eauto.
Qed.

Lemma runs_names rs b :
  In b (runs rs) -> exists r, In r rs /\ block_name b = subname r.
Proof.
  intros H. pose proof (runs_uniform rs) as U.
  rewrite Forall_forall in U. destruct (U b H) as [Nb _].
  destruct b as [|r b']; [congruence|]. exists r. split; [|reflexivity].
  rewrite <- (runs_concat rs). apply in_concat. exists (r :: b').
  split; [exact H|now left].
Qed.

Lemma runs_names_NoDup rs :
  StronglySorted by_subname rs -> NoDup (map block_name (runs rs)).
Proof.
  induction 1 as [|r t St IH Fr]; [constructor|].
  cbn [runs]. destruct (runs t) as [|b bs] eqn:E.
  { repeat constructor. intros []. }
  destruct (String.eqb_spec (subname r) (block_name b)) as [Eq|Neq].
  { cbn [map block_name] in *. now rewrite Eq. }
  cbn [map]. constructor; [|exact IH].
  change (~ In (block_name [r]) (map block_name (b :: bs))).
  rewrite <- E. intros Hin. apply in_map_iff in Hin as (b' & Eb & Hb).
  apply runs_names in Hb as (y & Hy & Ey).
  destruct t as [|r' t']; [destruct Hy|].
  destruct (runs_head r' t') as (b0 & bs0 & E0 & N0).
  rewrite E in E0. injection E0 as <- <-.
  assert (S1 : String.leb (subname r) (subname r') = true).
  { rewrite Forall_forall in Fr. apply Fr. now left. }
  assert (S2 : String.leb (subname r') (subname y) = true).
  { destruct Hy as [<-|Hy]; [apply string_leb_refl|].
    apply StronglySorted_inv in St as [_ F'].
    rewrite Forall_forall in F'. now apply F'. }
  simpl in Eb. rewrite <- Ey, Eb in S2.
  apply Neq. rewrite N0. now apply String.leb_antisym.
Qed.

(** *** The layout the claim describes *)

(** The rows of one community: the first carries the number of its
    rows, the others no count. *)
Definition block_rows (b : list Row) : list RoeRow :=
  match b with
  | [] => []
  | r :: t => Entry (Some (len b)) r :: map (Entry None) t
  end.

(** The communities in turn, one spacer before each but the first. *)
Definition spaced (blocks : list (list Row)) : list RoeRow :=
  match blocks with
  | [] => []
  | b :: rest =>
      block_rows b ++ flat_map (fun b' => Spacer :: block_rows b') rest
  end.

Lemma spacing_rest counts s b acc :
  (forall r, In r b -> subname r = s) ->
  fold_left (spacing_step counts) b (acc, Some s, false) =
  (acc ++ map (Entry None) b, Some s, false).
Proof.
  revert acc. induction b as [|r t IH]; intros acc H; cbn [fold_left map].
  - now rewrite app_nil_r.
  - unfold spacing_step at 2. rewrite (H r) by now left.
    rewrite String.eqb_refl. cbn [negb].
    rewrite IH by (intros; apply H; now right).
    now rewrite <- app_assoc.
Qed.

Lemma spacing_first counts b acc :
  uniform b -> counts (block_name b) = Some (len b) ->
  fold_left (spacing_step counts) b (acc, None, true) =
  (acc ++ block_rows b, Some (block_name b), false).
Proof.
  intros [Nb Ub] Hc. destruct b as [|r t]; [congruence|].
  cbn [fold_left block_rows]. unfold spacing_step at 2.
  cbn [block_name] in *. rewrite Hc.
  rewrite spacing_rest by (intros; apply Ub; now right).
  now rewrite <- app_assoc.
Qed.

Lemma spacing_next counts p b acc :
  uniform b -> p <> block_name b -> counts (block_name b) = Some (len b) ->
  fold_left (spacing_step counts) b (acc, Some p, false) =
  (acc ++ Spacer :: block_rows b, Some (block_name b), false).
Proof.
  intros [Nb Ub] Np Hc. destruct b as [|r t]; [congruence|].
  cbn [fold_left block_rows]. unfold spacing_step at 2.
  cbn [block_name] in *.
  destruct (String.eqb_spec (subname r) p) as [E|_]; [congruence|].
  cbn [negb]. rewrite Hc.
  rewrite spacing_rest by (intros; apply Ub; now right).
  now rewrite <- !app_assoc.
Qed.

Lemma spacing_blocks counts blocks p acc :
  Forall uniform blocks ->
  NoDup (p :: map block_name blocks) ->
  (forall b, In b blocks -> counts (block_name b) = Some (len b)) ->
  exists q,
    fold_left (spacing_step counts) (List.concat blocks) (acc, Some p, false) =
    (acc ++ flat_map (fun b => Spacer :: block_rows b) blocks, Some q, false).
Proof.
  revert p acc. induction blocks as [|b bs IH]; intros p acc U ND Hc.
  - exists p. simpl. now rewrite app_nil_r.
  - inversion U as [|? ? Ub Ubs]; subst.
    cbn [List.concat flat_map map] in *.
    inversion ND as [|? ? Np ND']; subst.
    rewrite fold_left_app, spacing_next; auto.
    + destruct (IH (block_name b) (acc ++ Spacer :: block_rows b) Ubs ND')
        as [q Eq]; [intros; apply Hc; now right|].
      exists q. rewrite Eq. now rewrite <- app_assoc.
    + intros ->. apply Np. now left.
    + apply Hc. now left.
Qed.

Lemma filter_all {A} (f : A -> bool) l :
  (forall x, In x l -> f x = true) -> filter f l = l.
Proof.
  induction l as [|a l IH]; simpl; intros H; [reflexivity|].
  rewrite (H a) by now left. rewrite IH; [reflexivity|].
  intros; apply H; now right.
Qed.

Lemma filter_none {A} (f : A -> bool) l :
  (forall x, In x l -> f x = false) -> filter f l = [].
Proof.
  induction l as [|a l IH]; simpl; intros H; [reflexivity|].
  rewrite (H a) by now left. apply IH. intros; apply H; now right.
Qed.

(** The rows of one name in a table made of uniform blocks. *)
Lemma named_rows_outside s blocks :
  Forall uniform blocks -> ~ In s (map block_name blocks) ->
  filter (fun r => String.eqb (subname r) s) (List.concat blocks) = [].
Proof.
  intros U Hs. apply filter_none. intros r Hr.
  apply in_concat in Hr as (b & Hb & Hr).
  rewrite Forall_forall in U. destruct (U b Hb) as [_ Ub].
  apply String.eqb_neq. intros E. apply Hs.
  apply in_map_iff. exists b. split; [|exact Hb]. rewrite <- E. symmetry.
  now apply Ub.
Qed.

Lemma named_rows_of_block blocks b :
  Forall uniform blocks -> NoDup (map block_name blocks) -> In b blocks ->
  len (filter (fun r => String.eqb (subname r) (block_name b))
              (List.concat blocks)) = len b.
Proof.
  induction blocks as [|b0 bs IH]; intros U ND Hb; [destruct Hb|].
  inversion U as [|? ? [N0 U0] Ubs]; subst.
  inversion ND as [|? ? Hn ND']; subst.
  cbn [List.concat]. rewrite filter_app, length_app.
  destruct Hb as [->|Hb].
  - rewrite filter_all.
    + rewrite named_rows_outside by assumption. simpl. lia.
    + intros r Hr. apply String.eqb_eq. now apply U0.
  - rewrite filter_none.
    + now rewrite IH.
    + intros r Hr. apply String.eqb_neq. rewrite (U0 r Hr).
      intros E. apply Hn. rewrite E. now apply in_map.
Qed.

Lemma subname_counts_of_block blocks b :
  Forall uniform blocks -> NoDup (map block_name blocks) -> In b blocks ->
  subname_counts (List.concat blocks) (block_name b) = Some (len b).
Proof.
  intros U ND Hb. unfold subname_counts.
  rewrite named_rows_of_block by assumption.
  rewrite Forall_forall in U. destruct (U b Hb) as [Nb _].
  destruct b; [congruence|reflexivity].
Qed.

(** [add_spacing_to_roe] on a table laid out in blocks of distinct
    community names. *)
Lemma add_spacing_blocks blocks :
  Forall uniform blocks -> NoDup (map block_name blocks) ->
  add_spacing_to_roe (List.concat blocks) = spaced blocks.
Proof.
  intros U ND. destruct blocks as [|b bs]; [reflexivity|].
  pose proof (subname_counts_of_block (b :: bs) b U ND (or_introl eq_refl)) as Hb.
  assert (Hbs : forall b', In b' bs ->
            subname_counts (List.concat (b :: bs)) (block_name b')
            = Some (len b'))
    by (intros; apply subname_counts_of_block; auto; now right).
  inversion U as [|? ? Ub Ubs]; subst.
  unfold add_spacing_to_roe, spaced.
  destruct (List.concat (b :: bs)) as [|r0 t0] eqn:E.
  { destruct Ub as [Nb _]. destruct b; [congruence|discriminate]. }
  rewrite <- E in *. cbn [List.concat] in *.
  rewrite fold_left_app, spacing_first by assumption.
  destruct (spacing_blocks (subname_counts (b ++ List.concat bs)) bs
              (block_name b) ([] ++ block_rows b) Ubs ND Hbs) as [q Eq].
  rewrite Eq. reflexivity.
Qed.

(** Twelve units of an MDU building and five houses of an HOA that
    carry the same community name. *)
Definition shared_name : DataFrame :=
  mkDF base_columns
       (unit_rows 12 0 "1 MAIN ST" MDU "Beta"
        ++ bare_houses 5 12 "HOA" "Beta").

(** The first entry of the tab whose record belongs to the community
    [k] (community name and building type), with its unit count. *)
Definition first_row_of (k : string * string) (l : list RoeRow)
    : option (option nat * Row) :=
  match filter (fun r => in_community k r) (roe_records l) with
  | [] => None
  | r :: _ =>
      match find (fun e => match e with
                           | Entry _ r' => idx r' =? idx r
                           | Spacer => false
                           end) l with
      | Some (Entry c r') => Some (c, r')
      | _ => None
      end
  end.

(** The claim as written, for communities in the sense of the grouping
    (name and building type), fails on [shared_name]: both communities
    are kept whole, 12 and 5 records, yet the tab has no blank row, its
    first row carries 17 and the first HOA row carries no count. *)
Lemma shared_name_shares_count_and_block :
  (let '(keep, _, _) :=
     roe_decisions base_columns (roe_candidates (rows shared_name)) in
   len keep = 17) /\
  map (fun g => (fst g, len (snd g)))
      (groupby_community (roe_candidates (rows shared_name)))
  = [(("Beta", "HOA"), 5); (("Beta", MDU), 12)] /\
  filter is_spacer_row (ROE (process shared_name)) = [] /\
  option_map fst (first_row_of ("Beta", MDU) (ROE (process shared_name)))
  = Some (Some 17) /\
  option_map fst (first_row_of ("Beta", "HOA") (ROE (process shared_name)))
  = Some None /\
  ~ (forall df k,
       let kept := filter (fun r => in_community k r)
                          (roe_records (ROE (process df))) in
       kept <> [] ->
       option_map fst (first_row_of k (ROE (process df)))
       = Some (Some (len kept))).
Proof.
  split; [vm_compute; reflexivity|]. split; [vm_compute; reflexivity|].
  split; [vm_compute; reflexivity|]. split; [vm_compute; reflexivity|].
  split; [vm_compute; reflexivity|].
  intros H. specialize (H shared_name ("Beta", "HOA")). cbv zeta in H.
  assert (N : filter (fun r => in_community ("Beta", "HOA") r)
                     (roe_records (ROE (process shared_name))) <> [])
    by (vm_compute; discriminate).
  specialize (H N). vm_compute in H. discriminate.
Qed.

(** C8 (amended).  The spacing pass works per community name: the ROE
    tab is sorted by community name first, so it is the concatenation
    of its runs, one per community name, each non-empty and of one name,
    the names pairwise distinct.  [add_spacing_to_roe] turns it into:
    the rows of the first run, then for each further run one spacer
    followed by its rows, where the first row of a run carries the
    number of rows of the run (the count of the name in the tab before
    any spacer is inserted, all building types together) and the other
    rows carry no count.  For a run of 12 rows the first row carries
    12. *)
Theorem roe_spacing_and_counts cols rs :
  let roe := sort_roe cols rs in
  let blocks := runs roe in
  List.concat blocks = roe /\
  Forall uniform blocks /\
  NoDup (map block_name blocks) /\
  add_spacing_to_roe roe = spaced blocks /\
  (forall b, In b blocks ->
     exists r t, b = r :: t /\
       block_rows b = Entry (Some (len b)) r :: map (Entry None) t /\
       subname_counts roe (subname r) = Some (len b)) /\
  (forall b r t, In b blocks -> b = r :: t -> len b = 12 ->
     block_rows b = Entry (Some 12) r :: map (Entry None) t).
Proof.
  cbv zeta.
  pose proof (runs_concat (sort_roe cols rs)) as C.
  pose proof (runs_uniform (sort_roe cols rs)) as U.
  pose proof (runs_names_NoDup _ (sort_roe_sorted cols rs)) as ND.
  split; [exact C|]. split; [exact U|]. split; [exact ND|]. split; [|split].
  - rewrite <- C at 1. now apply add_spacing_blocks.
  - intros b Hb. pose proof (subname_counts_of_block _ b U ND Hb) as Hc.
    rewrite C in Hc. rewrite Forall_forall in U. destruct (U b Hb) as [Nb _].
    destruct b as [|r t]; [congruence|]. exists r, t. auto.
  - intros b r t _ -> L. unfold block_rows. now rewrite L.
Qed.

Example spacing_of_twelve :
  let roe := unit_rows 12 0 "1 MAIN ST" MDU "Oak Court"
             ++ [sample_row 12 "5 PINE RD" None "SFA" "Pine Row"] in
  map (fun e => match e with
                | Spacer => None
                | Entry c r => Some (c, idx r)
                end)
      (add_spacing_to_roe (sort_roe base_columns roe))
  = [Some (Some 12, 0); Some (None, 1); Some (None, 2); Some (None, 3);
     Some (None, 4); Some (None, 5); Some (None, 6); Some (None, 7);
     Some (None, 8); Some (None, 9); Some (None, 10); Some (None, 11);
     None; Some (Some 1, 12)].
Proof. vm_compute. reflexivity. Qed.

(** ** C2: the routing of all records *)

(** *** The tabs hold the rows they are built from *)

Lemma roe_records_app a b : roe_records (a ++ b) = roe_records a ++ roe_records b.
Proof. apply flat_map_app. Qed.

Lemma spacing_keeps_records counts l acc p f :
  roe_records (fst (fst (fold_left (spacing_step counts) l (acc, p, f)))) =
  roe_records acc ++ l.
Proof.
  revert acc p f. induction l as [|r t IH]; intros acc p f; cbn [fold_left].
  - cbn [fst]. now rewrite app_nil_r.
  - unfold spacing_step at 2.
    destruct p as [p|];
      [destruct (negb (String.eqb (subname r) p))|];
      match goal with
      | |- context [match ?c with Some _ => _ | None => _ end] => destruct c
      end; rewrite IH, !roe_records_app; cbn [roe_records flat_map app];
      rewrite ?app_nil_r, <- ?app_assoc; reflexivity.
Qed.

Lemma roe_records_spacing l : roe_records (add_spacing_to_roe l) = l.
Proof.
  unfold add_spacing_to_roe. destruct l as [|r t]; [reflexivity|].
  now rewrite spacing_keeps_records.
Qed.

Lemma loc_index labels rs i :
  In i (index (loc labels rs)) <-> In i labels /\ In i (index rs).
Proof.
  unfold loc, index. rewrite !in_map_iff. split.
  - intros (r & E & H). apply in_flat_map in H as (j & Hj & H).
    apply filter_In in H as [H F]. apply Nat.eqb_eq in F. subst.
    split; [congruence|]. exists r. tauto.
  - intros (Hl & r & E & H). exists r. split; [exact E|].
    apply in_flat_map. exists i. split; [exact Hl|].
    apply filter_In. split; [exact H|]. now apply Nat.eqb_eq.
Qed.

Lemma sort_roe_perm cols rs : Permutation (sort_roe cols rs) rs.
Proof.
  unfold sort_roe, sort_values. destruct (existsb _ cols); apply sort_by_perm.
Qed.

Lemma NoDup_loc labels rs :
  NoDup labels -> NoDup (index rs) -> NoDup (index (loc labels rs)).
Proof.
  intros Nl Nr. unfold loc, index. rewrite flat_map_concat_map.
  rewrite concat_map, map_map, <- flat_map_concat_map.
  apply NoDup_flat_map; [exact Nl| |].
  - intros i _. apply (NoDup_index_filter _ rs Nr).
  - intros a b x _ _ Ha Hb.
    apply in_map_iff in Ha as (r1 & E1 & H1), Hb as (r2 & E2 & H2).
    apply filter_In in H1 as [_ F1], H2 as [_ F2].
    apply Nat.eqb_eq in F1, F2. congruence.
Qed.

(** *** The communities *)

Definition community_list (candidates : list Row) : list (string * string) :=
  sort_by community_leb (nodup community_eq_dec (map community_key candidates)).

(** The frame handed to the engine for the community [k]. *)
Definition community_frame (cols : list string) (candidates : list Row)
    (k : string * string) : DataFrame :=
  mkDF cols (order_community cols (fst k) (filter (in_community k) candidates)).

Definition community_result (cols : list string) (candidates : list Row)
    (k : string * string) : list nat * list nat * list FlagEntry :=
  process_roe_subname (community_frame cols candidates k) (fst k) (snd k).

Lemma dedup_community_step cols cands K R F k :
  dedup_community cols (K, R, F) (k, filter (in_community k) cands) =
  (K ++ fst (fst (community_result cols cands k)),
   R ++ snd (fst (community_result cols cands k)),
   F ++ snd (community_result cols cands k)).
Proof.
  unfold dedup_community, community_result, community_frame.
  destruct k as [s b]. cbn [fst snd].
  destruct (process_roe_subname _ s b) as [[kp rm] fl]. reflexivity.
Qed.

Lemma fold_dedup_community cols cands keys K R F :
  fold_left (dedup_community cols)
            (map (fun k => (k, filter (in_community k) cands)) keys) (K, R, F) =
  (K ++ flat_map (fun k => fst (fst (community_result cols cands k))) keys,
   R ++ flat_map (fun k => snd (fst (community_result cols cands k))) keys,
   F ++ flat_map (fun k => snd (community_result cols cands k)) keys).
Proof.
  revert K R F.
  induction keys as [|k keys IH]; intros K R F; cbn [map fold_left flat_map].
  - now rewrite !app_nil_r.
  - rewrite dedup_community_step, IH. now rewrite <- !app_assoc.
Qed.

Lemma roe_decisions_eq cols cands :
  roe_decisions cols cands =
  (flat_map (fun k => fst (fst (community_result cols cands k)))
            (community_list cands),
   flat_map (fun k => snd (fst (community_result cols cands k)))
            (community_list cands),
   flat_map (fun k => snd (community_result cols cands k))
            (community_list cands)).
Proof.
  unfold roe_decisions, groupby_community. apply fold_dedup_community.
Qed.

Lemma community_list_NoDup cands : NoDup (community_list cands).
Proof.
  unfold community_list.
  eapply Permutation_NoDup; [symmetry; apply sort_by_perm|apply NoDup_nodup].
Qed.

Lemma community_list_In cands r :
  In r cands -> In (community_key r) (community_list cands).
Proof.
  intros H. unfold community_list. apply sort_by_In, nodup_In.
  now apply in_map.
Qed.

Lemma in_community_iff k r : in_community k r = true <-> community_key r = k.
Proof.
  unfold in_community, community_key. destruct k as [s b]; simpl.
  rewrite andb_true_iff, !String.eqb_eq. split.
  - intros [-> ->]. reflexivity.
  - intros E. injection E. auto.
Qed.

Lemma order_community_perm cols s rs : Permutation (order_community cols s rs) rs.
Proof.
  unfold order_community, sort_values.
  destruct (String.eqb s _); [|reflexivity].
  destruct (existsb _ cols); apply sort_by_perm.
Qed.

Lemma community_frame_In cols cands k r :
  In r (rows (community_frame cols cands k)) <->
  In r cands /\ community_key r = k.
Proof.
  cbn [community_frame rows]. rewrite <- in_community_iff, <- filter_In.
  split; apply Permutation_in; [|symmetry]; apply order_community_perm.
Qed.

Lemma community_frame_NoDup cols cands k :
  NoDup (index cands) -> NoDup (index (rows (community_frame cols cands k))).
Proof.
  intros H. cbn [community_frame rows]. unfold index.
  eapply Permutation_NoDup.
  - symmetry. apply Permutation_map, order_community_perm.
  - apply (NoDup_index_filter _ cands H).
Qed.

Lemma community_of_label cols cands k1 k2 i :
  NoDup (index cands) ->
  In i (index (rows (community_frame cols cands k1))) ->
  In i (index (rows (community_frame cols cands k2))) ->
  k1 = k2.
Proof.
  unfold index at 2 3. rewrite !in_map_iff.
  intros H (r1 & E1 & H1) (r2 & E2 & H2).
  apply community_frame_In in H1 as [I1 K1], H2 as [I2 K2].
  assert (r1 = r2) by (eapply index_inj; eauto; congruence). subst.
  congruence.
Qed.

Lemma community_partition cols cands k :
  NoDup (index cands) ->
  let frame := rows (community_frame cols cands k) in
  let res := community_result cols cands k in
  clean (fst (fst res)) (snd (fst res)) /\
  (forall i, In i (fst (fst res)) \/ In i (snd (fst res)) -> In i (index frame)) /\
  (forall i, excluded_by_format (snd res) i ->
     snd k = MDU /\ In i (index frame) /\
     ~ In i (fst (fst res)) /\ ~ In i (snd (fst res))) /\
  (forall r, In r frame -> street_address r <> None ->
     In (idx r) (fst (fst res)) \/ In (idx r) (snd (fst res)) \/
     excluded_by_format (snd res) (idx r)).
Proof.
  intros ND. cbv zeta. unfold community_result.
  pose proof (engine_partition (community_frame cols cands k) (fst k) (snd k)
                (community_frame_NoDup cols cands k ND)) as P.
  destruct (process_roe_subname _ _ _) as [[keep remove] flagged].
  exact P.
Qed.

Lemma index_community_frame cols cands k i :
  In i (index (rows (community_frame cols cands k))) ->
  exists r, In r cands /\ idx r = i /\ community_key r = k.
Proof.
  unfold index. rewrite in_map_iff. intros (r & E & H).
  apply community_frame_In in H. exists r. tauto.
Qed.

(** The decisions over all communities. *)
Lemma decisions_partition cols cands :
  NoDup (index cands) ->
  let '(K, R, F) := roe_decisions cols cands in
  clean K R /\
  (forall i, In i K \/ In i R -> In i (index cands)) /\
  (forall i, excluded_by_format F i ->
     ~ In i K /\ ~ In i R /\
     exists r, In r cands /\ idx r = i /\ building_type r = MDU) /\
  (forall r, In r cands -> street_address r <> None ->
     In (idx r) K \/ In (idx r) R \/ excluded_by_format F (idx r)).
Proof.
  intros ND. rewrite roe_decisions_eq.
  set (keys := community_list cands).
  set (Kf := fun k => fst (fst (community_result cols cands k))).
  set (Rf := fun k => snd (fst (community_result cols cands k))).
  set (Ff := fun k => snd (community_result cols cands k)).
  assert (P : forall k,
    clean (Kf k) (Rf k) /\
    (forall i, In i (Kf k) \/ In i (Rf k) ->
               In i (index (rows (community_frame cols cands k)))) /\
    (forall i, excluded_by_format (Ff k) i ->
       snd k = MDU /\ In i (index (rows (community_frame cols cands k))) /\
       ~ In i (Kf k) /\ ~ In i (Rf k)) /\
    (forall r, In r (rows (community_frame cols cands k)) ->
       street_address r <> None ->
       In (idx r) (Kf k) \/ In (idx r) (Rf k) \/
       excluded_by_format (Ff k) (idx r)))
    by (intros k; apply (community_partition cols cands k ND)).
  assert (Same : forall k1 k2 i,
            (In i (Kf k1) \/ In i (Rf k1) \/ excluded_by_format (Ff k1) i) ->
            (In i (Kf k2) \/ In i (Rf k2) \/ excluded_by_format (Ff k2) i) ->
            k1 = k2).
  { intros k1 k2 i H1 H2.
    apply (community_of_label cols cands k1 k2 i ND).
    - destruct (P k1) as (_ & A & B & _).
      destruct H1 as [H|[H|H]]; [apply A; tauto|apply A; tauto|].
      apply B in H. tauto.
    - destruct (P k2) as (_ & A & B & _).
      destruct H2 as [H|[H|H]]; [apply A; tauto|apply A; tauto|].
      apply B in H. tauto. }
  assert (ExF : forall i, excluded_by_format (flat_map Ff keys) i ->
                          exists k, excluded_by_format (Ff k) i).
  { intros i (e & He & Ei & Er). apply in_flat_map in He as (k & _ & He).
    exists k, e. tauto. }
  split; [split|split; [|split]].
  - apply NoDup_flat_map.
    + apply community_list_NoDup.
    + intros k _. destruct (P k) as ([N _] & _). exact N.
    + intros k1 k2 i _ _ H1 H2. apply (Same k1 k2 i); tauto.
  - intros i Hk Hr.
    apply in_flat_map in Hk as (k1 & _ & Hk), Hr as (k2 & _ & Hr).
    assert (k1 = k2) by (apply (Same k1 k2 i); tauto). subst.
    destruct (P k2) as ([_ D] & _). eapply D; eauto.
  - intros i [H|H]; apply in_flat_map in H as (k & _ & H);
      destruct (P k) as (_ & A & _);
      (assert (Hi : In i (index (rows (community_frame cols cands k))))
        by (apply A; tauto));
      apply index_community_frame in Hi as (r & Hr & <- & _);
      now apply in_index.
  - intros i Hx. apply ExF in Hx as (k & Hx).
    destruct (P k) as (_ & _ & B & _).
    destruct (B i Hx) as (M & Hi & Nk & Nr).
    split; [|split].
    + intros H. apply in_flat_map in H as (k' & _ & H).
      assert (k' = k) by (apply (Same k' k i); tauto). subst. tauto.
    + intros H. apply in_flat_map in H as (k' & _ & H).
      assert (k' = k) by (apply (Same k' k i); tauto). subst. tauto.
    + apply index_community_frame in Hi as (r & Hr & Ei & Ek).
      exists r. repeat split; auto.
      unfold community_key in Ek. rewrite <- Ek in M. exact M.
  - intros r Hr Hs.
    pose proof (community_list_In cands r Hr) as Hk. fold keys in Hk.
    destruct (P (community_key r)) as (_ & _ & _ & C).
    assert (Hf : In r (rows (community_frame cols cands (community_key r))))
      by (apply community_frame_In; tauto).
    destruct (C r Hf Hs) as [H|[H|(e & He & Ei & Er)]].
    + left. apply in_flat_map. eauto.
    + right. left. apply in_flat_map. eauto.
    + right. right. exists e. repeat split; auto.
      apply in_flat_map. eauto.
Qed.

(** *** The six category outputs *)

Definition all_types : list string :=
  ["Residential"; "Commercial"; "Competitive"; "Other"] ++ roe_types.

(** The labels held by Public, Commercial, Competitive, Other, ROE and
    Remove, in this order. *)
Definition category_labels (t : Tabs) : list (list nat) :=
  [index (Public t); index (Commercial t); index (Competitive t);
   index (Other t); index (roe_records (ROE t)); index (Remove t)].

(** In how many of the six categories a label occurs. *)
Definition routed (t : Tabs) (i : nat) : nat :=
  len (filter (mem i) (category_labels t)).

(** The claim as written fails: the [APT] row of [mixed_formats] is in
    none of the six categories, only in the flagged list. *)
Lemma routing_not_exhaustive :
  ~ (forall df,
       NoDup (index (rows df)) ->
       (forall r, In r (rows df) -> street_address r <> None) ->
       forall r, In r (rows df) -> In (building_type r) all_types ->
                 routed (process df) (idx r) = 1).
Proof.
  intros H.
  assert (ND : NoDup (index (rows mixed_formats))).
  { repeat constructor; simpl; intuition discriminate. }
  assert (St : forall r, In r (rows mixed_formats) -> street_address r <> None).
  { intros r [<-|[<-|[<-|[]]]]; discriminate. }
  specialize (H mixed_formats ND St
                (sample_row 2 "1 MAIN ST" (Some "APT 3") MDU "Oak Court")).
  assert (E : routed (process mixed_formats) 2 = 0) by (vm_compute; reflexivity).
  cbn [idx sample_row] in H. rewrite E in H.
  assert (0 = 1); [|discriminate].
  apply H; [simpl; tauto|]. cbn [building_type sample_row]. simpl. tauto.
Qed.

Lemma mem_ext i l l' : (In i l <-> In i l') -> mem i l = mem i l'.
Proof.
  intros H. destruct (mem i l') eqn:E.
  - apply mem_In. apply mem_In in E. tauto.
  - apply mem_notin. apply mem_notin in E. tauto.
Qed.

Lemma of_type_mem T rs r :
  NoDup (index rs) -> In r rs ->
  mem (idx r) (index (of_type T rs)) = String.eqb (building_type r) T.
Proof.
  intros ND Hr. destruct (String.eqb (building_type r) T) eqn:E.
  - apply mem_In, in_index, filter_In. tauto.
  - apply mem_notin. unfold index. rewrite in_map_iff.
    intros (r' & Ei & H). apply filter_In in H as [H F].
    assert (r' = r) by (eapply index_inj; eauto). subst. congruence.
Qed.

Lemma roe_candidates_In rs r :
  In r (roe_candidates rs) <-> In r rs /\ In (building_type r) roe_types.
Proof.
  unfold roe_candidates. now rewrite filter_In, existsb_eqb_In.
Qed.

Lemma roe_candidates_label rs r :
  NoDup (index rs) -> In r rs ->
  In (idx r) (index (roe_candidates rs)) -> In (building_type r) roe_types.
Proof.
  intros ND Hr H. unfold index in H. apply in_map_iff in H as (r' & E & H).
  apply roe_candidates_In in H as [H T].
  assert (r' = r) by (eapply index_inj; eauto). now subst.
Qed.

Lemma tab_labels cols labels cands i :
  (forall j, In j labels -> In j (index cands)) ->
  (In i (index (roe_records (add_spacing_to_roe (sort_roe cols (loc labels cands)))))
   <-> In i labels) /\
  (In i (index (loc labels cands)) <-> In i labels).
Proof.
  intros Hl. rewrite roe_records_spacing.
  assert (L : In i (index (loc labels cands)) <-> In i labels)
    by (rewrite loc_index; split; [tauto|auto]).
  split; [|exact L]. rewrite <- L. unfold index.
  split; apply Permutation_in, Permutation_map;
    [|symmetry]; apply sort_roe_perm.
Qed.

(** C2 (amended).  For an input whose records carry distinct labels and
    all have a street address: Public, Commercial, Competitive, Other
    and ROE hold no record twice, and every record whose building type
    is one of the eight categories occurs in exactly one of the six
    category outputs, or, when it was excluded by the MDU
    majority-format stage, in none of them; the latter records are
    Residential - MDU records named in the flagged list. *)
Theorem routing_partition df :
  NoDup (index (rows df)) ->
  (forall r, In r (rows df) -> street_address r <> None) ->
  let t := process df in
  NoDup (index (Public t)) /\ NoDup (index (Commercial t)) /\
  NoDup (index (Competitive t)) /\ NoDup (index (Other t)) /\
  NoDup (index (roe_records (ROE t))) /\
  forall r, In r (rows df) -> In (building_type r) all_types ->
    (routed t (idx r) = 1 /\ ~ excluded_by_format (Flagged t) (idx r))
    \/
    (routed t (idx r) = 0 /\ excluded_by_format (Flagged t) (idx r) /\
     building_type r = MDU).
Proof.
  intros ND St. cbv zeta. unfold process.
  set (cands := roe_candidates (rows df)).
  assert (NDc : NoDup (index cands)) by (apply NoDup_index_filter, ND).
  pose proof (decisions_partition (columns df) cands NDc) as P.
  destruct (roe_decisions (columns df) cands) as [[K R] F].
  destruct P as ([NK Dj] & Kn & Ex & Cov).
  cbn [Public Commercial Competitive Other ROE Remove Flagged].
  assert (LK : forall j, In j K -> In j (index cands)) by (intros; apply Kn; tauto).
  assert (LR : forall j, In j R -> In j (index cands)) by (intros; apply Kn; tauto).
  repeat (split; [apply NoDup_index_filter, ND|]).
  split.
  { rewrite roe_records_spacing. unfold index.
    eapply Permutation_NoDup;
      [symmetry; apply Permutation_map, sort_roe_perm|].
    now apply NoDup_loc. }
  intros r Hr Ty. unfold routed, category_labels.
  cbn [Public Commercial Competitive Other ROE Remove filter].
  rewrite !(of_type_mem _ _ _ ND Hr).
  rewrite (mem_ext _ _ K (proj1 (tab_labels (columns df) K cands (idx r) LK))).
  rewrite (mem_ext _ _ R (proj2 (tab_labels (columns df) R cands (idx r) LR))).
  assert (Out : ~ In (building_type r) roe_types ->
                mem (idx r) K = false /\ mem (idx r) R = false /\
                ~ excluded_by_format F (idx r)).
  { intros N. split; [|split].
    - apply mem_notin. intros H. apply N.
      apply (roe_candidates_label (rows df) r ND Hr). now apply LK.
    - apply mem_notin. intros H. apply N.
      apply (roe_candidates_label (rows df) r ND Hr). now apply LR.
    - intros H. apply Ex in H as (_ & _ & r' & Hc & Ei & _). apply N.
      apply (roe_candidates_label (rows df) r ND Hr).
      rewrite <- Ei. now apply in_index. }
  assert (Roe : In (building_type r) roe_types ->
            (mem (idx r) K = true /\ mem (idx r) R = false /\
             ~ excluded_by_format F (idx r)) \/
            (mem (idx r) K = false /\ mem (idx r) R = true /\
             ~ excluded_by_format F (idx r)) \/
            (mem (idx r) K = false /\ mem (idx r) R = false /\
             excluded_by_format F (idx r) /\ building_type r = MDU)).
  { intros T.
    assert (Hc : In r cands) by (apply roe_candidates_In; tauto).
    destruct (Cov r Hc (St r Hr)) as [H|[H|H]].
    - left. repeat split.
      + now apply mem_In.
      + apply mem_notin. intros H'. eapply Dj; eauto.
      + intros X. apply Ex in X. tauto.
    - right. left. repeat split.
      + apply mem_notin. intros H'. eapply Dj; eauto.
      + now apply mem_In.
      + intros X. apply Ex in X. tauto.
    - right. right. destruct (Ex _ H) as (Nk & Nr & r' & Hc' & Ei & M).
      repeat split; auto; try now apply mem_notin.
      assert (r' = r) by (eapply (index_inj cands); eauto). now subst. }
  unfold all_types, roe_types in Ty. cbn [app In] in Ty.
  destruct Ty as [T|[T|[T|[T|Ty]]]].
  1-4: destruct Out as (OK & OR & OX);
       [rewrite <- T; unfold roe_types; cbn [In];
        intros [X|[X|[X|[X|[]]]]]; discriminate|];
       rewrite OK, OR, <- T; left; split; [reflexivity|exact OX].
  assert (T' : In (building_type r) roe_types)
    by (unfold roe_types; cbn [In]; tauto).
  assert (Ne : String.eqb (building_type r) "Residential" = false /\
               String.eqb (building_type r) "Commercial" = false /\
               String.eqb (building_type r) "Competitive" = false /\
               String.eqb (building_type r) "Other" = false).
  { destruct Ty as [T|[T|[T|[T|[]]]]]; rewrite <- T; repeat split. }
  destruct Ne as (E1 & E2 & E3 & E4). rewrite E1, E2, E3, E4.
  destruct (Roe T') as [(A & B & C)|[(A & B & C)|(A & B & C & D)]];
    rewrite A, B; [left|left|right]; repeat split; auto.
Qed.

Lemma routing_partition_witness :
  NoDup (index (rows mixed_formats)) /\
  (forall r, In r (rows mixed_formats) -> street_address r <> None) /\
  (let t := process mixed_formats in
   forall r, In r (rows mixed_formats) -> In (building_type r) all_types ->
     (routed t (idx r) = 1 /\ ~ excluded_by_format (Flagged t) (idx r))
     \/
     (routed t (idx r) = 0 /\ excluded_by_format (Flagged t) (idx r) /\
      building_type r = MDU)) /\
  map (routed (process mixed_formats)) [0; 1; 2] = [1; 1; 0].
Proof.
  assert (ND : NoDup (index (rows mixed_formats))).
  { repeat constructor; simpl; intuition discriminate. }
  assert (St : forall r, In r (rows mixed_formats) -> street_address r <> None).
  { intros r [<-|[<-|[<-|[]]]]; discriminate. }
  pose proof (routing_partition mixed_formats ND St) as T.
  cbv zeta in T. destruct T as (_ & _ & _ & _ & _ & T).
  split; [exact ND|]. split; [exact St|]. split; [exact T|].
  vm_compute. reflexivity.
Defined.

(* ================================================================= *)
(** * Further functions of [address_sorter.py] *)

(** ** [normalize_unit_format] (lines 113-125) *)

Module Normalize.
Import PyStr.

(** The digits a string starts with. *)
Fixpoint take_digits (s : string) : string :=
  match s with
  | EmptyString => EmptyString
  | String c t => if is_digit c then String c (take_digits t) else EmptyString
  end.

(** [re.findall(r'\d+', s)[0]] when the list is not empty: the first
    maximal run of digits. *)
Fixpoint first_number (s : string) : option string :=
  match s with
  | EmptyString => None
  | String c t =>
      if is_digit c then Some (String c (take_digits t)) else first_number t
  end.

Definition normalize_unit_format (unit_value : option string) : option string :=
  match unit_value with
  | None => None
  | Some v =>
      let unit_str := strip v in
      match first_number unit_str with
      | Some number => Some number
      | None => Some unit_str
      end
  end.

End Normalize.

(** ** [main]: the default output name (lines 598-605) and the
    extension test of [load_data] (lines 37-42) *)

Module FileNames.

Fixpoint has_dot (s : string) : bool :=
  match s with
  | EmptyString => false
  | String c t => Ascii.eqb c "." || has_dot t
  end.

(** [s.rsplit('.', 1)[0]]: the text before the last dot, all of [s] when
    it has no dot. *)
Fixpoint before_last_dot (s : string) : string :=
  match s with
  | EmptyString => EmptyString
  | String c t =>
      if Ascii.eqb c "." && negb (has_dot t) then EmptyString
      else String c (before_last_dot t)
  end.

Definition default_output_file (input_file : string) : string :=
  (before_last_dot input_file ++ "_sorted.xlsx")%string.

(** [s.endswith(suffix)] *)
Fixpoint endswith (suffix s : string) : bool :=
  String.eqb s suffix ||
  match s with
  | EmptyString => false
  | String _ t => endswith suffix t
  end.

Inductive InputFormat : Type := csv | xlsx.

(** Lines 37-42: the reader [load_data] picks, [None] when it raises
    [ValueError]. *)
Definition input_format (input_file : string) : option InputFormat :=
  if endswith ".csv" input_file then Some csv
  else if endswith ".xlsx" input_file then Some xlsx
  else None.

End FileNames.

(** ** [create_unit_count_tab] (lines 478-521) *)

(** [groupby('Building Type').size()] on the spaced ROE tab: the blank
    rows have no building type and are left out; the groups come in
    ascending order of the type. *)
Definition roe_by_type (roe : list RoeRow) : list (string * nat) :=
  map (fun t => (t, len (of_type t (roe_records roe))))
      (sort_keys (nodup string_dec (map building_type (roe_records roe)))).

(** The rows [(Category, Count)] of the summary. *)
Definition create_unit_count_tab (t : Tabs) : list (string * nat) :=
  [("Total", len (All t)); ("Public", len (Public t));
   ("Commercial", len (Commercial t))]
  ++ map (fun e => (("ROE - " ++ fst e)%string, snd e)) (roe_by_type (ROE t))
  ++ [("ROE - Total", len (ROE t)); ("Competitive", len (Competitive t));
      ("Other", len (Other t)); ("Remove", len (Remove t))].

(* ================================================================= *)
(** * Further properties *)

(** ** Unit texts *)

Module NormalizeFacts.
Import PyStr Normalize.

Lemma digit_not_space c : is_digit c = true -> is_space c = false.
Proof.
  destruct c as [[] [] [] [] [] [] [] []]; vm_compute; congruence.
Qed.

Lemma rstrip_digits s : all_digits s = true -> rstrip s = s.
Proof.
  induction s as [|c t IH]; simpl; [reflexivity|].
  intros H. apply andb_true_iff in H as [Hc Ht].
  rewrite (IH Ht). destruct t; [|reflexivity].
  now rewrite (digit_not_space c Hc).
Qed.

Lemma lstrip_digits s : all_digits s = true -> lstrip s = s.
Proof.
  destruct s as [|c t]; simpl; [reflexivity|].
  intros H. apply andb_true_iff in H as [Hc _].
  now rewrite (digit_not_space c Hc).
Qed.

Lemma strip_digits s : all_digits s = true -> strip s = s.
Proof.
  intros H. unfold strip. rewrite (lstrip_digits s H). now apply rstrip_digits.
Qed.

Lemma take_digits_digits s : all_digits (take_digits s) = true.
Proof.
  induction s as [|c t IH]; simpl; [reflexivity|].
  destruct (is_digit c) eqn:E; simpl; [now rewrite E|reflexivity].
Qed.

Lemma take_digits_all s : all_digits s = true -> take_digits s = s.
Proof.
  induction s as [|c t IH]; simpl; [reflexivity|].
  intros H. apply andb_true_iff in H as [Hc Ht]. now rewrite Hc, IH.
Qed.

Lemma first_number_digits s n : first_number s = Some n -> isdigit n = true.
Proof.
  induction s as [|c t IH]; simpl; [discriminate|].
  destruct (is_digit c) eqn:E; [|exact IH].
  intros H. injection H as <-. simpl. now rewrite E, take_digits_digits.
Qed.

Lemma first_number_of_number n : isdigit n = true -> first_number n = Some n.
Proof.
  destruct n as [|c t]; simpl; [discriminate|].
  intros H. apply andb_true_iff in H as [Hc Ht].
  now rewrite Hc, take_digits_all.
Qed.

Lemma isdigit_all n : isdigit n = true -> all_digits n = true.
Proof. destruct n; [discriminate|auto]. Qed.

(** The text contains a digit. *)
Fixpoint has_digit (s : string) : bool :=
  match s with
  | EmptyString => false
  | String c t => is_digit c || has_digit t
  end.

(** The text is empty or starts with a character that is no digit. *)
Definition no_leading_digit (s : string) : bool :=
  match s with
  | EmptyString => true
  | String c _ => negb (is_digit c)
  end.

Lemma take_digits_split s :
  exists post, s = (take_digits s ++ post)%string /\ no_leading_digit post = true.
Proof.
  induction s as [|c t (post & E & P)]; simpl.
  - exists EmptyString. split; reflexivity.
  - destruct (is_digit c) eqn:D.
    + exists post. simpl. split; [now rewrite <- E|exact P].
    + exists (String c t). simpl. split; [reflexivity|now rewrite D].
Qed.

(** [first_number] finds the first maximal run of digits: what stands
    before it has no digit, and the run is not followed by a digit. *)
Lemma first_number_split s n :
  first_number s = Some n ->
  exists pre post,
    s = (pre ++ n ++ post)%string /\ has_digit pre = false /\
    isdigit n = true /\ no_leading_digit post = true.
Proof.
  induction s as [|c t IH]; simpl; [discriminate|].
  destruct (is_digit c) eqn:D.
  - intros H. injection H as <-.
    destruct (take_digits_split t) as (post & E & P).
    exists EmptyString, post. simpl. rewrite <- E, D, take_digits_digits.
    repeat split. exact P.
  - intros H. destruct (IH H) as (pre & post & E & Hp & Hn & P).
    exists (String c pre), post. simpl. rewrite <- E, D, Hp.
    repeat split; auto.
Qed.

Lemma first_number_some s : has_digit s = true -> exists n, first_number s = Some n.
Proof.
  induction s as [|c t IH]; simpl; [discriminate|].
  destruct (is_digit c); [eauto|exact IH].
Qed.

Lemma first_number_none s : has_digit s = false -> first_number s = None.
Proof.
  induction s as [|c t IH]; simpl; [reflexivity|].
  destruct (is_digit c); [discriminate|exact IH].
Qed.

End NormalizeFacts.

(** X1.  [normalize_unit_format] is idempotent.  On a unit whose
    trimmed text contains a digit it returns the first maximal run of
    digits of that text: a non-empty string of digits, preceded in the
    text by no digit and not followed by one.  On a unit whose trimmed
    text contains no digit it returns the trimmed text, and on a missing
    unit nothing. *)
Theorem normalize_unit_format_idempotent v :
  Normalize.normalize_unit_format (Normalize.normalize_unit_format v)
  = Normalize.normalize_unit_format v /\
  (forall s, v = Some s ->
     NormalizeFacts.has_digit (PyStr.strip s) = true ->
     exists pre n post,
       Normalize.normalize_unit_format v = Some n /\
       PyStr.strip s = (pre ++ n ++ post)%string /\
       NormalizeFacts.has_digit pre = false /\
       PyStr.isdigit n = true /\
       NormalizeFacts.no_leading_digit post = true) /\
  (forall s, v = Some s ->
     NormalizeFacts.has_digit (PyStr.strip s) = false ->
     Normalize.normalize_unit_format v = Some (PyStr.strip s)) /\
  (v = None <-> Normalize.normalize_unit_format v = None).
Proof.
  split; [|split; [|split]].
  - destruct v as [s|]; [|reflexivity]. simpl.
    destruct (Normalize.first_number (PyStr.strip s)) as [n|] eqn:E.
    + pose proof (NormalizeFacts.first_number_digits _ _ E) as D.
      simpl. rewrite (NormalizeFacts.strip_digits n)
        by now apply NormalizeFacts.isdigit_all.
      now rewrite (NormalizeFacts.first_number_of_number n D).
    + simpl. now rewrite PyStrFacts.strip_idem, E.
  - intros s -> H.
    destruct (NormalizeFacts.first_number_some _ H) as (n & E).
    destruct (NormalizeFacts.first_number_split _ _ E)
      as (pre & post & Es & Hp & Hn & P).
    exists pre, n, post. simpl. rewrite E. repeat split; auto.
  - intros s -> H. simpl.
    now rewrite (NormalizeFacts.first_number_none _ H).
  - destruct v as [s|]; simpl; [|tauto].
    destruct (Normalize.first_number (PyStr.strip s));
      split; discriminate.
Qed.

(** The trimmed, upper-cased text both unit functions work on. *)
Lemma detect_on_text v :
  detect_unit_anomalies (Some v) =
  let u := PyStr.upper (PyStr.strip v) in
  if existsb (fun keyword => PyStr.contains keyword u)
       ["OFC"; "OFFICE"; "CLUBHOUSE"; "LEASING"; "CLUB"]
  then Some office_indicator
  else if PyStr.contains "STE" u || PyStr.contains "SUITE" u
  then Some suite_indicator
  else None.
Proof. unfold detect_unit_anomalies. now rewrite PyStrFacts.strip_upper. Qed.

(** X2.  [detect_unit_anomalies] ignores case and surrounding
    whitespace. *)
Theorem detect_ignores_case_and_padding v :
  detect_unit_anomalies (Some (PyStr.upper v)) = detect_unit_anomalies (Some v) /\
  detect_unit_anomalies (Some (PyStr.strip v)) = detect_unit_anomalies (Some v).
Proof.
  rewrite !detect_on_text. cbv zeta.
  now rewrite PyStrFacts.strip_upper, PyStrFacts.upper_idem, PyStrFacts.strip_idem.
Qed.

Lemma prefix_contains p s : PyStr.startswith p s = true -> PyStr.contains p s = true.
Proof.
  unfold PyStr.startswith. destruct s; simpl; intros ->; reflexivity.
Qed.

Lemma digits_exclude_keyword c k s :
  PyStr.is_digit c = false -> PyStr.all_digits s = true ->
  PyStr.contains (String c k) s = false.
Proof.
  intros Hc. induction s as [|d t IH]; simpl; [reflexivity|].
  intros H. apply andb_true_iff in H as [Hd Ht].
  rewrite (IH Ht), orb_false_r.
  destruct (ascii_dec c d) as [->|N]; [congruence|reflexivity].
Qed.

Lemma format_of_text_ste u :
  format_of_text u = ste_format -> PyStr.startswith "STE" u = true.
Proof.
  unfold format_of_text.
  repeat match goal with
         | |- context [if ?b then _ else _] =>
             let E := fresh in destruct b eqn:E; try discriminate
         end; auto.
Qed.

Lemma format_of_text_number u :
  format_of_text u = number_only -> PyStr.isdigit u = true.
Proof.
  unfold format_of_text.
  repeat match goal with
         | |- context [if ?b then _ else _] =>
             let E := fresh in destruct b eqn:E; try discriminate
         end; auto.
Qed.

(** X3.  A unit the classifier tags [ste_format] is always an anomaly,
    and a unit tagged [number_only] never is. *)
Theorem classifier_versus_anomaly v :
  (get_unit_format_type v = ste_format -> detect_unit_anomalies v <> None) /\
  (get_unit_format_type v = number_only -> detect_unit_anomalies v = None).
Proof.
  destruct v as [v|]; [|split; [discriminate|reflexivity]].
  rewrite detect_on_text. cbv zeta. cbn [get_unit_format_type]. split.
  - intros H. apply format_of_text_ste, prefix_contains in H.
    rewrite H. cbn [orb]. now destruct (existsb _ _).
  - intros H. apply format_of_text_number, NormalizeFacts.isdigit_all in H.
    cbn [existsb].
    rewrite !digits_exclude_keyword by (reflexivity || exact H).
    reflexivity.
Qed.

Lemma classifier_versus_anomaly_witness :
  get_unit_format_type (Some "ste 100") = ste_format /\
  detect_unit_anomalies (Some "ste 100") <> None /\
  get_unit_format_type (Some " 42 ") = number_only /\
  detect_unit_anomalies (Some " 42 ") = None.
Proof.
  pose proof (classifier_versus_anomaly (Some "ste 100")) as [A _].
  pose proof (classifier_versus_anomaly (Some " 42 ")) as [_ B].
  split; [reflexivity|]. split; [apply A; reflexivity|].
  split; [reflexivity|apply B; reflexivity].
Defined.

(** ** The counter of format tags *)

(** [counter[tag]]: the count of a tag, 0 when it is no key. *)
Fixpoint counter_get (t : FormatTag) (c : Counter) : nat :=
  match c with
  | [] => 0
  | (k, n) :: c' => if tag_eqb k t then n else counter_get t c'
  end.

Definition tag_eq_dec (a b : FormatTag) : {a = b} + {a <> b}.
Proof. decide equality. Defined.

Lemma tag_eqb_eq a b : tag_eqb a b = true <-> a = b.
Proof. destruct a, b; simpl; split; congruence. Qed.

Lemma tag_eqb_refl a : tag_eqb a a = true.
Proof. now apply tag_eqb_eq. Qed.

Lemma tag_eqb_neq a b : tag_eqb a b = false <-> a <> b.
Proof.
  rewrite <- tag_eqb_eq. destruct (tag_eqb a b); split; congruence.
Qed.

(** A counter in good shape: no key twice, no zero count. *)
Definition counter_ok (c : Counter) : Prop :=
  NoDup (map fst c) /\ forall k n, In (k, n) c -> 0 < n.

Lemma counter_add_keys t c k :
  In k (map fst (counter_add t c)) <-> k = t \/ In k (map fst c).
Proof.
  induction c as [|[k' n] c IH]; simpl; [intuition|].
  destruct (tag_eqb k' t) eqn:E; simpl.
  - apply tag_eqb_eq in E. subst. intuition congruence.
  - rewrite IH. tauto.
Qed.

Lemma counter_add_ok t c : counter_ok c -> counter_ok (counter_add t c).
Proof.
  intros [ND Pos]. induction c as [|[k n] c IH]; simpl.
  - split; [repeat constructor; intros []|].
    intros k n [E|[]]. injection E as <- <-. lia.
  - simpl in ND. inversion ND as [|? ? Hn ND']; subst.
    destruct (tag_eqb k t) eqn:E.
    + split; [exact ND|]. intros k' n' [H|H].
      * injection H as <- <-. lia.
      * eapply Pos. right. exact H.
    + destruct IH as [ND1 Pos1]; [exact ND'|intros; eapply Pos; right; eauto|].
      split.
      * simpl. constructor; [|exact ND1].
        rewrite counter_add_keys. apply tag_eqb_neq in E. intuition.
      * intros k' n' [H|H]; [eapply Pos; left; exact H|eauto].
Qed.

Lemma counter_add_get t c k :
  counter_get k (counter_add t c) =
  counter_get k c + (if tag_eqb t k then 1 else 0).
Proof.
  induction c as [|[k' n] c IH]; simpl.
  - destruct (tag_eqb t k); lia.
  - destruct (tag_eqb k' t) eqn:E; simpl.
    + apply tag_eqb_eq in E. subst. destruct (tag_eqb t k); lia.
    + destruct (tag_eqb k' k) eqn:E'; [|exact IH].
      apply tag_eqb_eq in E'. subst. rewrite tag_eqb_neq in E.
      assert (tag_eqb t k = false) by (apply tag_eqb_neq; congruence).
      rewrite H. lia.
Qed.

Lemma counter_fold_ok l c :
  counter_ok c -> counter_ok (fold_left (fun c t => counter_add t c) l c).
Proof.
  revert c. induction l as [|t l IH]; intros c H; simpl; [exact H|].
  apply IH, counter_add_ok, H.
Qed.

Lemma counter_fold_get l c k :
  counter_get k (fold_left (fun c t => counter_add t c) l c) =
  counter_get k c + count_occ tag_eq_dec l k.
Proof.
  revert c. induction l as [|t l IH]; intros c; simpl; [lia|].
  rewrite IH, counter_add_get.
  destruct (tag_eq_dec t k) as [->|N].
  - rewrite tag_eqb_refl. lia.
  - apply tag_eqb_neq in N. rewrite N. lia.
Qed.

Lemma counter_of_ok l : counter_ok (counter_of l).
Proof.
  apply counter_fold_ok. split; [constructor|intros k n []].
Qed.

Lemma counter_get_In c k n :
  counter_ok c -> (In (k, n) c <-> counter_get k c = n /\ 0 < n).
Proof.
  intros [ND Pos]. induction c as [|[k' n'] c IH]; simpl.
  - split; [intros []|lia].
  - simpl in ND. inversion ND as [|? ? Hn ND']; subst.
    assert (Pos' : forall k n, In (k, n) c -> 0 < n)
      by (intros; eapply Pos; right; eauto).
    destruct (tag_eqb k' k) eqn:E.
    + apply tag_eqb_eq in E. subst. split.
      * intros [H|H]; [injection H as <-; split; [reflexivity|]|].
        -- eapply Pos. now left.
        -- exfalso. apply Hn. apply in_map_iff. exists (k, n). tauto.
      * intros [<- _]. now left.
    + rewrite <- (IH ND' Pos'). apply tag_eqb_neq in E. split.
      * intros [H|H]; [congruence|exact H].
      * tauto.
Qed.

Lemma counter_of_spec l :
  (forall t, counter_get t (counter_of l) = count_occ tag_eq_dec l t) /\
  NoDup (map fst (counter_of l)) /\
  (forall t n, In (t, n) (counter_of l) <->
               n = count_occ tag_eq_dec l t /\ In t l).
Proof.
  assert (G : forall t, counter_get t (counter_of l) = count_occ tag_eq_dec l t)
    by (intros t; unfold counter_of; now rewrite counter_fold_get).
  pose proof (counter_of_ok l) as Ok.
  split; [exact G|]. split; [apply Ok|].
  intros t n. rewrite (counter_get_In _ t n Ok), G.
  rewrite (count_occ_In tag_eq_dec). split.
  - intros [<- H]. split; [reflexivity|exact H].
  - intros [-> H]. split; [reflexivity|exact H].
Qed.

Lemma first_max_spec c :
  match first_max c with
  | None => c = []
  | Some (k, n) => In (k, n) c /\ forall k' n', In (k', n') c -> n' <= n
  end.
Proof.
  induction c as [|[k n] c IH]; simpl; [reflexivity|].
  destruct (first_max c) as [[k' n']|].
  - destruct IH as [Hin Hmax]. destruct (n' <=? n) eqn:E.
    + apply Nat.leb_le in E. split; [now left|].
      intros k2 n2 [H|H]; [injection H as <- <-; lia|].
      apply Hmax in H. lia.
    + apply Nat.leb_gt in E. split; [now right|].
      intros k2 n2 [H|H]; [injection H as <- <-; lia|eauto].
  - subst. split; [now left|]. intros k2 n2 [H|[]]. injection H as <- <-. lia.
Qed.

(** X4.  The counter built from a list of tags returns for every tag
    the number of its occurrences, holds no tag twice and no tag with
    count 0; its keys are the tags of the list. *)
Theorem counter_counts_occurrences l :
  (forall t, counter_get t (counter_of l) = count_occ tag_eq_dec l t) /\
  NoDup (map fst (counter_of l)) /\
  (forall t n, In (t, n) (counter_of l) <->
               n = count_occ tag_eq_dec l t /\ In t l).
Proof. exact (counter_of_spec l). Qed.

Lemma first_max_counter_of l :
  match first_max (counter_of l) with
  | None => l = []
  | Some (k, n) =>
      In k l /\ n = count_occ tag_eq_dec l k /\
      forall t, count_occ tag_eq_dec l t <= n
  end.
Proof.
  pose proof (first_max_spec (counter_of l)) as S.
  destruct (counter_of_spec l) as (G & _ & I).
  destruct (first_max (counter_of l)) as [[k n]|].
  - destruct S as [Hin Hmax]. apply I in Hin as [-> Hk].
    split; [exact Hk|]. split; [reflexivity|].
    intros t. destruct (count_occ tag_eq_dec l t) as [|m] eqn:E; [lia|].
    apply (Hmax t). apply I. split; [congruence|].
    apply (count_occ_In tag_eq_dec). lia.
  - destruct l as [|t l]; [reflexivity|].
    assert (H : In (t, count_occ tag_eq_dec (t :: l) t) (counter_of (t :: l))).
    { apply I. split; [reflexivity|now left]. }
    rewrite S in H. destruct H.
Qed.

(** X5.  The majority entry of a counter built from a list: its tag
    occurs in the list, its count is the number of occurrences of the
    tag, and no tag occurs more often; there is none exactly when the
    list is empty. *)
Theorem most_common_is_most_frequent l :
  match first_max (counter_of l) with
  | None => l = []
  | Some (k, n) =>
      In k l /\ n = count_occ tag_eq_dec l k /\
      forall t, count_occ tag_eq_dec l t <= n
  end.
Proof. exact (first_max_counter_of l). Qed.

(** ** Stage 5: the majority standard format *)

(** Lines 236-241: the tag the MDU stage compares every row with. *)
Definition majority_standard_format (rs : list Row) : option FormatTag :=
  option_map fst
    (first_max (filter (fun e => tag_in (fst e) standard_formats)
                       (counter_of (all_formats rs)))).

Lemma tag_in_In t l : tag_in t l = true <-> In t l.
Proof.
  unfold tag_in. rewrite existsb_exists. split.
  - intros (x & Hx & E). apply tag_eqb_eq in E. now subst.
  - intros H. exists t. split; [exact H|apply tag_eqb_refl].
Qed.

Lemma majority_standard_format_max rs m :
  majority_standard_format rs = Some m ->
  In m standard_formats /\ In m (all_formats rs) /\
  forall t, In t standard_formats ->
    count_occ tag_eq_dec (all_formats rs) t
    <= count_occ tag_eq_dec (all_formats rs) m.
Proof.
  unfold majority_standard_format.
  set (c := counter_of (all_formats rs)).
  set (cf := filter (fun e => tag_in (fst e) standard_formats) c).
  pose proof (first_max_spec cf) as S.
  destruct (counter_of_spec (all_formats rs)) as (_ & _ & I). fold c in I.
  destruct (first_max cf) as [[k n]|]; [|discriminate].
  intros E. injection E as <-. destruct S as [Hin Hmax].
  apply filter_In in Hin as [Hin Hs]. apply tag_in_In in Hs.
  apply I in Hin as [-> Hk]. split; [exact Hs|]. split; [exact Hk|].
  intros t Ht.
  destruct (count_occ tag_eq_dec (all_formats rs) t) as [|q] eqn:Eq; [lia|].
  apply (Hmax t). apply filter_In. split.
  - apply I. split; [congruence|]. apply (count_occ_In tag_eq_dec). lia.
  - now apply tag_in_In.
Qed.

Lemma mdu_format_flags_In rs e :
  In e (mdu_format_flags true rs) <->
  (1 <? len (counter_of (all_formats rs))) = true /\
  exists m r,
    majority_standard_format rs = Some m /\ In r rs /\
    get_unit_format_type (unit_number r) <> m /\
    get_unit_format_type (unit_number r) <> no_unit /\
    e = mkFlag (idx r)
          (if tag_in (get_unit_format_type (unit_number r)) anomalous_formats
           then MduAnomalous (get_unit_format_type (unit_number r)) m
           else MduMinority (get_unit_format_type (unit_number r)) m) r.
Proof.
  unfold mdu_format_flags, majority_standard_format. cbn [andb].
  destruct (1 <? len (counter_of (all_formats rs))).
  2: { split; [intros []|intros [X _]; discriminate]. }
  destruct (first_max _) as [[m n]|]; cbn [option_map fst].
  2: { split; [intros []|intros (_ & m & r & X & _); discriminate]. }
  rewrite in_flat_map. split.
  - intros (r & Hr & He). cbv zeta in He.
    destruct (negb (tag_eqb (get_unit_format_type (unit_number r)) m)
              && negb (tag_eqb (get_unit_format_type (unit_number r)) no_unit))
      eqn:C; [|destruct He].
    apply andb_true_iff in C as [C1 C2].
    apply negb_true_iff in C1, C2. apply tag_eqb_neq in C1, C2.
    destruct He as [<-|[]]. split; [reflexivity|].
    exists m, r. repeat split; auto.
  - intros (_ & m' & r & Em & Hr & N1 & N2 & ->). injection Em as <-.
    exists r. split; [exact Hr|]. cbv zeta.
    apply tag_eqb_neq in N1, N2. rewrite N1, N2. now left.
Qed.

(** X6.  The format the MDU stage takes as majority is a standard tag
    that occurs in the community and that no standard tag outnumbers.
    When the community shows more than one tag, the stage flags and
    excludes exactly the rows whose tag is neither that format nor
    [no_unit]; the reason is "anomalous" for the five non-standard tags
    and "minority" for the two other standard tags. *)
Theorem mdu_stage_flags_off_majority rs :
  (forall m, majority_standard_format rs = Some m ->
     In m standard_formats /\ In m (all_formats rs) /\
     forall t, In t standard_formats ->
       count_occ tag_eq_dec (all_formats rs) t
       <= count_occ tag_eq_dec (all_formats rs) m) /\
  (forall i, In i (non_majority_format_indices true rs) <->
     (1 <? len (counter_of (all_formats rs))) = true /\
     exists m r, majority_standard_format rs = Some m /\ In r rs /\
       idx r = i /\
       get_unit_format_type (unit_number r) <> m /\
       get_unit_format_type (unit_number r) <> no_unit) /\
  (forall e, In e (mdu_format_flags true rs) ->
     let f := get_unit_format_type (unit_number (flag_row e)) in
     exists m, majority_standard_format rs = Some m /\
       (In f anomalous_formats /\ reason e = MduAnomalous f m \/
        In f standard_formats /\ reason e = MduMinority f m)).
Proof.
  split; [apply majority_standard_format_max|]. split.
  - intros i. unfold non_majority_format_indices. rewrite in_map_iff. split.
    + intros (e & Ei & He). apply mdu_format_flags_In in He
        as (L & m & r & M & Hr & N1 & N2 & ->).
      split; [exact L|]. exists m, r. repeat split; auto.
    + intros (L & m & r & M & Hr & Ei & N1 & N2).
      eexists. split; [|apply mdu_format_flags_In; split; [exact L|];
                        exists m, r; repeat split; eauto].
      exact Ei.
  - intros e He. apply mdu_format_flags_In in He
      as (L & m & r & M & Hr & N1 & N2 & ->).
    cbn [flag_row reason]. exists m. split; [exact M|].
    destruct (tag_in (get_unit_format_type (unit_number r)) anomalous_formats)
      eqn:A.
    + left. split; [now apply tag_in_In|reflexivity].
    + right. split; [|reflexivity].
      destruct (get_unit_format_type (unit_number r));
        simpl in *; try discriminate; try tauto; congruence.
Qed.

(** ** The engine: early stages and flags *)

Lemma survivors3_of_none df bt : survivors2 df bt = [] -> survivors3 df bt = [].
Proof. unfold survivors3. now intros ->. Qed.

Lemma nonempty_length {A} (l : list A) : l <> [] -> (len l =? 0) = false.
Proof. destruct l; [congruence|reflexivity]. Qed.

(** The result when some row reaches stage 6. *)
Lemma engine_main_path df s bt :
  survivors3 df bt <> [] ->
  process_roe_subname df s bt =
  let is_mdu := String.eqb bt MDU in
  let df2 := survivors2 df bt in
  let df3 := survivors3 df bt in
  let mdu_rules := is_mdu || is_condo_style df2 in
  let keep := stage6_keep mdu_rules df3 in
  let remove := early_removals df bt ++ stage6_remove mdu_rules df3 in
  one_off df3
    (keep, remove,
     (oversize_flags df2 ++ mdu_format_flags is_mdu df2)
     ++ minority_format_flags is_mdu (all_formats df2)
          (counter_of (all_formats df2)) df3 keep remove).
Proof.
  intros N3. rewrite process_roe_subname_unfold.
  assert (N2 : survivors2 df bt <> [])
    by (intros E; apply N3; now apply survivors3_of_none).
  assert (N1 : survivors1 df <> [])
    by (intros E; apply N2; now apply survivors2_of_none).
  rewrite (nonempty_length _ N1), (nonempty_length _ N2). cbv zeta.
  now rewrite (nonempty_length _ N3).
Qed.

Lemma anomalies_in_remove df s bt i :
  In i (anomaly_indices (rows df)) ->
  In i (snd (fst (process_roe_subname df s bt))).
Proof.
  intros H. destruct (survivors1 df) as [|a l] eqn:E1.
  - rewrite process_roe_subname_unfold, E1. exact H.
  - apply early_removals_kept; [rewrite E1; discriminate|].
    apply in_or_app. now left.
Qed.

(** X7.  A row whose unit is an anomaly (office, clubhouse, leasing,
    suite) is in the remove list of its community, not in the keep list,
    and no flag entry names it. *)
Theorem anomalies_removed_silently df s bt r :
  NoDup (index (rows df)) ->
  In r (rows df) ->
  detect_unit_anomalies (unit_number r) <> None ->
  let '(keep, remove, flagged) := process_roe_subname df s bt in
  In (idx r) remove /\ ~ In (idx r) keep /\
  forall e, In e flagged -> flag_index e <> idx r.
Proof.
  intros ND Hr An.
  assert (Ha : In (idx r) (anomaly_indices (rows df))).
  { apply in_index, filter_In. split; [exact Hr|].
    now destruct (detect_unit_anomalies (unit_number r)). }
  pose proof (anomalies_in_remove df s bt _ Ha) as Rm.
  pose proof (engine_partition df s bt ND) as P.
  pose proof (engine_flags_survivors df s bt) as F.
  destruct (process_roe_subname df s bt) as [[keep remove] flagged].
  cbn [fst snd] in Rm. destruct P as ([_ Dj] & _).
  split; [exact Rm|]. split; [intros K; eapply Dj; eauto|].
  intros e He E. apply F in He. rewrite E in He.
  apply (early_removals_gone df bt (idx r)); [|exact He].
  apply in_or_app. now left.
Qed.

Lemma anomalies_removed_silently_witness :
  NoDup (index (rows office_only)) /\
  detect_unit_anomalies (Some "OFC") <> None /\
  let '(keep, remove, flagged) :=
    process_roe_subname office_only "Oak Court" MDU in
  In 0 remove /\ ~ In 0 keep /\ forall e, In e flagged -> flag_index e <> 0.
Proof.
  assert (ND : NoDup (index (rows office_only))).
  { repeat constructor; simpl; intuition. }
  assert (An : detect_unit_anomalies (Some "OFC") <> None) by discriminate.
  split; [exact ND|]. split; [exact An|].
  apply (anomalies_removed_silently office_only "Oak Court" MDU
           (sample_row 0 "1 MAIN ST" (Some "OFC") MDU "Oak Court") ND).
  - now left.
  - exact An.
Defined.

Lemma minority_flags_reason is_mdu fs c rs keep remove e :
  In e (minority_format_flags is_mdu fs c rs keep remove) ->
  exists f m, reason e = MinorityFormat f m.
Proof.
  unfold minority_format_flags.
  destruct (negb is_mdu && _); [|intros []].
  destruct (first_max c) as [[m n]|]; [|intros []].
  destruct (_ <? _); [|intros []].
  rewrite in_flat_map. intros (r & Hr & He).
  destruct (negb (mem (idx r) keep) && negb (mem (idx r) remove));
    [|destruct He].
  cbv zeta in He.
  destruct (negb (tag_eqb (get_unit_format_type (unit_number r)) m)
            && negb (tag_eqb (get_unit_format_type (unit_number r)) no_unit));
    [|destruct He].
  destruct He as [<-|[]]. simpl. eauto.
Qed.

Definition is_oversize_reason (r : Reason) : bool :=
  match r with
  | Oversize _ => true
  | _ => false
  end.

Lemma one_off_adds rs st :
  one_off rs st = st \/
  exists r why,
    In r rs /\ is_oversize_reason why = false /\
    one_off rs st = force_remove r why st.
Proof.
  unfold one_off.
  destruct (10 <? len rs); [|now left].
  destruct ((len (filter lacks_unit rs) =? 1)
            && (10 <? len rs - len (filter lacks_unit rs))).
  - destruct (filter lacks_unit rs) as [|r l] eqn:E; [now left|].
    assert (In r (filter lacks_unit rs)) by (rewrite E; now left).
    apply filter_In in H.
    right. exists r. eexists. split; [tauto|].
    refine (conj _ eq_refl); reflexivity.
  - destruct ((len rs - len (filter lacks_unit rs) =? 1)
              && (10 <? len (filter lacks_unit rs))); [|now left].
    destruct (filter has_unit rs) as [|r l] eqn:E; [now left|].
    assert (In r (filter has_unit rs)) by (rewrite E; now left).
    apply filter_In in H.
    right. exists r. eexists. split; [tauto|].
    refine (conj _ eq_refl); reflexivity.
Qed.

(** X8.  When more than 800 rows survive the two early stages, every
    one of them is flagged with the oversize reason carrying that
    number; with 800 or fewer no flag entry has the oversize reason. *)
Theorem oversize_flags_all_or_none df s bt :
  let df2 := survivors2 df bt in
  let '(_, _, flagged) := process_roe_subname df s bt in
  (800 < len df2 ->
   forall r, In r df2 -> In (mkFlag (idx r) (Oversize (len df2)) r) flagged) /\
  (len df2 <= 800 ->
   forall e, In e flagged -> is_oversize_reason (reason e) = false).
Proof.
  cbv zeta. rewrite process_roe_subname_unfold.
  destruct (len (survivors1 df) =? 0) eqn:L1.
  { apply length_zero_nil in L1. rewrite (survivors2_of_none df bt L1).
    split; [simpl; lia|intros _ e []]. }
  destruct (len (survivors2 df bt) =? 0) eqn:L2.
  { apply length_zero_nil in L2. rewrite L2.
    split; [simpl; lia|intros _ e []]. }
  cbv zeta.
  set (df2 := survivors2 df bt).
  assert (Big : 800 < len df2 -> forall r, In r df2 ->
                In (mkFlag (idx r) (Oversize (len df2)) r) (oversize_flags df2)).
  { intros H r Hr. unfold oversize_flags.
    apply Nat.ltb_lt in H. rewrite H.
    apply in_map_iff. exists r. tauto. }
  assert (Small : len df2 <= 800 -> oversize_flags df2 = []).
  { intros H. unfold oversize_flags.
    destruct (800 <? len df2) eqn:E; [|reflexivity].
    apply Nat.ltb_lt in E. lia. }
  assert (Md : forall e, In e (mdu_format_flags (String.eqb bt MDU) df2) ->
                         is_oversize_reason (reason e) = false).
  { intros e He. apply mdu_format_flags_spec in He as (_ & _ & _ & M & _).
    destruct (reason e); simpl in *; congruence. }
  assert (Mi : forall m fs c rs k rm e,
             In e (minority_format_flags m fs c rs k rm) ->
             is_oversize_reason (reason e) = false)
    by (intros m fs c rs k rm e He;
        apply minority_flags_reason in He as (f & m' & ->); reflexivity).
  destruct (len (survivors3 df bt) =? 0).
  { split.
    - intros H r Hr. apply in_or_app. left. now apply Big.
    - intros H e He. rewrite (Small H) in He. now apply Md. }
  match goal with
  | |- context [one_off ?rs (?k, ?rm, ?f)] =>
      destruct (one_off_adds rs (k, rm, f)) as [E|(x & why & _ & W & E)];
      rewrite E
  end; unfold force_remove; split.
  - intros H r Hr. apply in_or_app. left. apply in_or_app. left. now apply Big.
  - intros H e He. rewrite (Small H) in He. cbn [app] in He.
    apply in_app_or in He as [He|He]; [now apply Md|now apply Mi in He].
  - intros H r Hr. apply in_or_app. left. apply in_or_app. left.
    apply in_or_app. left. now apply Big.
  - intros H e He. rewrite (Small H) in He. cbn [app] in He.
    apply in_app_or in He as [He|[<-|[]]]; [|exact W].
    apply in_app_or in He as [He|He]; [now apply Md|now apply Mi in He].
Qed.

(** ** Stage 6 under either policy *)

(** Line 304 on the frame [rs]: at least 80% of the rows have a unit. *)
Definition mostly_units (rs : list Row) : bool :=
  (0 <? len rs) && (4 * len rs <=? 5 * len (filter has_unit rs)).

Lemma contribution_mdu rs g :
  contribution true rs g =
  let N := index (filter lacks_unit g) in
  let W := index (filter has_unit g) in
  match W with
  | [] => if mostly_units rs then ([], N) else (N, [])
  | _ => (W, N)
  end.
Proof.
  unfold contribution, dedup_street, mostly_units. cbv zeta.
  destruct (index (filter lacks_unit g)) as [|n N];
    destruct (index (filter has_unit g)) as [|w W];
    cbn [List.length Nat.ltb Nat.leb Nat.eqb andb app]; try reflexivity;
    now destruct (_ && _).
Qed.

Lemma contribution_sfa rs g :
  contribution false rs g =
  let N := index (filter lacks_unit g) in
  let W := index (filter has_unit g) in
  match N with
  | [] => (W, [])
  | _ => (N, W)
  end.
Proof.
  unfold contribution, dedup_street. cbv zeta.
  destruct (index (filter lacks_unit g)) as [|n N];
    destruct (index (filter has_unit g)) as [|w W]; reflexivity.
Qed.

Lemma index_nonempty f g : index (filter f g) <> [] <-> exists a, In a g /\ f a = true.
Proof.
  split.
  - destruct (filter f g) as [|a l] eqn:E; [simpl; congruence|].
    intros _. exists a. apply filter_In. rewrite E. now left.
  - intros (a & Ha & Fa) E.
    assert (In (idx a) (index (filter f g)))
      by (apply in_index, filter_In; tauto).
    rewrite E in H. destruct H.
Qed.

Lemma index_filter_group f rs s i :
  In i (index (filter f (street_group rs s))) <->
  exists r, In r rs /\ idx r = i /\ street_address r = Some s /\ f r = true.
Proof.
  unfold index. rewrite in_map_iff. split.
  - intros (r & E & H). apply filter_In in H as [H F].
    apply street_group_In in H. exists r. tauto.
  - intros (r & Hr & E & Hs & F). exists r. split; [exact E|].
    apply filter_In. split; [|exact F]. apply street_group_In. tauto.
Qed.

Lemma group_has f rs s :
  index (filter f (street_group rs s)) <> [] <->
  exists a, In a rs /\ street_address a = Some s /\ f a = true.
Proof.
  rewrite index_nonempty. split.
  - intros (a & Ha & Fa). apply street_group_In in Ha. exists a. tauto.
  - intros (a & Ha & Sa & Fa). exists a. split; [|exact Fa].
    apply street_group_In. tauto.
Qed.

Lemma list_empty_or {A} (l : list A) : l = [] \/ l <> [].
Proof. destruct l; [now left|right; discriminate]. Qed.

(** X9.  Under the MDU policy (declared MDU or condo-style) the street
    loop keeps every row that has a unit, and removes exactly the rows
    without unit whose street address also occurs with a unit or whose
    community has at least 80% of its rows with a unit. *)
Theorem mdu_policy_decisions rs keep0 remove0 :
  let '(keep, remove) := street_dedup true rs (keep0, remove0) in
  (forall r, In r rs -> has_unit r = true -> street_address r <> None ->
             In (idx r) keep) /\
  (forall i, In i remove <->
     In i remove0 \/
     exists r, In r rs /\ idx r = i /\ lacks_unit r = true /\
       street_address r <> None /\
       ((exists b, In b rs /\ has_unit b = true /\
                   street_address b = street_address r)
        \/ mostly_units rs = true)).
Proof.
  rewrite street_dedup_stage6. unfold stage6_keep, stage6_remove. split.
  - intros r Hr U Hs. apply in_or_app. right.
    destruct (street_address r) as [s|] eqn:Es; [|congruence].
    apply in_flat_map. exists s. split; [apply street_list_In; eauto|].
    rewrite contribution_mdu. cbv zeta.
    assert (Hi : In (idx r) (index (filter has_unit (street_group rs s))))
      by (apply index_filter_group; eauto).
    destruct (index (filter has_unit (street_group rs s))); [destruct Hi|].
    exact Hi.
  - intros i. rewrite in_app_iff, in_flat_map. split.
    + intros [H|(s & Hs & H)]; [now left|]. right.
      rewrite contribution_mdu in H. cbv zeta in H.
      destruct (list_empty_or (index (filter has_unit (street_group rs s))))
        as [E|N].
      * rewrite E in H. destruct (mostly_units rs) eqn:M; [|destruct H].
        cbn [snd] in H. apply index_filter_group in H as (r & Hr & Ei & Sr & L).
        exists r. repeat split; auto; congruence.
      * assert (H' : In i (index (filter lacks_unit (street_group rs s))))
          by (destruct (index (filter has_unit (street_group rs s)));
              [congruence|exact H]).
        apply index_filter_group in H' as (r & Hr & Ei & Sr & L).
        apply group_has in N as (b & Hb & Sb & Ub).
        exists r. repeat split; auto; try congruence.
        left. exists b. repeat split; auto. congruence.
    + intros [H|(r & Hr & Ei & L & Sr & Why)]; [now left|]. right.
      destruct (street_address r) as [s|] eqn:Es; [|congruence].
      exists s. split; [apply street_list_In; eauto|].
      rewrite contribution_mdu. cbv zeta.
      assert (Hi : In i (index (filter lacks_unit (street_group rs s))))
        by (apply index_filter_group; eauto).
      destruct (list_empty_or (index (filter has_unit (street_group rs s))))
        as [E|N].
      * rewrite E. destruct Why as [(b & Hb & Ub & Sb)|M].
        -- exfalso. revert E. apply group_has. exists b. repeat split; auto.
        -- rewrite M. exact Hi.
      * destruct (index (filter has_unit (street_group rs s)));
          [congruence|exact Hi].
Qed.

(** X10.  Under the SFA/HOA policy the street loop keeps every row
    without unit, and removes exactly the rows with a unit whose street
    address also occurs without unit. *)
Theorem sfa_policy_decisions rs keep0 remove0 :
  let '(keep, remove) := street_dedup false rs (keep0, remove0) in
  (forall r, In r rs -> lacks_unit r = true -> street_address r <> None ->
             In (idx r) keep) /\
  (forall i, In i remove <->
     In i remove0 \/
     exists r a, In r rs /\ idx r = i /\ has_unit r = true /\
       street_address r <> None /\
       In a rs /\ lacks_unit a = true /\
       street_address a = street_address r).
Proof.
  rewrite street_dedup_stage6. unfold stage6_keep, stage6_remove. split.
  - intros r Hr L Hs. apply in_or_app. right.
    destruct (street_address r) as [s|] eqn:Es; [|congruence].
    apply in_flat_map. exists s. split; [apply street_list_In; eauto|].
    rewrite contribution_sfa. cbv zeta.
    assert (Hi : In (idx r) (index (filter lacks_unit (street_group rs s))))
      by (apply index_filter_group; eauto).
    destruct (index (filter lacks_unit (street_group rs s))); [destruct Hi|].
    exact Hi.
  - intros i. rewrite in_app_iff, in_flat_map. split.
    + intros [H|(s & Hs & H)]; [now left|]. right.
      rewrite contribution_sfa in H. cbv zeta in H.
      destruct (list_empty_or (index (filter lacks_unit (street_group rs s))))
        as [E|N]; [rewrite E in H; destruct H|].
      assert (H' : In i (index (filter has_unit (street_group rs s))))
        by (destruct (index (filter lacks_unit (street_group rs s)));
            [congruence|exact H]).
      apply index_filter_group in H' as (r & Hr & Ei & Sr & U).
      apply group_has in N as (a & Ha & Sa & La).
      exists r, a. repeat split; auto; congruence.
    + intros [H|(r & a & Hr & Ei & U & Sr & Ha & La & Sa)]; [now left|]. right.
      destruct (street_address r) as [s|] eqn:Es; [|congruence].
      exists s. split; [apply street_list_In; eauto|].
      rewrite contribution_sfa. cbv zeta.
      assert (Hi : In i (index (filter has_unit (street_group rs s))))
        by (apply index_filter_group; eauto).
      assert (N : index (filter lacks_unit (street_group rs s)) <> [])
        by (apply group_has; eauto).
      destruct (index (filter lacks_unit (street_group rs s)));
        [congruence|exact Hi].
Qed.

(** ** Stage 8 at work *)

Lemma unit_split_length rs :
  len (filter has_unit rs) + len (filter lacks_unit rs) = len rs.
Proof.
  induction rs as [|r rs IH]; simpl; [reflexivity|].
  rewrite has_lacks. destruct (lacks_unit r); simpl; lia.
Qed.

Lemma one_off_lone_bare rs r st :
  filter lacks_unit rs = [r] -> 10 < len (filter has_unit rs) ->
  one_off rs st = force_remove r (OneOffNoUnit (len (filter has_unit rs))) st.
Proof.
  intros E W. pose proof (unit_split_length rs) as L.
  unfold one_off. rewrite E in *. cbn [List.length] in *.
  replace (len rs - 1) with (len (filter has_unit rs)) by lia.
  assert (T : (10 <? len rs) = true) by (apply Nat.ltb_lt; lia).
  assert (T' : (10 <? len (filter has_unit rs)) = true) by now apply Nat.ltb_lt.
  now rewrite T, T'.
Qed.

Lemma one_off_lone_unit rs r st :
  filter has_unit rs = [r] -> 10 < len (filter lacks_unit rs) ->
  one_off rs st = force_remove r (OneOffWithUnit (len (filter lacks_unit rs))) st.
Proof.
  intros E W. pose proof (unit_split_length rs) as L.
  unfold one_off. rewrite E in *. cbn [List.length] in *.
  replace (len rs - len (filter lacks_unit rs)) with 1 by lia.
  assert (T : (10 <? len rs) = true) by (apply Nat.ltb_lt; lia).
  assert (T1 : (len (filter lacks_unit rs) =? 1) = false)
    by (apply Nat.eqb_neq; lia).
  assert (T' : (10 <? len (filter lacks_unit rs)) = true) by now apply Nat.ltb_lt.
  now rewrite T, T1, T'.
Qed.

Lemma force_remove_effect r why keep remove flagged :
  NoDup keep ->
  let '(keep', remove', flagged') :=
    force_remove r why (keep, remove, flagged) in
  In (idx r) remove' /\ ~ In (idx r) keep' /\
  In (mkFlag (idx r) why r) flagged' /\
  (forall i, i <> idx r -> (In i keep' <-> In i keep)) /\
  (forall i, i <> idx r -> (In i remove' <-> In i remove)).
Proof.
  intros Nk. unfold force_remove.
  destruct (remove_first_NoDup (idx r) keep Nk) as [_ N2].
  split; [apply in_or_app; right; now left|]. split.
  { destruct (mem (idx r) keep) eqn:M; [exact N2|now apply mem_notin]. }
  split; [apply in_or_app; right; now left|]. split.
  - intros i Hi. destruct (mem (idx r) keep); [|tauto]. split.
    + apply remove_first_incl.
    + intros H. now apply remove_first_other.
  - intros i Hi. rewrite in_app_iff. simpl. intuition congruence.
Qed.

Lemma lone_row_survives (f : Row -> bool) rs r : filter f rs = [r] -> rs <> [].
Proof. destruct rs; [discriminate|discriminate]. Qed.

(** X11.  When, among the rows that reach stage 6, exactly one has no
    unit and more than 10 have one, that row ends in the remove list and
    not in the keep list, whatever stage 6 decided, and is flagged with
    the one-off reason that carries the number of rows with a unit; the
    other rows keep the decision of stage 6. *)
Theorem one_off_removes_lone_bare_address df s bt r :
  NoDup (index (rows df)) ->
  filter lacks_unit (survivors3 df bt) = [r] ->
  10 < len (filter has_unit (survivors3 df bt)) ->
  let df3 := survivors3 df bt in
  let mdu_rules := String.eqb bt MDU || is_condo_style (survivors2 df bt) in
  let '(keep, remove, flagged) := process_roe_subname df s bt in
  In (idx r) remove /\ ~ In (idx r) keep /\
  In (mkFlag (idx r) (OneOffNoUnit (len (filter has_unit df3))) r) flagged /\
  (forall i, i <> idx r -> (In i keep <-> In i (stage6_keep mdu_rules df3))).
Proof.
  intros ND E W. cbv zeta.
  rewrite (engine_main_path df s bt (lone_row_survives _ _ _ E)). cbv zeta.
  rewrite (one_off_lone_bare _ r _ E W).
  match goal with
  | |- context [force_remove r ?why (?k, ?rm, ?f)] =>
      pose proof (force_remove_effect r why k rm f
                    (stage6_keep_NoDup _ _ (survivors3_NoDup df bt ND))) as FE;
      destruct (force_remove r why (k, rm, f)) as [[keep' remove'] flagged']
  end.
  tauto.
Qed.

(** Eleven bare addresses and one unit, declared SFA. *)
Fixpoint bare_rows (n first : nat) (btype sub : string) : list Row :=
  match n with
  | O => []
  | S n' =>
      sample_row first (PyStr.of_nat first ++ " PINE RD")%string None btype sub
      :: bare_rows n' (S first) btype sub
  end.

Definition lone_unit : DataFrame :=
  mkDF base_columns
       (bare_rows 11 0 "SFA" "Pine Row"
        ++ [sample_row 11 "90 PINE RD" (Some "UNIT 1") "SFA" "Pine Row"]).

Lemma one_off_removes_lone_bare_address_witness :
  NoDup (index (rows lone_office)) /\
  filter lacks_unit (survivors3 lone_office MDU)
  = [sample_row 11 "2 MAIN ST" None MDU "Oak Court"] /\
  10 < len (filter has_unit (survivors3 lone_office MDU)) /\
  let '(keep, remove, flagged) :=
    process_roe_subname lone_office "Oak Court" MDU in
  In 11 remove /\ ~ In 11 keep.
Proof.
  assert (ND : NoDup (index (rows lone_office))).
  { vm_compute. repeat constructor; simpl; intuition discriminate. }
  assert (E : filter lacks_unit (survivors3 lone_office MDU)
              = [sample_row 11 "2 MAIN ST" None MDU "Oak Court"])
    by (vm_compute; reflexivity).
  assert (W : 10 < len (filter has_unit (survivors3 lone_office MDU)))
    by (vm_compute; lia).
  pose proof (one_off_removes_lone_bare_address lone_office "Oak Court" MDU
                _ ND E W) as T.
  cbv zeta in T.
  destruct (process_roe_subname lone_office "Oak Court" MDU)
    as [[keep remove] flagged].
  split; [exact ND|]. split; [exact E|]. split; [exact W|]. tauto.
Defined.

(** X12.  When, among the rows that reach stage 6, exactly one has a
    unit and more than 10 have none, that row ends in the remove list
    and not in the keep list, whatever stage 6 decided, and is flagged
    with the one-off reason that carries the number of rows without
    unit. *)
Theorem one_off_removes_lone_unit df s bt r :
  NoDup (index (rows df)) ->
  filter has_unit (survivors3 df bt) = [r] ->
  10 < len (filter lacks_unit (survivors3 df bt)) ->
  let df3 := survivors3 df bt in
  let mdu_rules := String.eqb bt MDU || is_condo_style (survivors2 df bt) in
  let '(keep, remove, flagged) := process_roe_subname df s bt in
  In (idx r) remove /\ ~ In (idx r) keep /\
  In (mkFlag (idx r) (OneOffWithUnit (len (filter lacks_unit df3))) r) flagged /\
  (forall i, i <> idx r -> (In i keep <-> In i (stage6_keep mdu_rules df3))).
Proof.
  intros ND E W. cbv zeta.
  rewrite (engine_main_path df s bt (lone_row_survives _ _ _ E)). cbv zeta.
  rewrite (one_off_lone_unit _ r _ E W).
  match goal with
  | |- context [force_remove r ?why (?k, ?rm, ?f)] =>
      pose proof (force_remove_effect r why k rm f
                    (stage6_keep_NoDup _ _ (survivors3_NoDup df bt ND))) as FE;
      destruct (force_remove r why (k, rm, f)) as [[keep' remove'] flagged']
  end.
  tauto.
Qed.

Lemma one_off_removes_lone_unit_witness :
  NoDup (index (rows lone_unit)) /\
  filter has_unit (survivors3 lone_unit "SFA")
  = [sample_row 11 "90 PINE RD" (Some "UNIT 1") "SFA" "Pine Row"] /\
  10 < len (filter lacks_unit (survivors3 lone_unit "SFA")) /\
  let '(keep, remove, flagged) :=
    process_roe_subname lone_unit "Pine Row" "SFA" in
  In 11 remove /\ ~ In 11 keep.
Proof.
  assert (ND : NoDup (index (rows lone_unit))).
  { vm_compute. repeat constructor; simpl; intuition discriminate. }
  assert (E : filter has_unit (survivors3 lone_unit "SFA")
              = [sample_row 11 "90 PINE RD" (Some "UNIT 1") "SFA" "Pine Row"])
    by (vm_compute; reflexivity).
  assert (W : 10 < len (filter lacks_unit (survivors3 lone_unit "SFA")))
    by (vm_compute; lia).
  pose proof (one_off_removes_lone_unit lone_unit "Pine Row" "SFA"
                _ ND E W) as T.
  cbv zeta in T.
  destruct (process_roe_subname lone_unit "Pine Row" "SFA")
    as [[keep remove] flagged].
  split; [exact ND|]. split; [exact E|]. split; [exact W|]. tauto.
Defined.

(** ** The remove list *)

Lemma stage6_remove_NoDup mdu rs : NoDup (index rs) -> NoDup (stage6_remove mdu rs).
Proof.
  intros H. apply NoDup_flat_map.
  - apply street_list_NoDup.
  - intros s _. apply contribution_NoDup, NoDup_index_filter, H.
  - intros s1 s2 i _ _ H1 H2.
    eapply group_of_label; eauto; apply (contribution_covers mdu rs); eauto.
Qed.

Lemma anomaly_indices_NoDup rs : NoDup (index rs) -> NoDup (anomaly_indices rs).
Proof. apply NoDup_index_filter. Qed.

Lemma plus4_indices_NoDup cols bt rs :
  NoDup (index rs) -> NoDup (plus4_anomaly_indices cols bt rs).
Proof.
  intros H. unfold plus4_anomaly_indices.
  destruct (_ && _); [now apply NoDup_index_filter|constructor].
Qed.

Lemma early_removals_NoDup df bt :
  NoDup (index (rows df)) -> NoDup (early_removals df bt).
Proof.
  intros ND. unfold early_removals. apply NoDup_app.
  - now apply anomaly_indices_NoDup.
  - apply plus4_indices_NoDup. unfold survivors1, drop.
    now apply NoDup_index_filter.
  - intros i Ha Hp. apply plus4_indices_known in Hp.
    apply survivors1_index in Hp. tauto.
Qed.

(** X13.  With distinct labels, the remove list of a community is a
    list without repetition, followed by at most one more label (the
    one the one-off override appends): no label occurs in it more than
    twice, and the keep list has no repetition at all. *)
Theorem remove_list_repeats_at_most_once df s bt :
  NoDup (index (rows df)) ->
  let '(keep, remove, _) := process_roe_subname df s bt in
  NoDup keep /\
  exists decided appended,
    remove = decided ++ appended /\ NoDup decided /\ len appended <= 1.
Proof.
  intros ND. pose proof (engine_partition df s bt ND) as P.
  rewrite process_roe_subname_unfold in *.
  destruct (len (survivors1 df) =? 0).
  { split; [constructor|]. exists (anomaly_indices (rows df)), [].
    rewrite app_nil_r. repeat split; auto.
    now apply anomaly_indices_NoDup. }
  pose proof (early_removals_NoDup df bt ND) as NE.
  destruct (len (survivors2 df bt) =? 0).
  { split; [constructor|]. exists (early_removals df bt), [].
    rewrite app_nil_r. repeat split; auto. }
  cbv zeta in *.
  destruct (len (survivors3 df bt) =? 0).
  { split; [constructor|]. exists (early_removals df bt), [].
    rewrite app_nil_r. repeat split; auto. }
  pose proof (survivors3_NoDup df bt ND) as N3.
  match type of P with
  | context [one_off ?rs (?k, ?rm, ?f)] =>
      assert (NR : NoDup rm);
      [|destruct (one_off_adds rs (k, rm, f)) as [E|(x & why & _ & _ & E)];
        rewrite E in *]
  end.
  { apply NoDup_app; [exact NE|now apply stage6_remove_NoDup|].
    intros i He H6.
    assert (H3 : In i (index (survivors3 df bt)))
      by (eapply stage6_known; right; exact H6).
    apply survivors3_incl in H3.
    eapply early_removals_gone; eauto. }
  - destruct P as ([Nk _] & _). split; [exact Nk|].
    eexists _, []. rewrite app_nil_r. repeat split; auto.
  - unfold force_remove in *. destruct P as ([Nk _] & _). split; [exact Nk|].
    eexists _, [idx x]. repeat split; auto.
Qed.

Lemma remove_list_repeats_at_most_once_witness :
  NoDup (index (rows lone_office)) /\
  let '(keep, remove, _) := process_roe_subname lone_office "Oak Court" MDU in
  NoDup keep /\
  exists decided appended,
    remove = decided ++ appended /\ NoDup decided /\ len appended <= 1.
Proof.
  assert (ND : NoDup (index (rows lone_office))).
  { vm_compute. repeat constructor; simpl; intuition discriminate. }
  split; [exact ND|].
  exact (remove_list_repeats_at_most_once lone_office "Oak Court" MDU ND).
Defined.

(** ** The order of the sentinel community *)

Lemma cell_leb_refl a : cell_leb a a = true.
Proof. destruct a; simpl; [apply string_leb_refl|reflexivity]. Qed.

Lemma cell_leb_trans a b c :
  cell_leb a b = true -> cell_leb b c = true -> cell_leb a c = true.
Proof.
  destruct a, b, c; simpl; try congruence. apply string_leb_trans.
Qed.

Lemma cell_leb_total a b : cell_leb a b = true \/ cell_leb b a = true.
Proof. destruct a, b; simpl; auto. apply String.leb_total. Qed.

Lemma cell_eqb_eq a b : cell_eqb a b = true -> a = b.
Proof.
  destruct a, b; simpl; try congruence.
  intros H. apply String.eqb_eq in H. now subst.
Qed.

(** Ascending on one column, missing values last. *)
Definition ascending (col : Row -> option string) (a b : Row) : Prop :=
  cell_leb (col a) (col b) = true.

Lemma sort_values_one_column col rs :
  StronglySorted (ascending col) (sort_values (fun r => [col r]) rs).
Proof.
  unfold sort_values. apply sort_by_sorted; unfold ascending.
  - intros a b. cbn [cells_leb].
    destruct (cell_eqb (col a) (col b)) eqn:E; [|auto].
    intros _. apply cell_eqb_eq in E. rewrite E. apply cell_leb_refl.
  - intros a b. cbn [cells_leb].
    destruct (cell_eqb (col a) (col b)) eqn:E; [discriminate|].
    intros H. destruct (cell_leb_total (col a) (col b)); congruence.
  - intros a b c. apply cell_leb_trans.
Qed.

(** X14.  The rows of a community reach the engine as a permutation of
    its rows; in frame order for a named community, and for the
    sentinel "No Subname" sorted by street name when the frame has that
    column (rows without street name last), else by street address. *)
Theorem sentinel_community_is_sorted cols s rs :
  Permutation (order_community cols s rs) rs /\
  (s <> "No Subname" -> order_community cols s rs = rs) /\
  (s = "No Subname" -> In "Street Name" cols ->
   StronglySorted (ascending street_name) (order_community cols s rs)) /\
  (s = "No Subname" -> ~ In "Street Name" cols ->
   StronglySorted (ascending street_address) (order_community cols s rs)).
Proof.
  split; [apply order_community_perm|]. unfold order_community.
  split; [|split].
  - intros N. apply String.eqb_neq in N. now rewrite N.
  - intros -> C. apply existsb_eqb_In in C. rewrite String.eqb_refl, C.
    apply sort_values_one_column.
  - intros -> C. rewrite String.eqb_refl.
    destruct (existsb (String.eqb "Street Name") cols) eqn:E.
    + apply existsb_eqb_In in E. contradiction.
    + apply sort_values_one_column.
Qed.

(** ** Spacers *)

Definition is_spacer (e : RoeRow) : bool :=
  match e with
  | Spacer => true
  | Entry _ _ => false
  end.

Lemma block_rows_spacers b : filter is_spacer (block_rows b) = [].
Proof.
  destruct b as [|r t]; [reflexivity|]. simpl.
  induction t as [|x t IH]; [reflexivity|exact IH].
Qed.

Lemma spaced_spacers blocks :
  len (filter is_spacer (spaced blocks)) = pred (len blocks).
Proof.
  destruct blocks as [|b rest]; [reflexivity|]. unfold spaced.
  rewrite filter_app, block_rows_spacers. cbn [app List.length pred].
  induction rest as [|b' rest IH]; [reflexivity|].
  cbn [flat_map]. rewrite filter_app. cbn [filter is_spacer app].
  rewrite block_rows_spacers. cbn [app List.length]. now rewrite IH.
Qed.

Lemma runs_names_cover rs s :
  In s (map block_name (runs rs)) <-> In s (map subname rs).
Proof.
  rewrite !in_map_iff. split.
  - intros (b & <- & Hb). apply runs_names in Hb as (r & Hr & E).
    exists r. split; [now symmetry|exact Hr].
  - intros (r & <- & Hr). rewrite <- (runs_concat rs) in Hr.
    apply in_concat in Hr as (b & Hb & Hr).
    pose proof (runs_uniform rs) as U. rewrite Forall_forall in U.
    destruct (U b Hb) as [_ Ub]. exists b. split; [|exact Hb].
    symmetry. now apply Ub.
Qed.

Lemma runs_count rs :
  StronglySorted by_subname rs ->
  len (runs rs) = len (nodup string_dec (map subname rs)).
Proof.
  intros S. rewrite <- (length_map block_name).
  apply Permutation_length, NoDup_Permutation.
  - now apply runs_names_NoDup.
  - apply NoDup_nodup.
  - intros s. rewrite nodup_In. apply runs_names_cover.
Qed.

Lemma nodup_length_perm (l l' : list string) :
  Permutation l l' -> len (nodup string_dec l) = len (nodup string_dec l').
Proof.
  intros P. apply Permutation_length, NoDup_Permutation;
    try apply NoDup_nodup.
  intros s. rewrite !nodup_In. split; apply Permutation_in; [|symmetry]; exact P.
Qed.

Lemma spacer_count cols rs :
  len (filter is_spacer (add_spacing_to_roe (sort_roe cols rs)))
  = pred (len (nodup string_dec (map subname rs))).
Proof.
  pose proof (sort_roe_sorted cols rs) as S.
  rewrite <- (runs_concat (sort_roe cols rs)) at 1.
  rewrite add_spacing_blocks
    by (apply runs_uniform || now apply runs_names_NoDup).
  rewrite spaced_spacers, (runs_count _ S).
  f_equal. apply nodup_length_perm, Permutation_map, sort_roe_perm.
Qed.

(** X15.  The spacing pass keeps the records of the tab, each once and
    in their order, whatever the order of the tab; on the sorted tab it
    adds one blank row less than there are distinct community names. *)
Theorem spacing_keeps_rows_and_counts_spacers cols rs :
  (forall l, roe_records (add_spacing_to_roe l) = l) /\
  len (filter is_spacer (add_spacing_to_roe (sort_roe cols rs)))
  = pred (len (nodup string_dec (map subname rs))).
Proof. split; [apply roe_records_spacing|apply spacer_count]. Qed.

(** ** The rows of the tabs *)

Lemma loc_In labels rs r : In r (loc labels rs) -> In r rs.
Proof.
  unfold loc. rewrite in_flat_map. intros (i & _ & H).
  apply filter_In in H. tauto.
Qed.

Lemma survivors2_rows df bt r : In r (survivors2 df bt) -> In r (rows df).
Proof.
  unfold survivors2, survivors1. intros H.
  repeat (apply drop_In in H as [H _]). exact H.
Qed.

Lemma survivors3_rows df bt r : In r (survivors3 df bt) -> In r (rows df).
Proof.
  unfold survivors3. intros H. apply drop_In in H as [H _].
  eapply survivors2_rows, H.
Qed.

(** Every flag entry of the engine carries a row of the community
    under the label of that row. *)
Lemma engine_flag_rows df s bt :
  let '(_, _, flagged) := process_roe_subname df s bt in
  forall e, In e flagged ->
    In (flag_row e) (rows df) /\ flag_index e = idx (flag_row e).
Proof.
  rewrite process_roe_subname_unfold.
  destruct (len (survivors1 df) =? 0); [intros e []|].
  destruct (len (survivors2 df bt) =? 0); [intros e []|].
  cbv zeta.
  assert (St : forall e,
            In e (oversize_flags (survivors2 df bt)
                  ++ mdu_format_flags (String.eqb bt MDU) (survivors2 df bt)) ->
            In (flag_row e) (rows df) /\ flag_index e = idx (flag_row e)).
  { intros e He. apply in_app_or in He as [He|He].
    - unfold oversize_flags in He. destruct (800 <? _); [|destruct He].
      apply in_map_iff in He as (r & <- & Hr). simpl.
      split; [eapply survivors2_rows, Hr|reflexivity].
    - apply mdu_format_flags_spec in He as (_ & Hr & E & _).
      split; [eapply survivors2_rows, Hr|exact E]. }
  destruct (len (survivors3 df bt) =? 0); [exact St|].
  match goal with
  | |- context [one_off ?rs (?k, ?rm, ?f)] =>
      assert (Fl : forall e, In e f ->
                In (flag_row e) (rows df) /\ flag_index e = idx (flag_row e));
      [|destruct (one_off_adds rs (k, rm, f)) as [E|(x & why & Hx & _ & E)];
        rewrite E]
  end.
  { intros e He. apply in_app_or in He as [He|He]; [now apply St|].
    apply minority_format_flags_spec in He as (Hr & E & _).
    split; [eapply survivors3_rows, Hr|exact E]. }
  - exact Fl.
  - unfold force_remove. intros e He.
    apply in_app_or in He as [He|[<-|[]]]; [now apply Fl|]. simpl.
    split; [eapply survivors3_rows, Hx|reflexivity].
Qed.

Lemma decisions_rows cols cands :
  let '(K, R, F) := roe_decisions cols cands in
  forall e, In e F ->
    In (flag_row e) cands /\ flag_index e = idx (flag_row e).
Proof.
  rewrite roe_decisions_eq. intros e He.
  apply in_flat_map in He as (k & _ & He). unfold community_result in He.
  pose proof (engine_flag_rows (community_frame cols cands k) (fst k) (snd k))
    as P.
  destruct (process_roe_subname _ _ _) as [[kp rm] fl]. cbn [snd] in He.
  destruct (P e He) as [Hr E]. split; [|exact E].
  apply community_frame_In in Hr. tauto.
Qed.

Lemma tabs_rows df :
  let t := process df in
  (forall r, In r (roe_records (ROE t)) \/ In r (Remove t) ->
     In r (rows df) /\ In (building_type r) roe_types) /\
  (forall e, In e (Flagged t) ->
     In (flag_row e) (rows df) /\ In (building_type (flag_row e)) roe_types /\
     flag_index e = idx (flag_row e)) /\
  (forall r, In r (Public t) <-> In r (rows df) /\ building_type r = "Residential") /\
  (forall r, In r (Commercial t) <-> In r (rows df) /\ building_type r = "Commercial") /\
  (forall r, In r (Competitive t) <-> In r (rows df) /\ building_type r = "Competitive") /\
  (forall r, In r (Other t) <-> In r (rows df) /\ building_type r = "Other").
Proof.
  cbv zeta. unfold process.
  pose proof (decisions_rows (columns df) (roe_candidates (rows df))) as D.
  destruct (roe_decisions _ _) as [[K R] F].
  cbn [Public Commercial Competitive Other ROE Remove Flagged].
  split; [|split].
  - intros r H. apply roe_candidates_In.
    destruct H as [H|H]; [|eapply loc_In, H].
    rewrite roe_records_spacing in H.
    apply (Permutation_in _ (sort_roe_perm _ _)) in H. eapply loc_In, H.
  - intros e He. destruct (D e He) as [Hr E].
    apply roe_candidates_In in Hr. tauto.
  - assert (T : forall ty r, In r (of_type ty (rows df)) <->
                             In r (rows df) /\ building_type r = ty)
      by (intros ty r; unfold of_type; now rewrite filter_In, String.eqb_eq).
    repeat (split; [intros r; apply T|]). intros r. apply T.
Qed.

(** X16.  The ROE and Remove tabs hold only input records of the four
    ROE building types, every flag entry carries such a record under its
    own label, and Public, Commercial, Competitive and Other hold
    exactly the input records of the type Residential, Commercial,
    Competitive and Other. *)
Theorem tabs_hold_input_records df :
  let t := process df in
  (forall r, In r (roe_records (ROE t)) \/ In r (Remove t) ->
     In r (rows df) /\ In (building_type r) roe_types) /\
  (forall e, In e (Flagged t) ->
     In (flag_row e) (rows df) /\ In (building_type (flag_row e)) roe_types /\
     flag_index e = idx (flag_row e)) /\
  (forall r, In r (Public t) <-> In r (rows df) /\ building_type r = "Residential") /\
  (forall r, In r (Commercial t) <-> In r (rows df) /\ building_type r = "Commercial") /\
  (forall r, In r (Competitive t) <-> In r (rows df) /\ building_type r = "Competitive") /\
  (forall r, In r (Other t) <-> In r (rows df) /\ building_type r = "Other").
Proof. exact (tabs_rows df). Qed.

(** X17.  A record whose building type is none of the eight categories
    is in the All tab only: it is in none of the six category outputs
    and no flag entry names it. *)
Theorem unknown_types_are_left_out df r :
  NoDup (index (rows df)) ->
  In r (rows df) ->
  ~ In (building_type r) all_types ->
  let t := process df in
  In r (All t) /\ routed t (idx r) = 0 /\
  forall e, In e (Flagged t) -> flag_index e <> idx r.
Proof.
  intros ND Hr Ty. cbv zeta.
  pose proof (tabs_rows df) as T. cbv zeta in T.
  destruct T as (TR & TF & _).
  assert (NoRoe : ~ In (building_type r) roe_types).
  { intros H. apply Ty. unfold all_types. apply in_or_app. now right. }
  assert (Off : forall tab, (forall x, In x tab -> In x (rows df) /\
                                       building_type x <> building_type r) ->
                mem (idx r) (index tab) = false).
  { intros tab H. apply mem_notin. unfold index. rewrite in_map_iff.
    intros (x & E & Hx). destruct (H x Hx) as [Hi N].
    assert (x = r) by (eapply index_inj; eauto). subst. congruence. }
  assert (OffT : forall T, In T all_types ->
                 mem (idx r) (index (of_type T (rows df))) = false).
  { intros T HT. rewrite (of_type_mem _ _ _ ND Hr).
    apply String.eqb_neq. intros E. apply Ty. now rewrite E. }
  split; [unfold process; destruct (roe_decisions _ _) as [[K R] F]; exact Hr|].
  split.
  - unfold routed, category_labels. cbn [filter].
    assert (PT : Public (process df) = of_type "Residential" (rows df)
                 /\ Commercial (process df) = of_type "Commercial" (rows df)
                 /\ Competitive (process df) = of_type "Competitive" (rows df)
                 /\ Other (process df) = of_type "Other" (rows df)).
    { unfold process. destruct (roe_decisions _ _) as [[K R] F].
      repeat split. }
    destruct PT as (-> & -> & -> & ->).
    rewrite !OffT by (unfold all_types; simpl; tauto).
    rewrite (Off (roe_records (ROE (process df)))), (Off (Remove (process df))).
    + reflexivity.
    + intros x Hx. destruct (TR x (or_intror Hx)) as [Hi Hb].
      split; [exact Hi|]. intros E. apply NoRoe. now rewrite <- E.
    + intros x Hx. destruct (TR x (or_introl Hx)) as [Hi Hb].
      split; [exact Hi|]. intros E. apply NoRoe. now rewrite <- E.
  - intros e He E. destruct (TF e He) as (Hi & Hb & Ei).
    assert (flag_row e = r) by (eapply index_inj; eauto; congruence).
    subst. contradiction.
Qed.

(** A warehouse beside two houses of one community. *)
Definition with_unknown_type : DataFrame :=
  mkDF base_columns
       [sample_row 0 "5 PINE RD" None "SFA" "Pine Row";
        sample_row 1 "9 DOCK ST" None "Industrial" "Docks";
        sample_row 2 "7 PINE RD" None "Residential" "No Subname"].

Lemma unknown_types_are_left_out_witness :
  NoDup (index (rows with_unknown_type)) /\
  ~ In "Industrial" all_types /\
  routed (process with_unknown_type) 1 = 0 /\
  map (routed (process with_unknown_type)) [0; 1; 2] = [1; 0; 1].
Proof.
  assert (ND : NoDup (index (rows with_unknown_type))).
  { repeat constructor; simpl; intuition discriminate. }
  assert (Ty : ~ In "Industrial" all_types).
  { unfold all_types, roe_types. simpl. intuition discriminate. }
  pose proof (unknown_types_are_left_out with_unknown_type
                (sample_row 1 "9 DOCK ST" None "Industrial" "Docks") ND
                (or_intror (or_introl eq_refl)) Ty) as T.
  cbv zeta in T. destruct T as (_ & T & _).
  split; [exact ND|]. split; [exact Ty|]. split; [exact T|].
  vm_compute. reflexivity.
Defined.

(** ** The summary tab *)

Lemma list_sum_add {A} (f g : A -> nat) l :
  list_sum (map (fun x => f x + g x) l) = list_sum (map f l) + list_sum (map g l).
Proof. induction l as [|a l IH]; simpl; [reflexivity|]. rewrite IH. lia. Qed.

Lemma one_key_matches x keys :
  NoDup keys -> In x keys ->
  list_sum (map (fun t => if String.eqb x t then 1 else 0) keys) = 1.
Proof.
  induction keys as [|k keys IH]; intros ND Hx; [destruct Hx|].
  inversion ND as [|? ? Hn ND']; subst. simpl.
  destruct (String.eqb_spec x k) as [->|N].
  - assert (Z : list_sum (map (fun t => if String.eqb k t then 1 else 0) keys) = 0).
    { clear IH ND ND' Hx. induction keys as [|y keys IH]; [reflexivity|]. simpl.
      destruct (String.eqb_spec k y) as [->|_]; [exfalso; apply Hn; now left|].
      apply IH. intros H. apply Hn. now right. }
    rewrite Z. reflexivity.
  - destruct Hx as [->|Hx]; [congruence|]. now rewrite IH.
Qed.

Lemma by_type_adds_up keys rs :
  NoDup keys -> (forall r, In r rs -> In (building_type r) keys) ->
  list_sum (map (fun t => len (of_type t rs)) keys) = len rs.
Proof.
  intros ND. induction rs as [|a rs IH]; intros Cov.
  - clear ND Cov. induction keys as [|k keys IHk]; [reflexivity|exact IHk].
  - rewrite (map_ext _ (fun t => (if String.eqb (building_type a) t then 1 else 0)
                                 + len (of_type t rs))).
    + rewrite list_sum_add, one_key_matches, IH; auto.
      * intros r Hr. apply Cov. now right.
      * apply Cov. now left.
    + intros t. unfold of_type. cbn [filter].
      now destruct (String.eqb (building_type a) t).
Qed.

Lemma roe_rows_and_spacers (l : list RoeRow) :
  len l = len (roe_records l) + len (filter is_spacer l).
Proof.
  induction l as [|e l IH]; [reflexivity|].
  destruct e; cbn [roe_records flat_map filter is_spacer app List.length];
    fold (roe_records l); lia.
Qed.

(** X18.  In the summary, the counts per ROE building type add up to
    the number of kept records and name only ROE building types, each
    with a positive count; the row "ROE - Total" is the length of the
    spaced ROE tab, that is the number of kept records plus the number
    of blank rows (one less than there are community names among the
    kept records). *)
Theorem summary_counts df :
  let t := process df in
  let kept := roe_records (ROE t) in
  create_unit_count_tab t =
    [("Total", len (rows df));
     ("Public", len (of_type "Residential" (rows df)));
     ("Commercial", len (of_type "Commercial" (rows df)))]
    ++ map (fun e => (("ROE - " ++ fst e)%string, snd e)) (roe_by_type (ROE t))
    ++ [("ROE - Total",
         len kept + pred (len (nodup string_dec (map subname kept))));
        ("Competitive", len (of_type "Competitive" (rows df)));
        ("Other", len (of_type "Other" (rows df)));
        ("Remove", len (Remove t))] /\
  list_sum (map snd (roe_by_type (ROE t))) = len kept /\
  (forall ty n, In (ty, n) (roe_by_type (ROE t)) ->
                In ty roe_types /\ 0 < n).
Proof.
  cbv zeta.
  pose proof (tabs_rows df) as T. cbv zeta in T. destruct T as (TR & _).
  assert (Len : len (ROE (process df)) =
                len (roe_records (ROE (process df)))
                + pred (len (nodup string_dec
                          (map subname (roe_records (ROE (process df))))))).
  { rewrite (roe_rows_and_spacers (ROE (process df))). f_equal.
    unfold process. destruct (roe_decisions _ _) as [[K R] F]. cbn [ROE].
    rewrite spacer_count, roe_records_spacing. f_equal.
    apply nodup_length_perm, Permutation_map. symmetry. apply sort_roe_perm. }
  split; [|split].
  - unfold create_unit_count_tab. rewrite Len.
    unfold process. destruct (roe_decisions _ _) as [[K R] F]. reflexivity.
  - unfold roe_by_type. rewrite map_map. cbn [snd].
    apply by_type_adds_up.
    + unfold sort_keys. eapply Permutation_NoDup;
        [symmetry; apply sort_by_perm|apply NoDup_nodup].
    + intros r Hr. unfold sort_keys. apply sort_by_In, nodup_In.
      now apply in_map.
  - intros ty n H. unfold roe_by_type in H. apply in_map_iff in H as (k & E & Hk).
    injection E as -> <-. unfold sort_keys in Hk.
    apply sort_by_In, nodup_In, in_map_iff in Hk as (r & <- & Hr).
    split; [apply TR; now left|].
    assert (In r (of_type (building_type r) (roe_records (ROE (process df)))))
      by (apply filter_In; split; [exact Hr|apply String.eqb_refl]).
    destruct (of_type _ _); [destruct H|simpl; lia].
Qed.

(** ** File names *)

Module FileNamesFacts.
Import FileNames.

Lemma has_dot_app a b : has_dot (a ++ b)%string = has_dot a || has_dot b.
Proof.
  induction a as [|c t IH]; simpl; [reflexivity|].
  now rewrite IH, orb_assoc.
Qed.

Lemma before_last_dot_ext stem ext :
  has_dot ext = false ->
  before_last_dot (stem ++ String "." ext)%string = stem.
Proof.
  intros H. induction stem as [|c t IH]; simpl.
  - now rewrite H.
  - rewrite IH, has_dot_app. simpl. now rewrite orb_true_r, andb_false_r.
Qed.

Lemma before_last_dot_none s : has_dot s = false -> before_last_dot s = s.
Proof.
  induction s as [|c t IH]; simpl; [reflexivity|].
  intros H. apply orb_false_iff in H as [Hc Ht].
  now rewrite Hc, IH.
Qed.

Lemma endswith_split suffix s :
  endswith suffix s = true -> exists stem, s = (stem ++ suffix)%string.
Proof.
  induction s as [|c t IH]; cbn [endswith].
  - rewrite orb_false_r. intros H. apply String.eqb_eq in H.
    exists EmptyString. now subst.
  - intros H. apply orb_true_iff in H as [H|H].
    + apply String.eqb_eq in H. exists EmptyString. now subst.
    + destruct (IH H) as (stem & ->). now exists (String c stem).
Qed.

End FileNamesFacts.

(** X19.  For every input name [load_data] accepts, a stem followed by
    ".csv" or ".xlsx", the default output name is the stem followed by
    "_sorted.xlsx"; a name without dot is refused by [load_data] and
    gets "_sorted.xlsx" appended. *)
Theorem default_output_replaces_extension input_file :
  (forall fmt, FileNames.input_format input_file = Some fmt ->
     exists stem,
       input_file = (stem ++ match fmt with
                             | FileNames.csv => ".csv"
                             | FileNames.xlsx => ".xlsx"
                             end)%string /\
       FileNames.default_output_file input_file
       = (stem ++ "_sorted.xlsx")%string) /\
  (FileNames.has_dot input_file = false ->
   FileNames.input_format input_file = None /\
   FileNames.default_output_file input_file
   = (input_file ++ "_sorted.xlsx")%string).
Proof.
  unfold FileNames.input_format, FileNames.default_output_file. split.
  - intros fmt.
    destruct (FileNames.endswith ".csv" input_file) eqn:C;
      [|destruct (FileNames.endswith ".xlsx" input_file) eqn:X;
        [|discriminate]];
      intros E; injection E as <-;
      [apply FileNamesFacts.endswith_split in C as (stem & ->)
      |apply FileNamesFacts.endswith_split in X as (stem & ->)];
      exists stem; (split; [reflexivity|]);
      now rewrite (FileNamesFacts.before_last_dot_ext stem).
  - intros H. rewrite (FileNamesFacts.before_last_dot_none _ H).
    split; [|reflexivity].
    destruct (FileNames.endswith ".csv" input_file) eqn:C.
    { apply FileNamesFacts.endswith_split in C as (stem & ->).
      rewrite FileNamesFacts.has_dot_app in H. simpl in H.
      rewrite orb_true_r in H. discriminate. }
    destruct (FileNames.endswith ".xlsx" input_file) eqn:X; [|reflexivity].
    apply FileNamesFacts.endswith_split in X as (stem & ->).
    rewrite FileNamesFacts.has_dot_app in H. simpl in H.
    rewrite orb_true_r in H. discriminate.
Qed.

(** ** Grouping *)

(** X20.  A row without street address is passed over by the street
    loop: [groupby] leaves it out of every group, so stage 6 neither
    keeps nor removes it. *)
Theorem rows_without_street_are_skipped mdu rs keep0 remove0 r :
  NoDup (index rs) ->
  In r rs ->
  street_address r = None ->
  let '(keep, remove) := street_dedup mdu rs (keep0, remove0) in
  (In (idx r) keep <-> In (idx r) keep0) /\
  (In (idx r) remove <-> In (idx r) remove0).
Proof.
  intros ND Hr Hs. rewrite street_dedup_stage6.
  assert (Out : ~ (In (idx r) (stage6_keep mdu rs)
                   \/ In (idx r) (stage6_remove mdu rs))).
  { rewrite stage6_in_group. intros (s & _ & H).
    unfold index in H. apply in_map_iff in H as (x & E & Hx).
    apply street_group_In in Hx as [Hx Sx].
    assert (x = r) by (eapply index_inj; eauto). subst. congruence. }
  rewrite !in_app_iff. tauto.
Qed.

(** A bare address and a row whose street address is missing. *)
Definition missing_street : DataFrame :=
  mkDF base_columns
       [sample_row 0 "5 PINE RD" None "SFA" "Pine Row";
        mkRow 1 "1" None (Some "UNIT 2") "SFA" "Pine Row" None None None].

Lemma rows_without_street_are_skipped_witness :
  NoDup (index (rows missing_street)) /\
  (let '(keep, remove) := street_dedup false (rows missing_street) ([], []) in
   (In 1 keep <-> In 1 []) /\ (In 1 remove <-> In 1 [])) /\
  process_roe_subname missing_street "Pine Row" "SFA" = ([0], [], []).
Proof.
  assert (ND : NoDup (index (rows missing_street))).
  { repeat constructor; simpl; intuition discriminate. }
  split; [exact ND|]. split; [|vm_compute; reflexivity].
  exact (rows_without_street_are_skipped false (rows missing_street) [] []
           (mkRow 1 "1" None (Some "UNIT 2") "SFA" "Pine Row" None None None)
           ND (or_intror (or_introl eq_refl)) eq_refl).
Defined.

(** X21.  Grouping the ROE candidates by community name and building
    type loses no candidate and repeats none: the groups have pairwise
    distinct keys, none is empty, each holds exactly the candidates of
    its key, and together they are a permutation of the candidates. *)
Theorem communities_partition_candidates cands :
  NoDup (index cands) ->
  let groups := groupby_community cands in
  NoDup (map fst groups) /\
  (forall k g, In (k, g) groups ->
     g <> [] /\
     forall r, In r g <-> In r cands /\ (subname r, building_type r) = k) /\
  Permutation (flat_map snd groups) cands.
Proof.
  intros ND. cbv zeta. unfold groupby_community.
  fold (community_list cands).
  split; [|split].
  - rewrite map_map. cbn [fst]. rewrite map_id. apply community_list_NoDup.
  - intros k g H. apply in_map_iff in H as (k' & E & Hk). injection E as -> <-.
    assert (M : forall r, In r (filter (in_community k) cands) <->
                          In r cands /\ (subname r, building_type r) = k)
      by (intros r; rewrite filter_In, in_community_iff; reflexivity).
    split; [|exact M].
    unfold community_list in Hk.
    apply sort_by_In, nodup_In, in_map_iff in Hk as (r & <- & Hr).
    intros E. assert (In r (filter (in_community (community_key r)) cands))
      by (apply M; split; [exact Hr|reflexivity]).
    rewrite E in H. destruct H.
  - rewrite flat_map_map. cbn [snd]. apply NoDup_Permutation.
    + apply NoDup_flat_map.
      * apply community_list_NoDup.
      * intros k _. apply NoDup_filter. eapply NoDup_map_inv, ND.
      * intros k1 k2 r _ _ H1 H2. apply filter_In in H1 as [_ H1], H2 as [_ H2].
        apply in_community_iff in H1, H2. congruence.
    + eapply NoDup_map_inv, ND.
    + intros r. rewrite in_flat_map. split.
      * intros (k & _ & H). apply filter_In in H. tauto.
      * intros Hr. exists (community_key r).
        split; [now apply community_list_In|].
        apply filter_In. split; [exact Hr|now apply in_community_iff].
Qed.

Lemma communities_partition_candidates_witness :
  NoDup (index (rows with_unknown_type)) /\
  map fst (groupby_community (rows with_unknown_type))
  = [("Docks", "Industrial"); ("No Subname", "Residential"); ("Pine Row", "SFA")] /\
  Permutation (flat_map snd (groupby_community (rows with_unknown_type)))
              (rows with_unknown_type).
Proof.
  assert (ND : NoDup (index (rows with_unknown_type))).
  { repeat constructor; simpl; intuition discriminate. }
  pose proof (communities_partition_candidates (rows with_unknown_type) ND) as T.
  cbv zeta in T. destruct T as (_ & _ & T).
  split; [exact ND|]. split; [vm_compute; reflexivity|exact T].
Defined.
